(** * open_clip/model.py: tower selection, model assembly, forward
      composition and checkpoint adaptation of the dual-encoder model.

    The development follows the layout of the source file:
    configuration records, the two tower factories, the [CLIP] class
    (constructor, slot decomposition, the two encoders), the precision
    converter, the legacy-checkpoint adapter and the position-embedding
    resizer.  Classes and functions imported from sibling modules
    ([transformer], [modified_resnet], [timm_model], [hf_model], [utils])
    and from the tensor runtime appear either as the constructor call
    that creates them or as operations of an interface record. *)

From Stdlib Require Import ZArith List String Ascii Bool Lia Reals Lra Psatz.
From stdpp Require Import base gmap strings list.

Local Open Scope string_scope.
Local Open Scope list_scope.

(** ** Python exceptions and the two effect layers *)

Inductive PyErr : Type :=
| ValueError (msg : string)
| AssertionError
| NotImplementedError
| ZeroDivisionError
| TypeError
| IndexError
| KeyError (key : string)
| AttributeError (attr : string)
| RuntimeError (msg : string).

(** A computation without side effects either returns or raises. *)
Inductive Result (A : Type) : Type :=
| Ok (a : A)
| Raise (e : PyErr).
Arguments Ok {A} a.
Arguments Raise {A} e.

Definition rbind {A B} (r : Result A) (k : A -> Result B) : Result B :=
  match r with
  | Ok a => k a
  | Raise e => Raise e
  end.

Notation "x <-- r ; k" := (rbind r (fun x => k))
  (at level 20, r at level 100, k at level 200, only parsing).
Notation "' p <-- r ; k" := (rbind r (fun p => k))
  (at level 20, p pattern, r at level 100, k at level 200, only parsing).

(** A computation that mutates objects threads a state [S]; the state
    reached when an exception escapes is kept, as in-place updates are
    not rolled back. *)
Definition M (S A : Type) : Type := S -> S * Result A.

Definition ret {S A} (a : A) : M S A := fun s => (s, Ok a).
Definition throw {S A} (e : PyErr) : M S A := fun s => (s, Raise e).
Definition bind {S A B} (m : M S A) (k : A -> M S B) : M S B :=
  fun s => match m s with
           | (s', Ok a) => k a s'
           | (s', Raise e) => (s', Raise e)
           end.
Definition lift {S A} (r : Result A) : M S A := fun s => (s, r).
Definition get_state {S} : M S S := fun s => (s, Ok s).
Definition modify {S} (f : S -> S) : M S unit := fun s => (f s, Ok tt).

Notation "x <- m ; k" := (bind m (fun x => k))
  (at level 20, m at level 100, k at level 200, only parsing).
Notation "' p <- m ; k" := (bind m (fun p => k))
  (at level 20, p pattern, m at level 100, k at level 200, only parsing).

(** [assert c] *)
Definition py_assert (c : bool) : Result unit :=
  if c then Ok tt else Raise AssertionError.

(** ** Strings *)

(** [s.startswith(p)] *)
Definition startswith (s p : string) : bool := String.prefix p s.

(** [s.endswith(p)] *)
Definition endswith (s p : string) : bool :=
  let n := String.length s in
  let m := String.length p in
  (m <=? n)%nat && String.eqb (substring (n - m) m s) p.

(** [s.split(sep)] for a one-character separator: the pieces between
    the occurrences of [sep], always at least one piece. *)
Fixpoint split_on (sep : ascii) (s : string) : list string :=
  match s with
  | EmptyString => [EmptyString]
  | String c rest =>
      if Ascii.eqb c sep then EmptyString :: split_on sep rest
      else match split_on sep rest with
           | [] => [String c EmptyString]
           | piece :: pieces => String c piece :: pieces
           end
  end.

(** Truth value of an optional string: [None] and [''] are false. *)
Definition str_truthy (o : option string) : bool :=
  match o with
  | Some s => negb (String.eqb s "")
  | None => false
  end.

(** ** Integers *)

(** [a // b] on Python integers: floor division, which is [Z.div], and a
    [ZeroDivisionError] for a zero divisor. *)
Definition floordiv (a b : Z) : Result Z :=
  if (b =? 0)%Z then Raise ZeroDivisionError else Ok (a / b)%Z.

(** [a or b] on an optional integer: [None] and [0] are false. *)
Definition or_else (a : option Z) (b : Z) : Z :=
  match a with
  | Some v => if (v =? 0)%Z then b else v
  | None => b
  end.

(** ** Element types and scalars *)

Inductive DType : Type :=
| float32 | float16 | bfloat16 | float64 | int64.

Definition dtype_eqb (a b : DType) : bool :=
  match a, b with
  | float32, float32 | float16, float16 | bfloat16, bfloat16
  | float64, float64 | int64, int64 => true
  | _, _ => false
  end.

(** The arithmetic of tensor elements, as the runtime provides it.  The
    structural results below hold for every implementation of this
    interface; the numeric ones are stated for the real numbers. *)
Class Scalar (F : Type) : Type := {
  f0 : F;
  f1 : F;
  fadd : F -> F -> F;
  fmul : F -> F -> F;
  fdiv : F -> F -> F;
  fsqrt : F -> F;
  fexp : F -> F;
  fmax : F -> F -> F;
  flog : F -> F;
  fltb : F -> F -> bool;
  fof_nat : nat -> F;               (* an int operand of a float operation *)
  flit : Z -> Z -> F;               (* the literal [m]e[k], as in 1e-12 *)
  fcast : DType -> DType -> F -> F  (* rounding of one element by [.to] *)
}.

(** Exact real arithmetic: the reading of the tensor operations under
    which the numeric invariants are stated. *)
#[export] Instance R_Scalar : Scalar R := {|
  f0 := 0%R;
  f1 := 1%R;
  fadd := Rplus;
  fmul := Rmult;
  fdiv := Rdiv;
  fsqrt := sqrt;
  fexp := exp;
  fmax := Rmax;
  flog := ln;
  fltb := fun a b => if Rlt_dec a b then true else false;
  fof_nat := INR;
  flit := fun m k => (IZR m * powerRZ 10 k)%R;
  fcast := fun _ _ x => x
|}.

(** ** Configuration records *)

(** [layers: Union[Tuple[int, int, int, int], int]] *)
Inductive Layers : Type :=
| LInt (n : Z)
| LTuple (stages : list Z).

(** [image_size: Union[Tuple[int, int], int]] *)
Inductive ImageSize : Type :=
| ISInt (n : Z)
| ISPair (h w : Z).

Section Configs.
Context {F : Type} {SF : Scalar F}.

Record CLIPVisionCfg : Type := {
  layers : Layers;
  width : Z;
  head_width : Z;
  mlp_ratio : F;
  patch_size : option Z;
  image_size : ImageSize;
  ls_init_value : option F;
  patch_dropout : F;
  input_patchnorm : bool;
  global_average_pool : bool;
  attentional_pool : bool;
  n_queries : Z;
  attn_pooler_heads : Z;
  output_tokens : bool;
  timm_model_name : option string;
  timm_model_pretrained : bool;
  timm_pool : string;
  timm_proj : string;
  timm_proj_bias : bool;
  timm_drop : F;
  timm_drop_path : option F
}.

Record CLIPTextCfg : Type := {
  context_length : Z;
  vocab_size : Z;
  t_width : Z;
  t_heads : Z;
  t_layers : Z;
  t_ls_init_value : option F;
  hf_model_name : option string;
  hf_tokenizer_name : option string;
  hf_model_pretrained : bool;
  t_proj : string;
  pooler_type : string;
  embed_cls : bool;
  pad_id : Z;
  t_output_tokens : bool;
  t_global_average_pool : bool;
  t_attentional_pool : bool;
  t_n_queries : Z;
  t_attn_pooler_heads : Z
}.

(** The dataclass defaults. *)
Definition CLIPVisionCfg_default : CLIPVisionCfg :=
  {| layers := LInt 12; width := 768; head_width := 64;
     mlp_ratio := flit 4 0; patch_size := Some 16%Z;
     image_size := ISInt 224; ls_init_value := None;
     patch_dropout := flit 0 0; input_patchnorm := false;
     global_average_pool := false; attentional_pool := false;
     n_queries := 256; attn_pooler_heads := 8; output_tokens := false;
     timm_model_name := None; timm_model_pretrained := false;
     timm_pool := "avg"; timm_proj := "linear"; timm_proj_bias := false;
     timm_drop := flit 0 0; timm_drop_path := None |}.

Definition CLIPTextCfg_default : CLIPTextCfg :=
  {| context_length := 77; vocab_size := 49408; t_width := 512;
     t_heads := 8; t_layers := 12; t_ls_init_value := None;
     hf_model_name := None; hf_tokenizer_name := None;
     hf_model_pretrained := true; t_proj := "mlp";
     pooler_type := "mean_pooler"; embed_cls := false; pad_id := 0;
     t_output_tokens := false; t_global_average_pool := false;
     t_attentional_pool := false; t_n_queries := 256;
     t_attn_pooler_heads := 8 |}.
End Configs.
Arguments CLIPVisionCfg F : clear implicits.
Arguments CLIPTextCfg F : clear implicits.

(** [get_cast_dtype(precision)] *)
Definition get_cast_dtype (precision : string) : option DType :=
  if String.eqb precision "bf16" then Some bfloat16
  else if String.eqb precision "fp16" then Some float16
  else None.

(** [get_input_dtype(precision)] *)
Definition get_input_dtype (precision : string) : option DType :=
  if String.eqb precision "bf16" || String.eqb precision "pure_bf16"
  then Some bfloat16
  else if String.eqb precision "fp16" || String.eqb precision "pure_fp16"
  then Some float16
  else None.

(** ** Towers

    The tower classes are defined in sibling modules.  A tower object is
    represented by the constructor call that creates it, with the
    arguments the factory passes; what happens inside those constructors
    is outside this file. *)

Inductive ActLayer : Type := QuickGELU | GELU.
Inductive NormLayer : Type := LayerNormFp32 | LayerNorm.

Section Towers.
Context {F : Type} {SF : Scalar F}.

Record TimmArgs : Type := {
  tm_name : option string;
  tm_pretrained : bool;
  tm_pool : string;
  tm_proj : string;
  tm_proj_bias : bool;
  tm_drop : F;
  tm_drop_path : option F;
  tm_patch_drop : option F;
  tm_embed_dim : Z;
  tm_image_size : ImageSize
}.

Record ResNetArgs : Type := {
  rn_layers : Z * Z * Z * Z;
  rn_output_dim : Z;
  rn_heads : Z;
  rn_image_size : ImageSize;
  rn_width : Z
}.

(** Arguments common to [VisionTransformer] and
    [SPAROVisionTransformer]. *)
Record ViTArgs : Type := {
  vt_image_size : ImageSize;
  vt_patch_size : option Z;
  vt_width : Z;
  vt_layers : Z;
  vt_heads : Z;
  vt_mlp_ratio : F;
  vt_ls_init_value : option F;
  vt_patch_dropout : F;
  vt_input_patchnorm : bool;
  vt_global_average_pool : bool;
  vt_attentional_pool : bool;
  vt_n_queries : Z;
  vt_attn_pooler_heads : Z;
  vt_output_tokens : bool;
  vt_output_dim : Z;
  vt_act_layer : ActLayer;
  vt_norm_layer : NormLayer
}.

(** The extra arguments of the two SPARO transformer variants. *)
Record SparoArgs : Type := {
  sp_L : option nat;
  sp_V : option nat;
  sp_attn_dim : option Z;
  sp_value_dim : option Z;
  sp_sparo_heads : option Z;
  sp_share_kv : bool
}.

Inductive VisualTower : Type :=
| TimmModel (a : TimmArgs)
| ModifiedResNet (a : ResNetArgs)
| VisionTransformer (a : ViTArgs) (use_codebook : bool)
| SPAROVisionTransformer (a : ViTArgs) (s : SparoArgs).

Record HFArgs : Type := {
  hf_name : option string;
  hf_output_dim : Z;
  hf_proj : string;
  hf_pooler_type : string;
  hf_pretrained : bool;
  hf_output_tokens : bool
}.

(** Arguments common to [TextTransformer] and [SPAROTextTransformer]. *)
Record TextArgs : Type := {
  tt_context_length : Z;
  tt_vocab_size : Z;
  tt_width : Z;
  tt_heads : Z;
  tt_layers : Z;
  tt_ls_init_value : option F;
  tt_output_dim : Z;
  tt_embed_cls : bool;
  tt_output_tokens : bool;
  tt_pad_id : Z;
  tt_act_layer : ActLayer;
  tt_norm_layer : NormLayer;
  tt_global_average_pool : bool;
  tt_attentional_pool : bool;
  tt_n_queries : Z;
  tt_attn_pooler_heads : Z
}.

Inductive TextTower : Type :=
| HFTextEncoder (a : HFArgs)
| TextTransformer (a : TextArgs) (use_codebook : bool)
| SPAROTextTransformer (a : TextArgs) (s : SparoArgs).

(** What a construction or a checkpoint load does to the world outside
    the returned value, in order: objects created, keys removed from
    the caller's dict, and the calls that overwrite parameters. *)
Inductive Event : Type :=
| EvVisual (v : VisualTower)
| EvText (t : TextTower)
| EvLinear (in_features out_features : Z)
| EvRandn (rows cols : Z)
| EvFDTQueryModel (for_visual : bool) (dim : Z)
| EvDictPop (key : string)
| EvConvertWeights (dtype : DType)
| EvLoadStateDict (keys : gset string)
| EvEval.

Definition Log : Type := list Event.

Definition emit (e : Event) : M Log unit := modify (fun l => l ++ [e]).

(** The keyword arguments the factories share. *)
Record TowerOpts : Type := {
  o_quick_gelu : bool;
  o_cast_dtype : option DType;
  o_use_sparo : bool;
  o_L : option nat;
  o_V : option nat;
  o_sparo_attn_dim : option Z;
  o_sparo_value_dim : option Z;
  o_sparo_heads : option Z;
  o_reduce_depth : option Z;
  o_share_kv : bool;
  o_use_codebook : bool
}.

Definition sparo_args (o : TowerOpts) : SparoArgs :=
  {| sp_L := o_L o; sp_V := o_V o;
     sp_attn_dim := o_sparo_attn_dim o; sp_value_dim := o_sparo_value_dim o;
     sp_sparo_heads := o_sparo_heads o; sp_share_kv := o_share_kv o |}.

(** [n - o_reduce_depth]; [o_reduce_depth] is declared [Optional[int]]. *)
Definition sub_depth (n : Z) (rd : option Z) : Result Z :=
  match rd with
  | Some d => Ok (n - d)%Z
  | None => Raise TypeError
  end.

(** [t[i]] on a tuple *)
Definition tuple_get (t : list Z) (i : nat) : Result Z :=
  match nth_error t i with
  | Some v => Ok v
  | None => Raise IndexError
  end.

Definition lp_norm_layer (cd : option DType) : NormLayer :=
  match cd with
  | Some float16 | Some bfloat16 => LayerNormFp32
  | _ => LayerNorm
  end.

Definition pick_act_layer (qg : bool) : ActLayer :=
  if qg then QuickGELU else GELU.

Definition vit_args (embed_dim : Z) (cfg : CLIPVisionCfg F)
    (depth heads : Z) (o : TowerOpts) : ViTArgs :=
  {| vt_image_size := image_size cfg;
     vt_patch_size := patch_size cfg;
     vt_width := width cfg;
     vt_layers := depth;
     vt_heads := heads;
     vt_mlp_ratio := mlp_ratio cfg;
     vt_ls_init_value := ls_init_value cfg;
     vt_patch_dropout := patch_dropout cfg;
     vt_input_patchnorm := input_patchnorm cfg;
     vt_global_average_pool := global_average_pool cfg;
     vt_attentional_pool := attentional_pool cfg;
     vt_n_queries := n_queries cfg;
     vt_attn_pooler_heads := attn_pooler_heads cfg;
     vt_output_tokens := output_tokens cfg;
     vt_output_dim := embed_dim;
     vt_act_layer := pick_act_layer (o_quick_gelu o);
     vt_norm_layer := lp_norm_layer (o_cast_dtype o) |}.

(** [_build_vision_tower]: first match wins among the named backbone,
    the residual backbone (tuple of layer counts) and the
    transformer. *)
Definition _build_vision_tower (embed_dim : Z) (vision_cfg : CLIPVisionCfg F)
    (o : TowerOpts) : M Log VisualTower :=
  if str_truthy (timm_model_name vision_cfg) then
    let visual := TimmModel
      {| tm_name := timm_model_name vision_cfg;
         tm_pretrained := timm_model_pretrained vision_cfg;
         tm_pool := timm_pool vision_cfg;
         tm_proj := timm_proj vision_cfg;
         tm_proj_bias := timm_proj_bias vision_cfg;
         tm_drop := timm_drop vision_cfg;
         tm_drop_path := timm_drop_path vision_cfg;
         tm_patch_drop :=
           if fltb f0 (patch_dropout vision_cfg)
           then Some (patch_dropout vision_cfg) else None;
         tm_embed_dim := embed_dim;
         tm_image_size := image_size vision_cfg |} in
    _ <- emit (EvVisual visual) ; ret visual
  else
    match layers vision_cfg with
    | LTuple stages =>
        _ <- lift (py_assert (negb (o_use_sparo o))) ;
        vision_heads <-
          lift (floordiv (width vision_cfg * 32) (head_width vision_cfg)) ;
        l0 <- lift (tuple_get stages 0) ;
        l1 <- lift (tuple_get stages 1) ;
        l2 <- lift (tuple_get stages 2) ;
        l2' <- lift (sub_depth l2 (o_reduce_depth o)) ;
        l3 <- lift (tuple_get stages 3) ;
        let visual := ModifiedResNet
          {| rn_layers := (l0, l1, l2', l3);
             rn_output_dim := embed_dim;
             rn_heads := vision_heads;
             rn_image_size := image_size vision_cfg;
             rn_width := width vision_cfg |} in
        _ <- emit (EvVisual visual) ; ret visual
    | LInt n =>
        vision_heads <-
          lift (floordiv (width vision_cfg) (head_width vision_cfg)) ;
        depth <- lift (sub_depth n (o_reduce_depth o)) ;
        let a := vit_args embed_dim vision_cfg depth vision_heads o in
        let visual :=
          if o_use_sparo o
          then SPAROVisionTransformer a (sparo_args o)
          else VisionTransformer a (o_use_codebook o) in
        _ <- emit (EvVisual visual) ; ret visual
    end.

Definition text_args (embed_dim : Z) (text_cfg : CLIPTextCfg F)
    (depth : Z) (o : TowerOpts) : TextArgs :=
  {| tt_context_length := context_length text_cfg;
     tt_vocab_size := vocab_size text_cfg;
     tt_width := t_width text_cfg;
     tt_heads := t_heads text_cfg;
     tt_layers := depth;
     tt_ls_init_value := t_ls_init_value text_cfg;
     tt_output_dim := embed_dim;
     tt_embed_cls := embed_cls text_cfg;
     tt_output_tokens := t_output_tokens text_cfg;
     tt_pad_id := pad_id text_cfg;
     tt_act_layer := pick_act_layer (o_quick_gelu o);
     tt_norm_layer := lp_norm_layer (o_cast_dtype o);
     tt_global_average_pool := t_global_average_pool text_cfg;
     tt_attentional_pool := t_attentional_pool text_cfg;
     tt_n_queries := t_n_queries text_cfg;
     tt_attn_pooler_heads := t_attn_pooler_heads text_cfg |}.

(** [_build_text_tower] *)
Definition _build_text_tower (embed_dim : Z) (text_cfg : CLIPTextCfg F)
    (o : TowerOpts) : M Log TextTower :=
  if str_truthy (hf_model_name text_cfg) then
    let text := HFTextEncoder
      {| hf_name := hf_model_name text_cfg;
         hf_output_dim := embed_dim;
         hf_proj := t_proj text_cfg;
         hf_pooler_type := pooler_type text_cfg;
         hf_pretrained := hf_model_pretrained text_cfg;
         hf_output_tokens := t_output_tokens text_cfg |} in
    _ <- emit (EvText text) ; ret text
  else
    depth <- lift (sub_depth (t_layers text_cfg) (o_reduce_depth o)) ;
    let a := text_args embed_dim text_cfg depth o in
    let text :=
      if o_use_sparo o
      then SPAROTextTransformer a (sparo_args o)
      else TextTransformer a (o_use_codebook o) in
    _ <- emit (EvText text) ; ret text.
End Towers.

(** ** The [CLIP] class: construction *)

Section CLIPInit.
Context {F : Type} {SF : Scalar F}.

(** The arguments of [CLIP.__init__]. *)
Record CLIPArgs : Type := {
  a_embed_dim : Z;
  a_vision_cfg : CLIPVisionCfg F;
  a_text_cfg : CLIPTextCfg F;
  a_quick_gelu : bool;
  a_cast_dtype : option DType;
  a_output_dict : bool;
  a_use_sparo : bool;
  a_sparo_attn_dim : option Z;
  a_sparo_value_dim : option Z;
  a_sparo_heads : option Z;
  a_L : option nat;
  a_V : option nat;
  a_reduce_depth : option Z;
  a_sparo_type : string;
  a_share_kv : bool;
  a_share_queries : bool;
  a_use_codebook : bool;
  a_num_codes : Z;
  a_bottleneck_dim : option Z
}.

(** The keyword defaults of [CLIP.__init__]. *)
Definition CLIPArgs_default (embed_dim : Z) (vision_cfg : CLIPVisionCfg F)
    (text_cfg : CLIPTextCfg F) (quick_gelu : bool)
    (cast_dtype : option DType) : CLIPArgs :=
  {| a_embed_dim := embed_dim; a_vision_cfg := vision_cfg;
     a_text_cfg := text_cfg; a_quick_gelu := quick_gelu;
     a_cast_dtype := cast_dtype; a_output_dict := false;
     a_use_sparo := false; a_sparo_attn_dim := None;
     a_sparo_value_dim := None; a_sparo_heads := None;
     a_L := None; a_V := None; a_reduce_depth := Some 0%Z;
     a_sparo_type := "cont:const"; a_share_kv := true;
     a_share_queries := false; a_use_codebook := false;
     a_num_codes := 16384; a_bottleneck_dim := None |}.

(** The attributes of a constructed model.  The submodules hoisted
    from the text tower ([transformer], [token_embedding],
    [positional_embedding], [ln_final], [text_projection] or
    [text_sparo], ...) stay reachable through [text_tower]; [q_emb_shared]
    records that the text tower's query embedding is the vision
    tower's parameter itself. *)
Record CLIP : Type := {
  embed_dim : Z;
  output_dict : bool;
  use_sparo : bool;
  L : option nat;
  V : option nat;
  sparo_type : string;
  use_codebook : bool;
  bottleneck_dim : option Z;
  model_V : option nat;
  visual : VisualTower (F := F);
  text_tower : TextTower (F := F);
  q_emb_shared : bool;
  space_dict : option (Z * Z);
  logit_scale : F;
  training : bool
}.

(** [V + 1] *)
Definition succ_opt (v : option nat) : Result (option nat) :=
  match v with
  | Some n => Ok (Some (S n))
  | None => Raise TypeError
  end.

(** The keyword arguments [CLIP.__init__] passes to both factories. *)
Definition tower_opts (a : CLIPArgs) (mV : option nat) : TowerOpts :=
  {| o_quick_gelu := a_quick_gelu a; o_cast_dtype := a_cast_dtype a;
     o_use_sparo := a_use_sparo a; o_L := a_L a; o_V := mV;
     o_sparo_attn_dim := a_sparo_attn_dim a;
     o_sparo_value_dim := a_sparo_value_dim a;
     o_sparo_heads := a_sparo_heads a;
     o_reduce_depth := a_reduce_depth a; o_share_kv := a_share_kv a;
     o_use_codebook := a_use_codebook a |}.

(** The attributes [CLIP.__init__] has set when it returns. *)
Definition mk_CLIP (a : CLIPArgs) (mV : option nat)
    (vis : VisualTower (F := F)) (txt : TextTower (F := F)) : CLIP :=
  {| embed_dim := a_embed_dim a;
     output_dict := a_output_dict a;
     use_sparo := a_use_sparo a;
     L := a_L a;
     V := a_V a;
     sparo_type := a_sparo_type a;
     use_codebook := a_use_codebook a;
     bottleneck_dim := a_bottleneck_dim a;
     model_V := mV;
     visual := vis;
     text_tower := txt;
     q_emb_shared := a_use_sparo a && a_share_queries a;
     space_dict :=
       if a_use_codebook a
       then Some (a_num_codes a,
                  or_else (a_bottleneck_dim a) (a_embed_dim a))
       else None;
     logit_scale := fmul f1 (flog (fdiv f1 (flit 7 (-2))));
     training := true |}.

(** [CLIP.__init__] *)
Definition CLIP_init (a : CLIPArgs) : M Log CLIP :=
  _ <- lift (if a_use_sparo a && a_use_codebook a
             then Raise (ValueError
                    "SPARO and codebook cannot be used together yet.")
             else Ok tt) ;
  mV <- lift (if negb (a_use_sparo a)
                  || negb (endswith (a_sparo_type a) "softmax")
              then Ok (a_V a)
              else succ_opt (a_V a)) ;
  let o := tower_opts a mV in
  let dim := or_else (a_bottleneck_dim a) (a_embed_dim a) in
  vis <- _build_vision_tower dim (a_vision_cfg a) o ;
  txt <- _build_text_tower dim (a_text_cfg a) o ;
  _ <- match a_bottleneck_dim a with
       | Some b =>
           _ <- emit (EvLinear b (a_embed_dim a)) ;
           emit (EvLinear b (a_embed_dim a))
       | None => ret tt
       end ;
  _ <- (if a_use_codebook a
        then _ <- emit (EvRandn (a_num_codes a) dim) ;
             _ <- emit (EvFDTQueryModel true dim) ;
             emit (EvFDTQueryModel false dim)
        else ret tt) ;
  ret (mk_CLIP a mV vis txt).
End CLIPInit.
Arguments CLIPArgs F : clear implicits.
Arguments CLIP F : clear implicits.

(** ** Tensors *)

Section Tensors.
Context {F : Type} {SF : Scalar F}.

(** A tensor: element type, shape and the elements in row-major
    order.  A tensor on the meta device has a shape and no storage. *)
Record Tensor : Type := {
  t_dtype : DType;
  t_shape : list nat;
  t_data : list F
}.

Definition numel_of (shape : list nat) : nat := fold_right Nat.mul 1%nat shape.
Definition numel (t : Tensor) : nat := numel_of (t_shape t).
Definition tensor_wf (t : Tensor) : Prop := length (t_data t) = numel t.

Definition meta_tensor (shape : list nat) : Tensor :=
  {| t_dtype := float32; t_shape := shape; t_data := [] |}.

(** [t.to(dtype)]: the tensor itself when it already has that type. *)
Definition to (d : DType) (t : Tensor) : Tensor :=
  if dtype_eqb (t_dtype t) d then t
  else {| t_dtype := d; t_shape := t_shape t;
          t_data := map (fcast (t_dtype t) d) (t_data t) |}.

(** [t.shape[0]], [t.shape[1]], [t.shape[-1]] *)
Definition shape_at (t : Tensor) (i : nat) : Result nat :=
  match nth_error (t_shape t) i with
  | Some n => Ok n
  | None => Raise IndexError
  end.

Definition shape_last (t : Tensor) : Result nat :=
  match t_shape t with
  | [] => Raise IndexError
  | d :: ds => Ok (List.last ds d)
  end.

(** [count] consecutive pieces of [size] elements each. *)
Fixpoint take_chunks (count size : nat) (l : list F) : list (list F) :=
  match count with
  | O => []
  | S k => firstn size l :: take_chunks k size (skipn size l)
  end.

(** *** Vectors: the reductions of the runtime along one axis *)

Definition f_eps : F := flit 1 (-12).

Definition vsum (v : list F) : F := fold_right fadd f0 v.

Definition sq (a : F) : F := fmul a a.

(** [torch.norm(v)]: the 2-norm. *)
Definition l2norm (v : list F) : F := fsqrt (vsum (map sq v)).

(** [F.softmax(v)] *)
Definition F_softmax (v : list F) : list F :=
  let e := map fexp v in
  let s := vsum e in
  map (fun a => fdiv a s) e.

(** [F.normalize(v)]: [v / max(norm(v), eps)] with [eps = 1e-12]. *)
Definition F_normalize (v : list F) : list F :=
  let d := fmax (l2norm v) f_eps in
  map (fun a => fdiv a d) v.

(** *** Matrices: one (L, V) block, a list of L rows *)

Definition Mat : Type := list (list F).

(** Sum over the rows, one result per column ([k] columns). *)
Definition colsum (k : nat) (m : Mat) : list F :=
  fold_right (zip_with fadd) (repeat f0 k) m.

(** [F.softmax(m, dim=-2)] *)
Definition softmax_dim2 (k : nat) (m : Mat) : Mat :=
  let e := map (map fexp) m in
  let s := colsum k e in
  map (fun r => zip_with fdiv r s) e.

(** [torch.norm(m, dim=-2)] *)
Definition norm_dim2 (k : nat) (m : Mat) : list F :=
  map fsqrt (colsum k (map (map sq) m)).

(** [F.normalize(m, dim=-2)] *)
Definition normalize_dim2 (k : nat) (m : Mat) : Mat :=
  let d := map (fun n => fmax n f_eps) (norm_dim2 k m) in
  map (fun r => zip_with fdiv r d) m.

(** Size of a broadcast axis: a size-1 axis stretches to the other. *)
Definition bcast_dim (a b : nat) : nat :=
  if (b =? 1)%nat then a else if (a =? 1)%nat then b else a.

(** One row of [a * b] with broadcasting along the last axis.  The
    operands met here have equal sizes or one of size 1. *)
Definition bcast_row (op : F -> F -> F) (r w : list F) : list F :=
  match w with
  | [c] => map (fun a => op a c) r
  | _ => match r with
         | [a] => map (fun c => op a c) w
         | _ => zip_with op r w
         end
  end.

(** *** Tensors of shape (..., L, V) *)

(** A tensor whose last two axes are the slot axis and the value axis:
    one matrix per position of the leading axes. *)
Record Slotted : Type := {
  s_dtype : DType;
  s_lead : list nat;
  s_rows : nat;
  s_cols : nat;
  s_mats : list Mat
}.

Definition smap (cols : nat) (f : Mat -> Mat) (x : Slotted) : Slotted :=
  {| s_dtype := s_dtype x; s_lead := s_lead x; s_rows := s_rows x;
     s_cols := cols; s_mats := map f (s_mats x) |}.

(** [x.view] with the last axis split into (L, V) *)
Definition view_slots (Lo Vo : option nat) (x : Tensor) : Result Slotted :=
  match Lo, Vo with
  | Some l, Some v =>
      let lead := removelast (t_shape x) in
      if (numel_of (lead ++ [l; v]) =? numel x)%nat then
        Ok {| s_dtype := t_dtype x; s_lead := lead;
              s_rows := l; s_cols := v;
              s_mats := map (take_chunks l v)
                            (take_chunks (numel_of lead) (l * v)
                                         (t_data x)) |}
      else Raise (RuntimeError "shape is invalid for input size")
  | _, _ => Raise TypeError
  end.

(** [out.view] with the last two axes merged into [-1], which cannot be inferred when
    a leading axis is empty. *)
Definition flatten_slots (x : Slotted) : Result Tensor :=
  if (numel_of (s_lead x) =? 0)%nat
  then Raise (RuntimeError "unspecified dimension is ambiguous")
  else Ok {| t_dtype := s_dtype x;
             t_shape := s_lead x ++ [(s_rows x * s_cols x)%nat];
             t_data := concat (concat (s_mats x)) |}.

(** [x[..., :1]] and [x[..., 1:]] *)
Definition first_channel (x : Slotted) : Slotted :=
  smap (Nat.min 1 (s_cols x)) (map (firstn 1)) x.
Definition drop_channel (x : Slotted) : Slotted :=
  smap (s_cols x - 1) (map (skipn 1)) x.

(** [a * b] and [a / b] with broadcasting along the last axis, the
    leading and slot axes being equal. *)
Definition bcast_last (op : F -> F -> F) (a b : Slotted) : Slotted :=
  {| s_dtype := s_dtype a; s_lead := s_lead a; s_rows := s_rows a;
     s_cols := bcast_dim (s_cols a) (s_cols b);
     s_mats := zip_with (zip_with (bcast_row op)) (s_mats a) (s_mats b) |}.

(** The weights of the two softmax schemes. *)
Definition sqrtsoftmax_weights (x : Slotted) : Slotted :=
  let c := first_channel x in
  smap (s_cols c) (fun m => map (map fsqrt) (softmax_dim2 (s_cols c) m)) c.

Definition softmax_weights (x : Slotted) : Slotted :=
  let c := first_channel x in
  smap (s_cols c)
       (fun m => normalize_dim2 (s_cols c) (softmax_dim2 (s_cols c) m)) c.

(** [torch.norm(n, dim=-1, keepdim=True) / full_norm], where
    [full_norm] is the norm of the whole block, of shape (..., 1, 1),
    taken on the view of [n] with its last two axes merged (the view
    [flatten_slots] checks). *)
Definition norm_weights (norm_in : Slotted) : Slotted :=
  smap 1 (fun m =>
            let full_norm := l2norm (concat m) in
            map (fun r => [fdiv (l2norm r) full_norm]) m) norm_in.

(** [torch.sqrt(torch.ones_like(x[..., :1]) / L)] *)
Definition const_weights (l : nat) (x : Slotted) : Slotted :=
  let c := first_channel x in
  smap (s_cols c)
       (map (map (fun _ => fsqrt (fdiv f1 (fof_nat l))))) c.

(** [rep_type, norm_type = sparo_type.split(':')] *)
Definition split_tag (tag : string) : Result (string * string) :=
  match split_on ":" tag with
  | [rep_type; norm_type] => Ok (rep_type, norm_type)
  | _ => Raise (ValueError "wrong number of values to unpack")
  end.

(** [CLIP._project_for_sparo] *)
Definition _project_for_sparo (self : CLIP F) (x : Tensor) : Result Slotted :=
  x <-- view_slots (L self) (model_V self) x ;
  ' (rep_type, norm_type) <-- split_tag (sparo_type self) ;
  ' (weights, x) <--
    (if String.eqb norm_type "sqrtsoftmax" then
       Ok (sqrtsoftmax_weights x, drop_channel x)
     else if String.eqb norm_type "softmax" then
       Ok (softmax_weights x, drop_channel x)
     else if String.eqb norm_type "norm" then
       norm_in <--
         (if String.eqb rep_type "cont" then Ok x
          else if String.eqb rep_type "sqrtsem" then
            Ok (smap (s_cols x)
                     (map (map (fun a => fexp (fdiv a (flit 2 0))))) x)
          else Raise NotImplementedError) ;
       _ <-- flatten_slots norm_in ;
       Ok (norm_weights norm_in, x)
     else if String.eqb norm_type "const" then
       l <-- match L self with
             | Some l => Ok l
             | None => Raise TypeError
             end ;
       Ok (const_weights l x, x)
     else Raise NotImplementedError) ;
  out_rep <--
    (if String.eqb rep_type "cont" then
       Ok (smap (s_cols x) (map F_normalize) x)
     else if String.eqb rep_type "sqrtsem" then
       Ok (smap (s_cols x) (map (fun r => map fsqrt (F_softmax r))) x)
     else if String.eqb rep_type "sem" then
       Ok (smap (s_cols x) (map (fun r => F_normalize (F_softmax r))) x)
     else Raise NotImplementedError) ;
  Ok (bcast_last fmul out_rep weights).

(** *** Shape operations of the runtime used outside the slot
    decomposition *)

(** Size inferred for the single [-1] of a [view] or [reshape] whose
    other sizes multiply to [known]. *)
Definition infer_dim (known : nat) (t : Tensor) : Result nat :=
  if (known =? 0)%nat then
    if (numel t =? 0)%nat
    then Raise (RuntimeError "unspecified dimension is ambiguous")
    else Raise (RuntimeError "shape is invalid for input size")
  else if (numel t mod known =? 0)%nat then Ok (numel t / known)%nat
  else Raise (RuntimeError "shape is invalid for input size").

(** [t.reshape] to the sizes [pre], [-1], [post]; the elements keep their row-major
    order. *)
Definition reshape_infer (pre post : list nat) (t : Tensor) : Result Tensor :=
  d <-- infer_dim (numel_of (pre ++ post)) t ;
  Ok {| t_dtype := t_dtype t; t_shape := pre ++ d :: post;
        t_data := t_data t |}.

(** Flat position of a multi-index, and back. *)
Fixpoint ravel (shape idx : list nat) : nat :=
  match shape, idx with
  | _ :: ds, i :: rest => (i * numel_of ds + ravel ds rest)%nat
  | _, _ => O
  end.

Fixpoint unravel (shape : list nat) (j : nat) : list nat :=
  match shape with
  | [] => []
  | _ :: ds => (j / numel_of ds)%nat :: unravel ds (j mod numel_of ds)%nat
  end.

Fixpoint index_of (a : nat) (l : list nat) : nat :=
  match l with
  | [] => O
  | b :: rest => if (a =? b)%nat then O else S (index_of a rest)
  end.

Definition is_perm (perm : list nat) (rank : nat) : bool :=
  (length perm =? rank)%nat
  && forallb (fun a => existsb (Nat.eqb a) perm) (seq 0 rank).

(** [t.permute] by [perm], elements laid out in the new row-major order. *)
Definition permute (perm : list nat) (t : Tensor) : Result Tensor :=
  let shape := t_shape t in
  if is_perm perm (length shape) then
    let new_shape := map (fun p => nth p shape O) perm in
    let src j :=
      let idx' := unravel new_shape j in
      ravel shape (map (fun axis => nth (index_of axis perm) idx' O)
                       (seq 0 (length shape))) in
    Ok {| t_dtype := t_dtype t; t_shape := new_shape;
          t_data := map (fun j => nth (src j) (t_data t) f0)
                        (seq 0 (numel_of new_shape)) |}
  else Raise (RuntimeError "permute: dims do not match the tensor").

(** [t[:k]] and [t[k:]] along the first axis *)
Definition slice_to (k : nat) (t : Tensor) : Result Tensor :=
  match t_shape t with
  | [] => Raise IndexError
  | n :: ds =>
      Ok {| t_dtype := t_dtype t; t_shape := Nat.min k n :: ds;
            t_data := firstn (Nat.min k n * numel_of ds) (t_data t) |}
  end.

Definition slice_from (k : nat) (t : Tensor) : Result Tensor :=
  match t_shape t with
  | [] => Raise IndexError
  | n :: ds =>
      Ok {| t_dtype := t_dtype t; t_shape := (n - k)%nat :: ds;
            t_data := skipn (Nat.min k n * numel_of ds) (t_data t) |}
  end.

(** [t[i]] *)
Definition select0 (i : nat) (t : Tensor) : Result Tensor :=
  match t_shape t with
  | [] => Raise IndexError
  | n :: ds =>
      if (i <? n)%nat then
        Ok {| t_dtype := t_dtype t; t_shape := ds;
              t_data := firstn (numel_of ds)
                               (skipn (i * numel_of ds) (t_data t)) |}
      else Raise IndexError
  end.

(** [len(t)] *)
Definition tensor_len (t : Tensor) : Result nat :=
  match t_shape t with
  | [] => Raise TypeError
  | n :: _ => Ok n
  end.

(** [torch.cat([a, b], dim=0)]: all sizes but the first must agree. *)
Definition cat0 (a b : Tensor) : Result Tensor :=
  match t_shape a, t_shape b with
  | n :: ds, m :: es =>
      if decide (ds = es) then
        Ok {| t_dtype := t_dtype a; t_shape := (n + m)%nat :: ds;
              t_data := t_data a ++ t_data b |}
      else Raise (RuntimeError "sizes of tensors must match")
  | _, _ => Raise (RuntimeError "zero-dimensional tensor cannot be concatenated")
  end.

(** [F.normalize(t, dim=-1)] *)
Definition normalize_last (t : Tensor) : Result Tensor :=
  d <-- shape_last t ;
  Ok {| t_dtype := t_dtype t; t_shape := t_shape t;
        t_data := concat (map F_normalize
                    (take_chunks (numel_of (removelast (t_shape t))) d
                                 (t_data t))) |}.

(** [t.view(-1, n)] *)
Definition view_rows (n : nat) (t : Tensor) : Result Tensor :=
  reshape_infer [] [n] t.
End Tensors.
Arguments Tensor F : clear implicits.
Arguments Slotted F : clear implicits.
Arguments Mat F : clear implicits.

(** ** Modules and their parameters *)

(** The classes [convert_weights_to_lp] tests with [isinstance]. *)
Inductive ModClass : Type :=
| Conv1d | Conv2d | Linear
| MultiheadAttention | Attention
| CLIPClass | TextTransformerClass | VisionTransformerClass
| OtherClass (name : string).

Definition modclass_eqb (a b : ModClass) : bool :=
  match a, b with
  | Conv1d, Conv1d | Conv2d, Conv2d | Linear, Linear
  | MultiheadAttention, MultiheadAttention | Attention, Attention
  | CLIPClass, CLIPClass | TextTransformerClass, TextTransformerClass
  | VisionTransformerClass, VisionTransformerClass => true
  | OtherClass n, OtherClass m => String.eqb n m
  | _, _ => false
  end.

(** The value of an attribute of a module: [None], a parameter (held in
    the store under its location, so that two attributes may name the
    same parameter), or some other object. *)
Inductive AttrVal : Type :=
| AttrNone
| AttrParam (loc : nat)
| AttrObject.

(** A module: the classes it is an instance of, its attributes, and its
    child modules in registration order. *)
#[local] Unset Elimination Schemes.
Inductive NNModule : Type :=
| Mod (classes : list ModClass) (attrs : gmap string AttrVal)
      (children : list NNModule).
#[local] Set Elimination Schemes.

Definition mod_classes (m : NNModule) : list ModClass :=
  match m with Mod c _ _ => c end.
Definition mod_attrs (m : NNModule) : gmap string AttrVal :=
  match m with Mod _ a _ => a end.
Definition mod_children (m : NNModule) : list NNModule :=
  match m with Mod _ _ ch => ch end.

(** [isinstance(l, classes)] *)
Definition isinstance (l : NNModule) (classes : list ModClass) : bool :=
  existsb (fun c => existsb (modclass_eqb c) (mod_classes l)) classes.

(** The parameters of a model, by location. *)
Abbreviation ParamStore F := (gmap nat (Tensor F)).

Section Converter.
Context {F : Type} {SF : Scalar F}.


(** [getattr(l, attr)] *)
Definition getattr (l : NNModule) (attr : string) : Result AttrVal :=
  match mod_attrs l !! attr with
  | Some v => Ok v
  | None => Raise (AttributeError attr)
  end.

(** [getattr(l, attr, None)] *)
Definition getattr_default (l : NNModule) (attr : string) : AttrVal :=
  match mod_attrs l !! attr with
  | Some v => v
  | None => AttrNone
  end.

(** [a.data = a.data.to(dtype)] for an attribute value that is not
    [None] *)
Definition convert_data (dtype : DType) (a : AttrVal) : M (ParamStore F) unit :=
  match a with
  | AttrParam p => modify (alter (to dtype) p)
  | _ => throw (AttributeError "data")
  end.

(** The same, guarded by [if a is not None]. *)
Definition convert_if_set (dtype : DType) (a : AttrVal) : M (ParamStore F) unit :=
  match a with
  | AttrNone => ret tt
  | _ => convert_data dtype a
  end.

Fixpoint for_each {A S} (f : A -> M S unit) (l : list A) : M S unit :=
  match l with
  | [] => ret tt
  | a :: rest => _ <- f a ; for_each f rest
  end.

Definition attention_attrs : list string :=
  map (fun s => String.append s "_proj_weight") ["in"; "q"; "k"; "v"]
  ++ ["in_proj_bias"; "bias_k"; "bias_v"].

(** The inner function [_convert_weights] of [convert_weights_to_lp]. *)
Definition _convert_weights (dtype : DType) (l : NNModule) : M (ParamStore F) unit :=
  _ <- (if isinstance l [Conv1d; Conv2d; Linear] then
          w <- lift (getattr l "weight") ;
          _ <- convert_data dtype w ;
          b <- lift (getattr l "bias") ;
          convert_if_set dtype b
        else ret tt) ;
  _ <- (if isinstance l [MultiheadAttention; Attention] then
          for_each (fun attr =>
                      tensor <- lift (getattr l attr) ;
                      convert_if_set dtype tensor)
                   attention_attrs
        else ret tt) ;
  _ <- (if isinstance l [CLIPClass; TextTransformerClass] then
          convert_if_set dtype (getattr_default l "text_projection")
        else ret tt) ;
  (if isinstance l [VisionTransformerClass] then
     convert_if_set dtype (getattr_default l "proj")
   else ret tt).

(** [module.apply(fn)]: the children first, then the module itself. *)
Fixpoint apply_fn (fn : NNModule -> M (ParamStore F) unit) (m : NNModule)
    : M (ParamStore F) unit :=
  match m with
  | Mod _ _ children =>
      _ <- (fix go (ch : list NNModule) : M (ParamStore F) unit :=
              match ch with
              | [] => ret tt
              | c :: rest => _ <- apply_fn fn c ; go rest
              end) children ;
      fn m
  end.

(** [convert_weights_to_lp(model, dtype)] *)
Definition convert_weights_to_lp (model : NNModule) (dtype : DType)
    : M (ParamStore F) unit :=
  apply_fn (_convert_weights dtype) model.

(** [convert_weights_to_fp16 = convert_weights_to_lp], called with the
    default [dtype=torch.float16]. *)
Definition convert_weights_to_fp16 (model : NNModule) : M (ParamStore F) unit :=
  convert_weights_to_lp model float16.
End Converter.

(** ** The runtime interface

    What the towers compute, how a constructed model registers its
    submodules, and the tensor functions this file only calls.  They
    are total here: an exception raised inside one of them is outside
    the model. *)

(** The [grid_size] attribute of a vision tower. *)
Inductive GridSize : Type :=
| GInt (n : nat)
| GPair (h w : nat).

(** Modelled from the spec: [to_2tuple], imported from [utils], is not
    part of the sources at hand.  Section 4.7 resizes ``to the target
    model's grid size'' and the caller reads two components from the
    result, so a pair is returned as it is and a single number stands
    for both components. *)
Definition to_2tuple (g : GridSize) : nat * nat :=
  match g with
  | GInt n => (n, n)
  | GPair h w => (h, w)
  end.

Section Forward.
Context {F : Type} {SF : Scalar F}.

(** What a vision tower returns: features, or the pair (out, attn) of
    the SPARO variants. *)
Inductive Features : Type :=
| FTensor (t : Tensor F)
| FPair (out attn : Tensor F).

(** What an encoder returns. *)
Inductive Encoded : Type :=
| EncFeatures (f : Features)
| EncSparo (out : Slotted F)
| EncSparoAttn (out : Slotted F) (attn : Tensor F).

Class Runtime (Tokens : Type) : Type := {
  (* self.visual(image) *)
  visual_forward : VisualTower (F := F) -> Tensor F -> Features;
  (* self.img_query_model(features, self.space_dict) *)
  img_query_model : CLIP F -> Features -> Features;
  (* self.vision_bottleproj(features) *)
  vision_bottleproj : CLIP F -> Features -> Features;
  (* self.transformer.get_cast_dtype() *)
  transformer_cast_dtype : TextTower (F := F) -> DType;
  (* self.token_embedding(text) *)
  token_embedding : TextTower (F := F) -> Tokens -> Tensor F;
  (* self.positional_embedding *)
  positional_embedding : TextTower (F := F) -> Tensor F;
  (* x + y *)
  tensor_add : Tensor F -> Tensor F -> Tensor F;
  (* self.transformer(x, attn_mask=self.attn_mask) *)
  transformer : TextTower (F := F) -> Tensor F -> Tensor F;
  (* text.argmax(dim=-1) *)
  argmax_last : Tokens -> Tensor F;
  (* self.text_attn_pool, None when the tower has no attentional pool *)
  text_attn_pool :
    TextTower (F := F) -> option (Tensor F -> Tensor F -> Tensor F);
  (* self.text_global_average_pool *)
  text_global_average_pool : TextTower (F := F) -> bool;
  (* self.ln_final(x) *)
  ln_final : TextTower (F := F) -> Tensor F -> Tensor F;
  (* x.mean(dim=1) *)
  mean_dim1 : Tensor F -> Tensor F;
  (* x[:, 0] *)
  select_first_token : Tensor F -> Tensor F;
  (* x[torch.arange(x.shape[0]), idx] *)
  select_at : Tensor F -> Tensor F -> Tensor F;
  (* x @ self.text_projection *)
  matmul_text_projection : TextTower (F := F) -> Tensor F -> Tensor F;
  (* self.txt_query_model(x, self.space_dict, eos_pos=idx) *)
  txt_query_model : CLIP F -> Tensor F -> Tensor F -> Tensor F;
  (* self.text_bottleproj(x) *)
  text_bottleproj : CLIP F -> Tensor F -> Tensor F;
  (* self.text_sparo(x, idx) *)
  text_sparo :
    TextTower (F := F) -> Tensor F -> Tensor F -> Tensor F * Tensor F;
  (* the module tree model.apply walks *)
  modules : CLIP F -> NNModule;
  (* model.load_state_dict(state_dict) *)
  load_state_dict :
    CLIP F -> gmap string (Tensor F) -> M (ParamStore F) unit;
  (* model.visual.grid_size, None when the tower has no such attribute *)
  grid_size_attr : VisualTower (F := F) -> option GridSize;
  (* F.interpolate(x, size=, mode=, antialias=, align_corners=) *)
  F_interpolate :
    Tensor F -> nat * nat -> string -> bool -> bool -> Tensor F
}.

Context {Tokens : Type} {RT : Runtime Tokens}.

(** [out, attn = features] *)
Definition unpack_pair (features : Features) : Result (Tensor F * Tensor F) :=
  match features with
  | FPair out attn => Ok (out, attn)
  | FTensor t =>
      n <-- tensor_len t ;
      if (n =? 2)%nat then
        out <-- select0 0 t ;
        attn <-- select0 1 t ;
        Ok (out, attn)
      else Raise (ValueError "wrong number of values to unpack")
  end.

(** [F.normalize(features, dim=-1)] *)
Definition normalize_features (features : Features) : Result Features :=
  match features with
  | FTensor t => t' <-- normalize_last t ; Ok (FTensor t')
  | FPair _ _ => Raise (AttributeError "norm")
  end.

(** The tail shared by the two encoders on the structured path. *)
Definition return_projected (out : Slotted F) (attn : Tensor F)
    (return_sparo return_attn : bool) : Result Encoded :=
  if return_sparo then
    if return_attn then Ok (EncSparoAttn out attn) else Ok (EncSparo out)
  else
    flat <-- flatten_slots out ;
    Ok (EncFeatures (FTensor flat)).

(** [CLIP.encode_image] *)
Definition encode_image (self : CLIP F) (image : Tensor F)
    (normalize return_sparo return_attn : bool) : Result Encoded :=
  let features := visual_forward (visual self) image in
  if negb (use_sparo self) then
    let features :=
      if use_codebook self then img_query_model self features
      else features in
    let features :=
      match bottleneck_dim self with
      | Some _ => vision_bottleproj self features
      | None => features
      end in
    if normalize then
      f <-- normalize_features features ; Ok (EncFeatures f)
    else Ok (EncFeatures features)
  else
    _ <-- py_assert normalize ;
    ' (out, attn) <-- unpack_pair features ;
    out <-- _project_for_sparo self out ;
    return_projected out attn return_sparo return_attn.

(** [self.L * self.model_V] *)
Definition slots_times_values (self : CLIP F) : Result nat :=
  match L self, model_V self with
  | Some l, Some v => Ok (l * v)%nat
  | _, _ => Raise TypeError
  end.

(** The first two statements of [encode_text]: the token embedding
    cast to the compute type, plus the positional embedding. *)
Definition embed_text (self : CLIP F) (text : Tokens) : Tensor F :=
  let tower := text_tower self in
  let cast_dtype := transformer_cast_dtype tower in
  let x := to cast_dtype (token_embedding tower text) in
  tensor_add x (to cast_dtype (positional_embedding tower)).

(** [CLIP.encode_text] *)
Definition encode_text (self : CLIP F) (text : Tokens)
    (normalize return_sparo return_attn : bool) : Result Encoded :=
  let tower := text_tower self in
  let x := embed_text self text in
  x <-- permute [1; 0; 2]%nat x ;
  let x := transformer tower x in
  x <-- permute [1; 0; 2]%nat x ;
  let x :=
    if negb (use_codebook self) then
      let x :=
        match text_attn_pool tower with
        | Some pool => pool x (argmax_last text)
        | None => x
        end in
      ln_final tower x
    else x in
  if negb (use_sparo self) then
    x <-- (if negb (use_codebook self) then
             x <-- match text_attn_pool tower with
                   | Some _ =>
                       if text_global_average_pool tower
                       then Ok (mean_dim1 x)
                       else Ok (select_first_token x)
                   | None =>
                       if text_global_average_pool tower
                       then Raise NotImplementedError
                       else Ok (select_at x (argmax_last text))
                   end ;
             Ok (matmul_text_projection tower x)
           else Ok (txt_query_model self x (argmax_last text))) ;
    let x :=
      match bottleneck_dim self with
      | Some _ => text_bottleproj self x
      | None => x
      end in
    if normalize then
      x' <-- normalize_last x ; Ok (EncFeatures (FTensor x'))
    else Ok (EncFeatures (FTensor x))
  else
    _ <-- py_assert normalize ;
    let '(out, attn) := text_sparo tower x (argmax_last text) in
    n <-- slots_times_values self ;
    out <-- view_rows n out ;
    out <-- _project_for_sparo self out ;
    return_projected out attn return_sparo return_attn.

(** [model.eval()] *)
Definition eval (self : CLIP F) : CLIP F :=
  {| embed_dim := embed_dim self; output_dict := output_dict self;
     use_sparo := use_sparo self; L := L self; V := V self;
     sparo_type := sparo_type self; use_codebook := use_codebook self;
     bottleneck_dim := bottleneck_dim self; model_V := model_V self;
     visual := visual self; text_tower := text_tower self;
     q_emb_shared := q_emb_shared self; space_dict := space_dict self;
     logit_scale := logit_scale self; training := false |}.
End Forward.
Arguments Features F : clear implicits.
Arguments Encoded F : clear implicits.

(** ** Legacy checkpoints *)

(** [round(n ** 0.5)] for an integer [n]: the integer nearest to the
    square root (a tie cannot occur); a negative [n] has a complex
    power, which [round] rejects.  The float power is read as exact,
    which it is on the perfect squares and far below 2^52. *)
Definition round_sqrt (n : Z) : Result Z :=
  if (n <? 0)%Z then Raise TypeError
  else let s := Z.sqrt n in
       Ok (if (n - s * s <=? s)%Z then s else s + 1)%Z.

Section Checkpoints.
Context {F : Type} {SF : Scalar F} {Tokens : Type} {RT : Runtime (F := F) Tokens}.

(** A state dict: parameter paths to tensors. *)
Local Abbreviation StateDict := (gmap string (Tensor F)).

(** [state_dict.keys()] *)
Definition keys (state_dict : StateDict) : list string :=
  (map_to_list state_dict).*1.

(** [state_dict[k]] *)
Definition sd_get (state_dict : StateDict) (k : string) : Result (Tensor F) :=
  match state_dict !! k with
  | Some t => Ok t
  | None => Raise (KeyError k)
  end.

(** [k.split('.')[2]] *)
Definition third_component (k : string) : Result string :=
  match nth_error (split_on "." k) 2 with
  | Some c => Ok c
  | None => Raise IndexError
  end.

Fixpoint collect {A B} (f : A -> Result B) (l : list A) : Result (list B) :=
  match l with
  | [] => Ok []
  | a :: rest => b <-- f a ; bs <-- collect f rest ; Ok (b :: bs)
  end.

(** [len(set(k.split('.')[2] for k in state_dict if k.startswith(p)))] *)
Definition count_blocks (state_dict : StateDict) (p : string) : Result nat :=
  cs <-- collect third_component
           (List.filter (fun k => startswith k p) (keys state_dict)) ;
  Ok (size (list_to_set cs : gset string)).

Definition is_vit_attn_key (k : string) : bool :=
  startswith k "visual." && endswith k ".attn.in_proj_weight".

(** The vision half of the shape inference: layers, width, patch size
    and image size. *)
Definition infer_vision (state_dict : StateDict)
    : Result (Layers * Z * option Z * Z) :=
  let vit := bool_decide (is_Some (state_dict !! "visual.proj")) in
  if vit then
    conv1 <-- sd_get state_dict "visual.conv1.weight" ;
    vision_width <-- shape_at conv1 0 ;
    let vision_layers :=
      length (List.filter is_vit_attn_key (keys state_dict)) in
    conv1 <-- sd_get state_dict "visual.conv1.weight" ;
    vision_patch_size <-- shape_last conv1 ;
    pos <-- sd_get state_dict "visual.positional_embedding" ;
    rows <-- shape_at pos 0 ;
    grid_size <-- round_sqrt (Z.of_nat rows - 1) ;
    let image_size := (Z.of_nat vision_patch_size * grid_size)%Z in
    Ok (LInt (Z.of_nat vision_layers), Z.of_nat vision_width,
        Some (Z.of_nat vision_patch_size), image_size)
  else
    counts <-- collect (count_blocks state_dict)
                 ["visual.layer1"; "visual.layer2";
                  "visual.layer3"; "visual.layer4"] ;
    let vision_layers := LTuple (map Z.of_nat counts) in
    conv1 <-- sd_get state_dict "visual.layer1.0.conv1.weight" ;
    vision_width <-- shape_at conv1 0 ;
    pos <-- sd_get state_dict "visual.attnpool.positional_embedding" ;
    rows <-- shape_at pos 0 ;
    output_width <-- round_sqrt (Z.of_nat rows - 1) ;
    pos <-- sd_get state_dict "visual.attnpool.positional_embedding" ;
    rows <-- shape_at pos 0 ;
    _ <-- py_assert (output_width ^ 2 + 1 =? Z.of_nat rows)%Z ;
    let image_size := (output_width * 32)%Z in
    Ok (vision_layers, Z.of_nat vision_width, None, image_size).

(** The text half: embed_dim, context_length, vocab_size, width,
    heads and layers. *)
Definition infer_text (state_dict : StateDict)
    : Result (Z * Z * Z * Z * Z * Z) :=
  proj <-- sd_get state_dict "text_projection" ;
  embed_dim <-- shape_at proj 1 ;
  pos <-- sd_get state_dict "positional_embedding" ;
  context_length <-- shape_at pos 0 ;
  tok <-- sd_get state_dict "token_embedding.weight" ;
  vocab_size <-- shape_at tok 0 ;
  ln <-- sd_get state_dict "ln_final.weight" ;
  transformer_width <-- shape_at ln 0 ;
  transformer_heads <-- floordiv (Z.of_nat transformer_width) 64 ;
  transformer_layers <-- count_blocks state_dict "transformer.resblocks" ;
  Ok (Z.of_nat embed_dim, Z.of_nat context_length, Z.of_nat vocab_size,
      Z.of_nat transformer_width, transformer_heads,
      Z.of_nat transformer_layers).

(** [CLIPVisionCfg(layers=, width=, patch_size=, image_size=)] *)
Definition vision_cfg_of (vision_layers : Layers) (vision_width : Z)
    (vision_patch_size : option Z) (image_sz : Z) : CLIPVisionCfg F :=
  let d := CLIPVisionCfg_default in
  {| layers := vision_layers; width := vision_width;
     head_width := head_width d; mlp_ratio := mlp_ratio d;
     patch_size := vision_patch_size; image_size := ISInt image_sz;
     ls_init_value := ls_init_value d; patch_dropout := patch_dropout d;
     input_patchnorm := input_patchnorm d;
     global_average_pool := global_average_pool d;
     attentional_pool := attentional_pool d; n_queries := n_queries d;
     attn_pooler_heads := attn_pooler_heads d;
     output_tokens := output_tokens d;
     timm_model_name := timm_model_name d;
     timm_model_pretrained := timm_model_pretrained d;
     timm_pool := timm_pool d; timm_proj := timm_proj d;
     timm_proj_bias := timm_proj_bias d; timm_drop := timm_drop d;
     timm_drop_path := timm_drop_path d |}.

(** [CLIPTextCfg(context_length=, vocab_size=, width=, heads=, layers=)] *)
Definition text_cfg_of (ctx vocab w heads lyrs : Z) : CLIPTextCfg F :=
  let d := CLIPTextCfg_default in
  {| context_length := ctx; vocab_size := vocab; t_width := w;
     t_heads := heads; t_layers := lyrs;
     t_ls_init_value := t_ls_init_value d;
     hf_model_name := hf_model_name d;
     hf_tokenizer_name := hf_tokenizer_name d;
     hf_model_pretrained := hf_model_pretrained d; t_proj := t_proj d;
     pooler_type := pooler_type d; embed_cls := embed_cls d;
     pad_id := pad_id d; t_output_tokens := t_output_tokens d;
     t_global_average_pool := t_global_average_pool d;
     t_attentional_pool := t_attentional_pool d;
     t_n_queries := t_n_queries d;
     t_attn_pooler_heads := t_attn_pooler_heads d |}.

(** What a checkpoint load works on: the caller's dict, the parameters
    of the model, and the record of effects. *)
Record World : Type := {
  w_dict : StateDict;
  w_params : ParamStore F;
  w_log : Log (F := F)
}.

Definition on_dict {A} (m : M StateDict A) : M World A :=
  fun w => let '(d, r) := m (w_dict w) in
           ({| w_dict := d; w_params := w_params w; w_log := w_log w |}, r).
Definition on_params {A} (m : M (ParamStore F) A) : M World A :=
  fun w => let '(p, r) := m (w_params w) in
           ({| w_dict := w_dict w; w_params := p; w_log := w_log w |}, r).
Definition on_log {A} (m : M Log A) : M World A :=
  fun w => let '(l, r) := m (w_log w) in
           ({| w_dict := w_dict w; w_params := w_params w; w_log := l |}, r).

(** [state_dict.pop(key, None)] *)
Definition dict_pop (key : string) : M World unit :=
  _ <- on_log (emit (EvDictPop key)) ;
  on_dict (modify (delete key)).

Definition metadata_keys : list string :=
  ["input_resolution"; "context_length"; "vocab_size"].

(** [build_model_from_openai_state_dict]; the dict is the [w_dict] of
    the world. *)
Definition build_model_from_openai_state_dict (quick_gelu : bool)
    (cast_dtype : option DType) : M World (CLIP F) :=
  state_dict <- on_dict get_state ;
  ' (vision_layers, vision_width, vision_patch_size, image_sz) <-
    lift (infer_vision state_dict) ;
  ' (embed_dim, ctx, vocab, transformer_width, transformer_heads,
     transformer_layers) <- lift (infer_text state_dict) ;
  let vision_cfg :=
    vision_cfg_of vision_layers vision_width vision_patch_size image_sz in
  let text_cfg :=
    text_cfg_of ctx vocab transformer_width transformer_heads
                transformer_layers in
  model <- on_log (CLIP_init
             (CLIPArgs_default embed_dim vision_cfg text_cfg
                               quick_gelu cast_dtype)) ;
  _ <- for_each dict_pop metadata_keys ;
  _ <- on_log (emit (EvConvertWeights float16)) ;
  _ <- on_params (convert_weights_to_fp16 (modules model)) ;
  state_dict <- on_dict get_state ;
  _ <- on_log (emit (EvLoadStateDict (dom state_dict))) ;
  _ <- on_params (load_state_dict model state_dict) ;
  _ <- on_log (emit EvEval) ;
  ret (eval model).

(** [resize_pos_embed(state_dict, model, interpolation, antialias)] *)
Definition resize_pos_embed (model : CLIP F) (interpolation : string)
    (antialias : bool) : M StateDict unit :=
  state_dict <- get_state ;
  match state_dict !! "visual.positional_embedding",
        grid_size_attr (visual model) with
  | Some old_pos_embed, Some g =>
      let grid_size := to_2tuple g in
      let extra_tokens := 1%nat in
      let new_seq_len := (fst grid_size * snd grid_size + extra_tokens)%nat in
      rows <- lift (shape_at old_pos_embed 0) ;
      if (new_seq_len =? rows)%nat then ret tt
      else
        pos_emb_tok <- lift (slice_to extra_tokens old_pos_embed) ;
        pos_emb_img <- lift (slice_from extra_tokens old_pos_embed) ;
        n <- lift (tensor_len pos_emb_img) ;
        let old_grid_size := to_2tuple (GInt (Nat.sqrt n)) in
        pos_emb_img <- lift (reshape_infer
                               [1%nat; fst old_grid_size; snd old_grid_size]
                               [] pos_emb_img) ;
        pos_emb_img <- lift (permute [0; 3; 1; 2]%nat pos_emb_img) ;
        let pos_emb_img :=
          F_interpolate pos_emb_img grid_size interpolation antialias false in
        pos_emb_img <- lift (permute [0; 2; 3; 1]%nat pos_emb_img) ;
        pos_emb_img <- lift (reshape_infer
                               [1%nat; (fst grid_size * snd grid_size)%nat]
                               [] pos_emb_img) ;
        pos_emb_img <- lift (select0 0 pos_emb_img) ;
        new_pos_embed <- lift (cat0 pos_emb_tok pos_emb_img) ;
        modify (insert "visual.positional_embedding" new_pos_embed)
  | _, _ => ret tt
  end.
End Checkpoints.
Arguments World F : clear implicits.

(** ** Notions used in the statements *)

Section Statements.
Context {F : Type} {SF : Scalar F}.

(** The constructor arguments of a transformer vision tower. *)
Definition tower_vit_args (v : VisualTower (F := F)) : option ViTArgs :=
  match v with
  | VisionTransformer a _ | SPAROVisionTransformer a _ => Some a
  | _ => None
  end.

(** Converting the parameters at the locations [ps], in order. *)
Definition convert_at (d : DType) (ps : list nat) (s : (ParamStore F))
    : (ParamStore F) :=
  fold_left (fun s p => alter (to d) p s) ps s.

(** A computation on the parameter store that converts the parameters
    at a fixed list of locations and whose outcome does not depend on
    the store. *)
Definition converts (d : DType) {A} (m : M (ParamStore F) A) : Prop :=
  exists ps r, forall s, m s = (convert_at d ps s, r).

(** A computation on the log that only appends to it. *)
Definition appends {A} (m : M (Log (F := F)) A) : Prop :=
  forall l l' r, m l = (l', r) -> exists pre, l' = l ++ pre.
End Statements.

Section SlotStatements.
Context {F : Type} {SF : Scalar F}.

(** Section 4.4 in its own words: the normalization of one slot under
    a representation mode, ``cont'' being the L2 normalization and
    ``sem'' the L2 normalization of a softmax. *)
Definition spec_slot_normalization (rep : string) (slot : list F) : list F :=
  if String.eqb rep "cont" then F_normalize slot
  else F_normalize (F_softmax slot).

(** The round trip of the spec for the constant weighting: the vector
    cut into its slots of [v] values, each slot normalized and scaled
    by [sqrt(1/l)], the slots put back one after the other. *)
Definition spec_const_roundtrip (rep : string) (l v : nat) (x : Tensor F)
    : Tensor F :=
  let scale := fsqrt (fdiv f1 (fof_nat l)) in
  let slots :=
    take_chunks (numel_of (removelast (t_shape x)) * l) v (t_data x) in
  {| t_dtype := t_dtype x; t_shape := t_shape x;
     t_data := concat (map (fun slot =>
                              map (fun a => fmul a scale)
                                  (spec_slot_normalization rep slot))
                           slots) |}.

(** A vector laid out as a matrix of one column. *)
Definition column (v : list F) : Mat F := map (fun a => [a]) v.
End SlotStatements.

(** ** Concrete objects for the examples *)

(** A runtime that tracks shapes only: every operation returns a tensor
    of zeros of the shape the real operation returns.  The module tree
    of a model is a single [CLIP] module with no parameters of its own,
    and [load_state_dict] accepts the dict it is given. *)
Section ShapeRuntime.
Context {F : Type} {SF : Scalar F}.

Definition zeros (shape : list nat) : Tensor F :=
  {| t_dtype := float32; t_shape := shape;
     t_data := repeat f0 (numel_of shape) |}.

Definition vit_grid (a : ViTArgs (F := F)) : option GridSize :=
  match vt_image_size a, vt_patch_size a with
  | ISInt n, Some p => Some (GPair (Z.to_nat (n / p)) (Z.to_nat (n / p)))
  | ISPair h w, Some p => Some (GPair (Z.to_nat (h / p)) (Z.to_nat (w / p)))
  | _, None => None
  end.

#[export] Instance shape_runtime : Runtime (F := F) (list (list Z)) := {|
  visual_forward := fun _ image =>
    FTensor (zeros [hd O (t_shape image); 512%nat]);
  img_query_model := fun _ f => f;
  vision_bottleproj := fun _ f => f;
  transformer_cast_dtype := fun _ => float32;
  token_embedding := fun _ text => zeros [length text; 77%nat; 512%nat];
  positional_embedding := fun _ => zeros [77%nat; 512%nat];
  tensor_add := fun x _ => x;
  transformer := fun _ x => x;
  argmax_last := fun text => zeros [length text];
  text_attn_pool := fun _ => None;
  text_global_average_pool := fun _ => false;
  ln_final := fun _ x => x;
  mean_dim1 := fun x => zeros [hd O (t_shape x); 512%nat];
  select_first_token := fun x => zeros [hd O (t_shape x); 512%nat];
  select_at := fun x _ => zeros [hd O (t_shape x); 512%nat];
  matmul_text_projection := fun _ x => x;
  txt_query_model := fun _ x _ => x;
  text_bottleproj := fun _ x => x;
  text_sparo := fun _ x _ =>
    (zeros [hd O (t_shape x); 512%nat], zeros [hd O (t_shape x); 77%nat]);
  modules := fun _ => Mod [CLIPClass] (∅ : gmap string AttrVal) [];
  load_state_dict := fun _ _ => ret tt;
  grid_size_attr := fun v =>
    match v with
    | VisionTransformer a _ | SPAROVisionTransformer a _ => vit_grid a
    | _ => None
    end;
  F_interpolate := fun x size _ _ _ =>
    match t_shape x with
    | [n; c; _; _] => zeros [n; c; fst size; snd size]
    | _ => x
    end
|}.
End ShapeRuntime.

Section Examples.
Context {F : Type} {SF : Scalar F}.

(** A structured-representation model on the default configurations,
    with [l] slots of [v] values and the given mode tag. *)
Definition example_sparo_args (tag : string) (l v : nat) : CLIPArgs F :=
  {| a_embed_dim := 512; a_vision_cfg := CLIPVisionCfg_default;
     a_text_cfg := CLIPTextCfg_default; a_quick_gelu := false;
     a_cast_dtype := None; a_output_dict := false;
     a_use_sparo := true; a_sparo_attn_dim := None;
     a_sparo_value_dim := None; a_sparo_heads := None;
     a_L := Some l; a_V := Some v; a_reduce_depth := Some 0%Z;
     a_sparo_type := tag; a_share_kv := true;
     a_share_queries := false; a_use_codebook := false;
     a_num_codes := 16384; a_bottleneck_dim := None |}.

Definition example_sparo_model (tag : string) (l v : nat) : CLIP F :=
  let a := example_sparo_args tag l v in
  let mV := if endswith tag "softmax" then Some (S v) else Some v in
  let o := tower_opts a mV in
  mk_CLIP a mV
    (SPAROVisionTransformer
       (vit_args 512 CLIPVisionCfg_default 12 12 o) (sparo_args o))
    (SPAROTextTransformer
       (text_args 512 CLIPTextCfg_default 12 o) (sparo_args o)).

(** The same request with the codebook switched on as well. *)
Definition example_conflict_args : CLIPArgs F :=
  {| a_embed_dim := 512; a_vision_cfg := CLIPVisionCfg_default;
     a_text_cfg := CLIPTextCfg_default; a_quick_gelu := false;
     a_cast_dtype := None; a_output_dict := false;
     a_use_sparo := true; a_sparo_attn_dim := None;
     a_sparo_value_dim := None; a_sparo_heads := None;
     a_L := Some 4%nat; a_V := Some 2%nat; a_reduce_depth := Some 0%Z;
     a_sparo_type := "cont:const"; a_share_kv := true;
     a_share_queries := false; a_use_codebook := true;
     a_num_codes := 16384; a_bottleneck_dim := None |}.

(** A plain transformer model for images of the given size and patch
    size. *)
Definition example_vit_model (image_sz patch : Z) : CLIP F :=
  let cfg := vision_cfg_of (LInt 12) 768 (Some patch) image_sz in
  let a := CLIPArgs_default 512 cfg CLIPTextCfg_default false None in
  let o := tower_opts a None in
  mk_CLIP a None
    (VisionTransformer (vit_args 512 cfg 12 12 o) false)
    (TextTransformer (text_args 512 CLIPTextCfg_default 12 o) false).

(** The options of a default construction. *)
Definition example_opts : TowerOpts :=
  tower_opts (CLIPArgs_default 512 CLIPVisionCfg_default
                CLIPTextCfg_default false None) None.

(** A vector of the eight values 1, ..., 8. *)
Definition example_vector : Tensor F :=
  {| t_dtype := float32; t_shape := [8%nat];
     t_data := map fof_nat [1; 2; 3; 4; 5; 6; 7; 8]%nat |}.

(** A position table for a 2 x 2 grid with two channels: five rows. *)
Definition example_table : Tensor F :=
  {| t_dtype := float32; t_shape := [5; 2]%nat;
     t_data := map fof_nat (seq 0 10) |}.

(** A table of one class-token row and five grid rows: the grid is
    not square. *)
Definition example_odd_table : Tensor F :=
  {| t_dtype := float32; t_shape := [6; 3]%nat;
     t_data := map fof_nat (seq 0 18) |}.

Definition vit_attn_key (i : string) : string :=
  String.append "visual.transformer.resblocks."
                (String.append i ".attn.in_proj_weight").

(** The shapes of the export of the base transformer model with 16 x
    16 patches, one text block kept, with the three metadata
    entries. *)
Definition example_state_dict : gmap string (Tensor F) :=
  list_to_map
    ([("input_resolution", meta_tensor []);
      ("context_length", meta_tensor []);
      ("vocab_size", meta_tensor []);
      ("visual.proj", meta_tensor [768; 512]%nat);
      ("visual.conv1.weight", meta_tensor [768; 3; 16; 16]%nat);
      ("visual.positional_embedding", meta_tensor [197; 768]%nat);
      ("text_projection", meta_tensor [512; 512]%nat);
      ("positional_embedding", meta_tensor [77; 512]%nat);
      ("token_embedding.weight", meta_tensor [49408; 512]%nat);
      ("ln_final.weight", meta_tensor [512%nat]);
      ("transformer.resblocks.0.attn.in_proj_weight",
       meta_tensor [1536; 512]%nat)]
     ++ map (fun i => (vit_attn_key i, meta_tensor [2304; 768]%nat))
            ["0"; "1"; "2"; "3"; "4"; "5"; "6"; "7"; "8"; "9"; "10"; "11"]).

Definition example_world : World F :=
  {| w_dict := example_state_dict; w_params := ∅; w_log := [] |}.

(** The model these shapes describe, as the adapter constructs it. *)
Definition example_built_args : CLIPArgs F :=
  CLIPArgs_default 512
    (vision_cfg_of (LInt 12) 768 (Some 16%Z) 224)
    (text_cfg_of 77 49408 512 8 1) true (Some float16).

Definition example_built_model : CLIP F :=
  let a := example_built_args in
  let o := tower_opts a None in
  mk_CLIP a None
    (VisionTransformer (vit_args 512 (a_vision_cfg a) 12 12 o) false)
    (TextTransformer (text_args 512 (a_text_cfg a) 1 o) false).
End Examples.


(** ** The rest of the file: [forward], [CustomTextCLIP] and the
       key-renaming pass for old checkpoints *)

Section ForwardPass.
Context {F : Type} {SF : Scalar F} {Tokens : Type}
        {RT : Runtime (F := F) Tokens}.

(** What [forward] returns: a dict or a tuple of the two optional
    feature values and [logit_scale.exp()]. *)
Inductive ForwardOut : Type :=
| FwdDict (image_features text_features : option (Encoded F)) (scale : F)
| FwdTuple (image_features text_features : option (Encoded F)) (scale : F).

(** [CLIP.forward] *)
Definition forward (self : CLIP F) (image : option (Tensor F))
    (text : option Tokens) : Result ForwardOut :=
  image_features <--
    match image with
    | Some i => e <-- encode_image self i true false false ; Ok (Some e)
    | None => Ok None
    end ;
  text_features <--
    match text with
    | Some t => e <-- encode_text self t true false false ; Ok (Some e)
    | None => Ok None
    end ;
  if output_dict self
  then Ok (FwdDict image_features text_features (fexp (logit_scale self)))
  else Ok (FwdTuple image_features text_features (fexp (logit_scale self))).

(** The components of what [forward] returns. *)
Definition fwd_is_dict (o : ForwardOut) : bool :=
  match o with FwdDict _ _ _ => true | FwdTuple _ _ _ => false end.
Definition fwd_image_features (o : ForwardOut) : option (Encoded F) :=
  match o with FwdDict i _ _ | FwdTuple i _ _ => i end.
Definition fwd_text_features (o : ForwardOut) : option (Encoded F) :=
  match o with FwdDict _ t _ | FwdTuple _ t _ => t end.
Definition fwd_scale (o : ForwardOut) : F :=
  match o with FwdDict _ _ s | FwdTuple _ _ s => s end.
End ForwardPass.
Arguments ForwardOut F : clear implicits.

Section CustomText.
Context {F : Type} {SF : Scalar F}.

(** The attributes of a [CustomTextCLIP]. *)
Record CustomTextCLIP : Type := {
  cc_output_dict : bool;
  cc_visual : VisualTower (F := F);
  cc_text : TextTower (F := F);
  cc_logit_scale : F
}.

(** The keyword defaults of the two factories. *)
Definition factory_defaults (quick_gelu : bool) (cast_dtype : option DType)
    : TowerOpts :=
  {| o_quick_gelu := quick_gelu; o_cast_dtype := cast_dtype;
     o_use_sparo := false; o_L := None; o_V := None;
     o_sparo_attn_dim := None; o_sparo_value_dim := None;
     o_sparo_heads := None; o_reduce_depth := Some 0%Z;
     o_share_kv := true; o_use_codebook := false |}.

(** [CustomTextCLIP.__init__] *)
Definition CustomTextCLIP_init (embed_dim : Z) (vision_cfg : CLIPVisionCfg F)
    (text_cfg : CLIPTextCfg F) (quick_gelu : bool)
    (cast_dtype : option DType) (output_dict : bool)
    : M Log CustomTextCLIP :=
  vis <- _build_vision_tower embed_dim vision_cfg
           (factory_defaults quick_gelu cast_dtype) ;
  txt <- _build_text_tower embed_dim text_cfg
           (factory_defaults quick_gelu cast_dtype) ;
  ret {| cc_output_dict := output_dict; cc_visual := vis; cc_text := txt;
         cc_logit_scale := fmul f1 (flog (fdiv f1 (flit 7 (-2)))) |}.
End CustomText.
Arguments CustomTextCLIP F : clear implicits.

Section OldCheckpoints.
Context {A : Type}.

(** A dict whose order of keys matters: the items in insertion order,
    each key once. *)
Definition ODict : Type := list (string * A).

(** [d[k] = v]: an existing key keeps its place and takes the new
    value, a new key goes last. *)
Fixpoint odict_set (k : string) (v : A) (d : ODict) : ODict :=
  match d with
  | [] => [(k, v)]
  | (k', v') :: rest =>
      if String.eqb k k' then (k, v) :: rest
      else (k', v') :: odict_set k v rest
  end.

(** [k in d] *)
Definition odict_mem (k : string) (d : ODict) : bool :=
  existsb (fun kv => String.eqb k (fst kv)) d.

(** [d.get(k)] *)
Fixpoint odict_get (k : string) (d : ODict) : option A :=
  match d with
  | [] => None
  | (k', v') :: rest => if String.eqb k k' then Some v' else odict_get k rest
  end.

Definition text_tower_prefixes : list string :=
  ["text_projection"; "positional_embedding"; "token_embedding";
   "transformer"; "ln_final"].

(** The body of the loop: the key under which an item is stored. *)
Definition custom_text_key (k : string) : string :=
  if existsb (startswith k) text_tower_prefixes
  then String.append "text." k else k.

(** [convert_to_custom_text_state_dict] *)
Definition convert_to_custom_text_state_dict (state_dict : ODict) : ODict :=
  if odict_mem "text_projection" state_dict then
    fold_left (fun new_state_dict kv =>
                 odict_set (custom_text_key (fst kv)) (snd kv) new_state_dict)
              state_dict []
  else state_dict.
End OldCheckpoints.
Arguments ODict A : clear implicits.

(** ** Notions used in the further statements *)

Section MoreStatements.
Context {F : Type} {SF : Scalar F}.

(** The objects a construction creates after the two towers. *)
Definition extra_objects (a : CLIPArgs F) : Log (F := F) :=
  let dim := or_else (a_bottleneck_dim a) (a_embed_dim a) in
  match a_bottleneck_dim a with
  | Some b => [EvLinear b (a_embed_dim a); EvLinear b (a_embed_dim a)]
  | None => []
  end
  ++ (if a_use_codebook a
      then [EvRandn (a_num_codes a) dim; EvFDTQueryModel true dim;
            EvFDTQueryModel false dim]
      else []).

(** The constructor arguments of a transformer text tower. *)
Definition tower_text_args (t : TextTower (F := F)) : option TextArgs :=
  match t with
  | TextTransformer a _ | SPAROTextTransformer a _ => Some a
  | _ => None
  end.

(** The pairs of representation and weighting [_project_for_sparo] has
    a branch for: the three representations under the two softmax
    weightings and the constant one, and ``cont'' and ``sqrtsem'' under
    ``norm''. *)
Definition rep_known (rep : string) : bool :=
  String.eqb rep "cont" || String.eqb rep "sqrtsem" || String.eqb rep "sem".

Definition drops_channel (norm_type : string) : bool :=
  String.eqb norm_type "sqrtsoftmax" || String.eqb norm_type "softmax".

Definition tag_supported (rep norm_type : string) : bool :=
  (drops_channel norm_type || String.eqb norm_type "const") && rep_known rep
  || String.eqb norm_type "norm"
     && (String.eqb rep "cont" || String.eqb rep "sqrtsem").

(** The values the representation is computed from: the viewed input,
    without its first channel under the two softmax weightings. *)
Definition slot_values (norm_type : string) (x : Slotted F) : Slotted F :=
  if drops_channel norm_type then drop_channel x else x.

(** A (..., L, V) value whose blocks, rows and columns are as many as
    its sizes say. *)
Definition slotted_wf (s : Slotted F) : Prop :=
  length (s_mats s) = numel_of (s_lead s)
  /\ Forall (fun m => length m = s_rows s
                      /\ Forall (fun r => length r = s_cols s) m)
            (s_mats s).
End MoreStatements.

(** ** What the precision conversion reaches *)

Section ConverterTargets.
Context {F : Type} {SF : Scalar F}.

(** A module and its descendants, in the order [apply] visits them. *)
Fixpoint all_modules (m : NNModule) : list NNModule :=
  match m with
  | Mod _ _ children => flat_map all_modules children ++ [m]
  end.

(** The attributes [_convert_weights] converts on a module, by its
    classes. *)
Definition lp_attrs (l : NNModule) : list string :=
  (if isinstance l [Conv1d; Conv2d; Linear] then ["weight"; "bias"] else [])
  ++ (if isinstance l [MultiheadAttention; Attention]
      then attention_attrs else [])
  ++ (if isinstance l [CLIPClass; TextTransformerClass]
      then ["text_projection"] else [])
  ++ (if isinstance l [VisionTransformerClass] then ["proj"] else []).

(** The parameter an attribute holds, if it holds one. *)
Definition attr_param (l : NNModule) (attr : string) : list nat :=
  match mod_attrs l !! attr with
  | Some (AttrParam p) => [p]
  | _ => []
  end.

(** The parameters under those attributes, for one module and for a
    tree of modules. *)
Definition module_params (l : NNModule) : list nat :=
  flat_map (attr_param l) (lp_attrs l).

Definition lp_params (model : NNModule) : list nat :=
  flat_map module_params (all_modules model).

(** A computation that converts parameters among [T], all of them when
    it returns. *)
Definition covers (d : DType) (m : M (ParamStore F) unit) (T : list nat)
    : Prop :=
  exists ps r,
    (forall s, m s = (convert_at d ps s, r))
    /\ (forall p, p ∈ ps -> p ∈ T)
    /\ (r = Ok tt -> forall p, p ∈ T -> p ∈ ps).
End ConverterTargets.

(** ** Concrete objects for the further examples *)

Section MoreExamples.
Context {F : Type} {SF : Scalar F}.

(** The arguments [a] with the two configurations replaced. *)
Definition with_cfgs (a : CLIPArgs F) (v : CLIPVisionCfg F)
    (t : CLIPTextCfg F) : CLIPArgs F :=
  {| a_embed_dim := a_embed_dim a; a_vision_cfg := v; a_text_cfg := t;
     a_quick_gelu := a_quick_gelu a; a_cast_dtype := a_cast_dtype a;
     a_output_dict := a_output_dict a; a_use_sparo := a_use_sparo a;
     a_sparo_attn_dim := a_sparo_attn_dim a;
     a_sparo_value_dim := a_sparo_value_dim a;
     a_sparo_heads := a_sparo_heads a; a_L := a_L a; a_V := a_V a;
     a_reduce_depth := a_reduce_depth a; a_sparo_type := a_sparo_type a;
     a_share_kv := a_share_kv a; a_share_queries := a_share_queries a;
     a_use_codebook := a_use_codebook a; a_num_codes := a_num_codes a;
     a_bottleneck_dim := a_bottleneck_dim a |}.

(** The default vision configuration with a timm model name. *)
Definition timm_vision_cfg (name : string) : CLIPVisionCfg F :=
  let d := CLIPVisionCfg_default in
  {| layers := layers d; width := width d; head_width := head_width d;
     mlp_ratio := mlp_ratio d; patch_size := patch_size d;
     image_size := image_size d; ls_init_value := ls_init_value d;
     patch_dropout := patch_dropout d;
     input_patchnorm := input_patchnorm d;
     global_average_pool := global_average_pool d;
     attentional_pool := attentional_pool d; n_queries := n_queries d;
     attn_pooler_heads := attn_pooler_heads d;
     output_tokens := output_tokens d;
     timm_model_name := Some name;
     timm_model_pretrained := timm_model_pretrained d;
     timm_pool := timm_pool d; timm_proj := timm_proj d;
     timm_proj_bias := timm_proj_bias d; timm_drop := timm_drop d;
     timm_drop_path := timm_drop_path d |}.

(** A structured request on a residual backbone, and one on a named
    vision backbone. *)
Definition example_residual_sparo_args : CLIPArgs F :=
  with_cfgs (example_sparo_args "cont:const" 4 2)
            (vision_cfg_of (LTuple [3; 4; 6; 3]%Z) 64 None 224)
            CLIPTextCfg_default.

Definition example_timm_args : CLIPArgs F :=
  with_cfgs (example_sparo_args "cont:const" 4 2)
            (timm_vision_cfg "vit_base_patch16_224")
            CLIPTextCfg_default.

(** The shapes of two more exports: the base transformer with 32 x 32
    patches, and the residual network with stages of 3, 4, 6 and 3
    blocks. *)
Definition text_entries : list (string * Tensor F) :=
  [("text_projection", meta_tensor [512; 512]%nat);
   ("positional_embedding", meta_tensor [77; 512]%nat);
   ("token_embedding.weight", meta_tensor [49408; 512]%nat);
   ("ln_final.weight", meta_tensor [512%nat]);
   ("transformer.resblocks.0.attn.in_proj_weight",
    meta_tensor [1536; 512]%nat)].

Definition example_vit32_dict : gmap string (Tensor F) :=
  list_to_map
    ([("visual.proj", meta_tensor [768; 512]%nat);
      ("visual.conv1.weight", meta_tensor [768; 3; 32; 32]%nat);
      ("visual.positional_embedding", meta_tensor [50; 768]%nat)]
     ++ text_entries
     ++ map (fun i => (vit_attn_key i, meta_tensor [2304; 768]%nat))
            ["0"; "1"; "2"]).

Definition resnet_block_key (stage i : string) : string :=
  String.append "visual.layer"
    (String.append stage (String.append "." (String.append i ".bn1.weight"))).

Definition example_resnet_dict : gmap string (Tensor F) :=
  list_to_map
    ([("visual.layer1.0.conv1.weight", meta_tensor [64; 64; 1; 1]%nat);
      ("visual.attnpool.positional_embedding", meta_tensor [50; 2048]%nat)]
     ++ text_entries
     ++ map (fun i => (resnet_block_key "1" i, meta_tensor [64%nat]))
            ["0"; "1"; "2"]
     ++ map (fun i => (resnet_block_key "2" i, meta_tensor [128%nat]))
            ["0"; "1"; "2"; "3"]
     ++ map (fun i => (resnet_block_key "3" i, meta_tensor [256%nat]))
            ["0"; "1"; "2"; "3"; "4"; "5"]
     ++ map (fun i => (resnet_block_key "4" i, meta_tensor [512%nat]))
            ["0"; "1"; "2"]).

(** The residual export as a world, the model its shapes describe,
    and a world with an empty dict. *)
Definition example_resnet_world : World F :=
  {| w_dict := example_resnet_dict; w_params := ∅; w_log := [] |}.

Definition example_resnet_args : CLIPArgs F :=
  CLIPArgs_default 512
    (vision_cfg_of (LTuple [3; 4; 6; 3]%Z) 64 None 224)
    (text_cfg_of 77 49408 512 8 1) false None.

Definition example_resnet_model : CLIP F :=
  let a := example_resnet_args in
  let o := tower_opts a None in
  mk_CLIP a None
    (ModifiedResNet
       {| rn_layers := (3, 4, 6, 3)%Z; rn_output_dim := 512;
          rn_heads := 32; rn_image_size := ISInt 224; rn_width := 64 |})
    (TextTransformer (text_args 512 (a_text_cfg a) 1 o) false).

Definition empty_world : World F :=
  {| w_dict := ∅; w_params := ∅; w_log := [] |}.

(** The width a SPARO tower emits: [L] slots of the [V] it was given. *)
Definition slots_width (s : SparoArgs) : nat :=
  match sp_L s, sp_V s with
  | Some l, Some v => (l * v)%nat
  | _, _ => O
  end.

(** The shape-only runtime, with SPARO towers that return the pair
    (out, attn): zeros of the width their arguments ask for. *)
Definition sparo_shape_runtime : Runtime (F := F) (list (list Z)) := {|
  visual_forward := fun tower image =>
    match tower with
    | SPAROVisionTransformer _ s =>
        FPair (zeros [hd O (t_shape image); slots_width s])
              (zeros [hd O (t_shape image); 50%nat])
    | _ => visual_forward (Runtime := shape_runtime) tower image
    end;
  img_query_model := img_query_model (Runtime := shape_runtime);
  vision_bottleproj := vision_bottleproj (Runtime := shape_runtime);
  transformer_cast_dtype := transformer_cast_dtype (Runtime := shape_runtime);
  token_embedding := token_embedding (Runtime := shape_runtime);
  positional_embedding := positional_embedding (Runtime := shape_runtime);
  tensor_add := tensor_add (Runtime := shape_runtime);
  transformer := transformer (Runtime := shape_runtime);
  argmax_last := argmax_last (Runtime := shape_runtime);
  text_attn_pool := text_attn_pool (Runtime := shape_runtime);
  text_global_average_pool :=
    text_global_average_pool (Runtime := shape_runtime);
  ln_final := ln_final (Runtime := shape_runtime);
  mean_dim1 := mean_dim1 (Runtime := shape_runtime);
  select_first_token := select_first_token (Runtime := shape_runtime);
  select_at := select_at (Runtime := shape_runtime);
  matmul_text_projection := matmul_text_projection (Runtime := shape_runtime);
  txt_query_model := txt_query_model (Runtime := shape_runtime);
  text_bottleproj := text_bottleproj (Runtime := shape_runtime);
  text_sparo := fun tower x idx =>
    match tower with
    | SPAROTextTransformer _ s =>
        (zeros [hd O (t_shape x); slots_width s],
         zeros [hd O (t_shape x); 77%nat])
    | _ => text_sparo (Runtime := shape_runtime) tower x idx
    end;
  modules := modules (Runtime := shape_runtime);
  load_state_dict := load_state_dict (Runtime := shape_runtime);
  grid_size_attr := grid_size_attr (Runtime := shape_runtime);
  F_interpolate := F_interpolate (Runtime := shape_runtime)
|}.
End MoreExamples.

(** * Properties *)

Lemma dtype_eqb_eq a b : dtype_eqb a b = true <-> a = b.
Proof. destruct a, b; simpl; split; congruence. Qed.

Lemma dtype_eqb_refl a : dtype_eqb a a = true.
Proof. now destruct a. Qed.

(** ** The effect layers *)

Section MonadFacts.
Context {S A B : Type}.

Lemma bind_ok (m : M S A) (k : A -> M S B) s s' b :
  bind m k s = (s', Ok b) ->
  exists s1 a, m s = (s1, Ok a) /\ k a s1 = (s', Ok b).
Proof.
  unfold bind. destruct (m s) as [s1 [a | e]]; intros Hk.
  - exists s1, a. split; [reflexivity | exact Hk].
  - discriminate Hk.
Qed.

Lemma bind_run (m : M S A) (k : A -> M S B) s s1 a :
  m s = (s1, Ok a) -> bind m k s = k a s1.
Proof. unfold bind. intros ->. reflexivity. Qed.

Lemma bind_raise (m : M S A) (k : A -> M S B) s s1 e :
  m s = (s1, Raise e) -> bind m k s = (s1, Raise e).
Proof. unfold bind. intros ->. reflexivity. Qed.

Lemma lift_ok (r : Result A) (s s' : S) a :
  lift r s = (s', Ok a) -> r = Ok a /\ s' = s.
Proof. unfold lift. intros [= -> ->]. split; reflexivity. Qed.

Lemma ret_ok (a a' : A) (s s' : S) :
  ret a s = (s', Ok a') -> a' = a /\ s' = s.
Proof. unfold ret. intros [= -> ->]. split; reflexivity. Qed.

Lemma rbind_ok (r : Result A) (k : A -> Result B) b :
  rbind r k = Ok b -> exists a, r = Ok a /\ k a = Ok b.
Proof.
  destruct r as [a | e]; simpl; intros Hk; [eauto | discriminate Hk].
Qed.
End MonadFacts.

(** Inversion of a run that returned. *)
Ltac minv :=
  repeat match goal with
    | H : bind _ _ _ = (_, Ok _) |- _ =>
        let s := fresh "s" in let a := fresh "a" in let H1 := fresh "Hm" in
        apply bind_ok in H; destruct H as (s & a & H1 & H)
    | H : lift _ _ = (_, Ok _) |- _ =>
        apply lift_ok in H; destruct H as [H ?]; subst
    | H : ret _ _ = (_, Ok _) |- _ =>
        apply ret_ok in H; destruct H as [? ?]; subst
    | H : rbind _ _ = Ok _ |- _ =>
        let a := fresh "a" in let H1 := fresh "Hr" in
        apply rbind_ok in H; destruct H as (a & H1 & H)
    end.

(** ** Tower factories and construction *)

Section FactoryFacts.
Context {F : Type} {SF : Scalar F}.

Lemma floordiv_nonzero a b :
  b <> 0%Z -> floordiv a b = Ok (a / b)%Z.
Proof.
  intros Hb. unfold floordiv.
  destruct (Z.eqb_spec b 0); [contradiction | reflexivity].
Qed.

(** C2, as the code has it: the factory derives the head count by
    floor division and never checks that the ratio is exact.  With no
    named backbone and a nonzero [head_width] it builds the
    transformer with [width // head_width] heads and the residual
    backbone with [width * 32 // head_width] heads, the remainder
    being dropped; a zero [head_width] is the only ratio that
    fails. *)
Theorem build_vision_tower_floor_heads
    (embed_dim : Z) (cfg : CLIPVisionCfg F) (o : TowerOpts) (log : Log) :
  str_truthy (timm_model_name cfg) = false ->
  (forall n d, layers cfg = LInt n -> o_reduce_depth o = Some d ->
     head_width cfg <> 0%Z ->
     exists v a,
       _build_vision_tower embed_dim cfg o log = (log ++ [EvVisual v], Ok v)
       /\ tower_vit_args v = Some a
       /\ vt_heads a = (width cfg / head_width cfg)%Z
       /\ (head_width cfg * vt_heads a + width cfg mod head_width cfg
           = width cfg)%Z)
  /\ (forall l0 l1 l2 l3 d,
        layers cfg = LTuple [l0; l1; l2; l3] -> o_use_sparo o = false ->
        o_reduce_depth o = Some d -> head_width cfg <> 0%Z ->
        exists a,
          _build_vision_tower embed_dim cfg o log
          = (log ++ [EvVisual (ModifiedResNet a)], Ok (ModifiedResNet a))
          /\ rn_heads a = (width cfg * 32 / head_width cfg)%Z
          /\ (head_width cfg * rn_heads a
              + (width cfg * 32) mod head_width cfg = width cfg * 32)%Z)
  /\ (forall n, layers cfg = LInt n -> head_width cfg = 0%Z ->
        _build_vision_tower embed_dim cfg o log
        = (log, Raise ZeroDivisionError)).
Proof.
  intros Hname. unfold _build_vision_tower. rewrite Hname.
  split; [| split].
  - intros n d Hl Hd Hw. rewrite Hl.
    unfold bind, lift, emit, modify, ret, sub_depth.
    rewrite (floordiv_nonzero _ _ Hw), Hd.
    destruct (o_use_sparo o); eexists; eexists;
      (split; [reflexivity |]); (split; [reflexivity |]);
      simpl; (split; [reflexivity |]);
      symmetry; apply Z.div_mod; assumption.
  - intros l0 l1 l2 l3 d Hl Hs Hd Hw. rewrite Hl.
    unfold bind, lift, emit, modify, ret, sub_depth, py_assert.
    rewrite Hs, (floordiv_nonzero _ _ Hw), Hd. simpl.
    eexists. split; [reflexivity |]. simpl. split; [reflexivity |].
    symmetry; apply Z.div_mod; assumption.
  - intros n Hl Hw. rewrite Hl.
    unfold bind, lift, floordiv. rewrite Hw. reflexivity.
Qed.

(** C3: with both [use_sparo] and [use_codebook] set, construction
    raises the [ValueError] of the guard, and the record of created
    objects is the one it started from: neither tower has been built
    and no model is returned. *)
Theorem CLIP_init_sparo_codebook_exclusive (a : CLIPArgs F) (log : Log) :
  a_use_sparo a = true -> a_use_codebook a = true ->
  CLIP_init a log
  = (log, Raise (ValueError
                   "SPARO and codebook cannot be used together yet.")).
Proof.
  intros Hs Hc. unfold CLIP_init, bind, lift. rewrite Hs, Hc. reflexivity.
Qed.

(** A constructed model carries the flags it was constructed with. *)
Lemma CLIP_init_flags (a : CLIPArgs F) (log log' : Log) (self : CLIP F) :
  CLIP_init a log = (log', Ok self) ->
  use_sparo self = a_use_sparo a /\ use_codebook self = a_use_codebook a.
Proof.
  unfold CLIP_init. intros Hrun. minv. split; reflexivity.
Qed.
End FactoryFacts.

(** ** Precision conversion *)

Section ConverterFacts.
Context {F : Type} {SF : Scalar F}.

Lemma to_idem (d : DType) (t : Tensor F) : to d (to d t) = to d t.
Proof.
  unfold to. destruct (dtype_eqb (t_dtype t) d) eqn:E.
  - rewrite E. reflexivity.
  - simpl. rewrite dtype_eqb_refl. reflexivity.
Qed.

Lemma lookup_convert_at d ps (s : (ParamStore F)) (k : nat) :
  convert_at d ps s !! k
  = if bool_decide (k ∈ ps) then to d <$> s !! k else s !! k.
Proof.
  unfold convert_at. revert s.
  induction ps as [| p ps IH]; intros s; simpl.
  - reflexivity.
  - rewrite IH, lookup_alter.
    destruct (decide (p = k)) as [-> | Hne].
    + rewrite (bool_decide_true (k ∈ k :: ps))
        by (apply elem_of_cons; left; reflexivity).
      destruct (bool_decide (k ∈ ps)); [| reflexivity].
      destruct (s !! k); simpl; [rewrite to_idem |]; reflexivity.
    + destruct (bool_decide_reflect (k ∈ ps)) as [Hin | Hnin].
      * rewrite (bool_decide_true (k ∈ p :: ps))
          by (apply elem_of_cons; right; exact Hin).
        reflexivity.
      * rewrite (bool_decide_false (k ∈ p :: ps)); [reflexivity |].
        intros [Heq | Hin]%elem_of_cons; [congruence | contradiction].
Qed.

Lemma convert_at_idem d ps (s : (ParamStore F)) :
  convert_at d ps (convert_at d ps s) = convert_at d ps s.
Proof.
  apply map_eq. intros k. rewrite !lookup_convert_at.
  destruct (bool_decide (k ∈ ps)); [| reflexivity].
  destruct (s !! k); simpl; [rewrite to_idem |]; reflexivity.
Qed.

Lemma convert_at_app d ps qs (s : (ParamStore F)) :
  convert_at d (ps ++ qs) s = convert_at d qs (convert_at d ps s).
Proof. unfold convert_at. apply fold_left_app. Qed.

Lemma converts_ret d {A} (a : A) : converts d (ret a).
Proof. exists [], (Ok a). reflexivity. Qed.

Lemma converts_throw d {A} e : converts d (throw (A := A) e).
Proof. exists [], (Raise e). reflexivity. Qed.

Lemma converts_lift d {A} (r : Result A) : converts d (lift r).
Proof. exists [], r. reflexivity. Qed.

Lemma converts_bind d {A B} (m : M (ParamStore F) A) (k : A -> M (ParamStore F) B) :
  converts d m -> (forall a, converts d (k a)) -> converts d (bind m k).
Proof.
  intros (ps & r & Hm) Hk. destruct r as [a | e].
  - destruct (Hk a) as (qs & r' & Hka).
    exists (ps ++ qs), r'. intros s.
    unfold bind. rewrite Hm, Hka, convert_at_app. reflexivity.
  - exists ps, (Raise e). intros s. unfold bind. rewrite Hm. reflexivity.
Qed.

Lemma converts_if d {A} (c : bool) (m1 m2 : M (ParamStore F) A) :
  converts d m1 -> converts d m2 -> converts d (if c then m1 else m2).
Proof. destruct c; trivial. Qed.

Lemma converts_convert_data d a : converts d (convert_data d a).
Proof.
  destruct a; simpl; try apply converts_throw.
  exists [loc], (Ok tt). reflexivity.
Qed.

Lemma converts_convert_if_set d a : converts d (convert_if_set d a).
Proof.
  destruct a; simpl; try apply converts_ret.
  - apply (converts_convert_data d (AttrParam loc)).
  - apply (converts_convert_data d AttrObject).
Qed.

Lemma converts_for_each d {A} (f : A -> M (ParamStore F) unit) (l : list A) :
  (forall a, converts d (f a)) -> converts d (for_each f l).
Proof.
  intros Hf. induction l as [| a l IH]; simpl.
  - apply converts_ret.
  - apply converts_bind; [apply Hf | intros _; exact IH].
Qed.

Lemma converts_convert_weights d (l : NNModule) :
  converts d (_convert_weights d l).
Proof.
  unfold _convert_weights.
  repeat first
    [ apply converts_bind; [| intros ?]
    | apply converts_if
    | apply converts_for_each; intros ?
    | apply converts_ret
    | apply converts_lift
    | apply converts_convert_data
    | apply converts_convert_if_set ].
Qed.

Lemma converts_apply_fn d (fn : NNModule -> M (ParamStore F) unit) :
  (forall l, converts d (fn l)) -> forall m, converts d (apply_fn fn m).
Proof.
  intros Hfn.
  fix IH 1. intros [classes attrs children]. simpl.
  apply converts_bind; [| intros _; apply Hfn].
  induction children as [| c rest IHrest].
  - apply converts_ret.
  - apply converts_bind; [apply IH | intros _; exact IHrest].
Qed.

(** A computation of this kind changes nothing when run again on the
    store it produced, and ends the same way. *)
Lemma converts_rerun d {A} (m : M (ParamStore F) A) (s : (ParamStore F)) :
  converts d m -> m (fst (m s)) = m s.
Proof.
  intros (ps & r & Hm). rewrite !Hm. simpl. rewrite convert_at_idem.
  reflexivity.
Qed.

(** C8: converting an already converted model to the same type leaves
    every parameter as the first conversion left it (and ends as the
    first conversion ended). *)
Theorem convert_weights_to_lp_idempotent
    (model : NNModule) (dtype : DType) (s : (ParamStore F)) :
  convert_weights_to_lp model dtype
    (fst (convert_weights_to_lp model dtype s))
  = convert_weights_to_lp model dtype s.
Proof.
  apply (converts_rerun dtype).
  apply converts_apply_fn. apply converts_convert_weights.
Qed.
End ConverterFacts.

(** ** Slot decomposition: structure *)

Section SlotFacts.
Context {F : Type} {SF : Scalar F}.

Lemma numel_of_app (a b : list nat) :
  numel_of (a ++ b) = (numel_of a * numel_of b)%nat.
Proof.
  unfold numel_of. induction a as [| n a IH]; simpl; [lia |].
  rewrite IH. lia.
Qed.

Lemma take_chunks_length (count size : nat) (l : list F) :
  length (take_chunks count size l) = count.
Proof.
  revert l. induction count as [| k IH]; intros l; simpl;
    [reflexivity | now rewrite IH].
Qed.

Lemma take_chunks_add (a b size : nat) (l : list F) :
  take_chunks (a + b) size l
  = take_chunks a size l ++ take_chunks b size (skipn (a * size) l).
Proof.
  revert l. induction a as [| a IH]; intros l; simpl.
  - reflexivity.
  - rewrite IH. f_equal. f_equal.
    rewrite skipn_skipn. f_equal. f_equal. lia.
Qed.

Lemma take_chunks_firstn (count size n : nat) (l : list F) :
  (count * size <= n)%nat ->
  take_chunks count size (firstn n l) = take_chunks count size l.
Proof.
  revert n l. induction count as [| k IH]; intros n l Hn; simpl.
  - reflexivity.
  - rewrite firstn_firstn, Nat.min_l by lia. f_equal.
    rewrite skipn_firstn_comm. apply IH. simpl in Hn. lia.
Qed.

(** Cutting into blocks of [l * v] and each block into [l] rows of
    [v] gives the rows of the whole. *)
Lemma take_chunks_nested (b l v : nat) (d : list F) :
  concat (map (take_chunks l v) (take_chunks b (l * v) d))
  = take_chunks (b * l) v d.
Proof.
  revert d. induction b as [| b IH]; intros d; simpl.
  - reflexivity.
  - rewrite IH, take_chunks_add.
    rewrite take_chunks_firstn by lia. reflexivity.
Qed.

Lemma F_normalize_length (v : list F) : length (F_normalize v) = length v.
Proof. unfold F_normalize. now rewrite length_map. Qed.

Lemma F_softmax_length (v : list F) : length (F_softmax v) = length v.
Proof. unfold F_softmax. now rewrite !length_map. Qed.

(** A row times a weight row made of one constant per leading value. *)
Lemma bcast_row_const (c : F) (G : list F -> list F) (r : list F) :
  length (G r) = length r ->
  bcast_row fmul (G r) (map (fun _ => c) (firstn 1 r))
  = map (fun a => fmul a c) (G r).
Proof.
  intros Hlen. destruct r as [| a r]; simpl.
  - destruct (G []); [reflexivity | discriminate Hlen].
  - reflexivity.
Qed.

Lemma zip_with_same {A B C D} (f : B -> C -> D) (g : A -> B) (h : A -> C)
    (l : list A) :
  zip_with f (map g l) (map h l) = map (fun x => f (g x) (h x)) l.
Proof. induction l as [| a l IH]; simpl; [reflexivity | now rewrite IH]. Qed.

Lemma bcast_dim_first (v : nat) : bcast_dim v (Nat.min 1 v) = v.
Proof. unfold bcast_dim. destruct v as [| [| v]]; reflexivity. Qed.

(** The product of per-slot normalization [G] and the constant
    weights, block by block. *)
Lemma const_product (c : F) (G : list F -> list F) (mats : list (Mat F)) :
  (forall r, length (G r) = length r) ->
  zip_with (zip_with (bcast_row fmul))
           (map (map G) mats)
           (map (map (map (fun _ => c))) (map (map (firstn 1)) mats))
  = map (map (fun r => map (fun a => fmul a c) (G r))) mats.
Proof.
  intros HG. rewrite map_map, zip_with_same.
  apply map_ext. intros m.
  rewrite map_map, zip_with_same.
  apply map_ext. intros r. apply bcast_row_const, HG.
Qed.

Lemma view_slots_flat (lead : list nat) (l v : nat) (x : Tensor F) :
  t_shape x = lead ++ [(l * v)%nat] ->
  view_slots (Some l) (Some v) x
  = Ok {| s_dtype := t_dtype x; s_lead := lead; s_rows := l; s_cols := v;
          s_mats := map (take_chunks l v)
                        (take_chunks (numel_of lead) (l * v) (t_data x)) |}.
Proof.
  intros Hshape. unfold view_slots, numel. rewrite Hshape.
  rewrite removelast_last, !numel_of_app.
  replace (numel_of [l; v]) with (numel_of [(l * v)%nat])
    by (simpl; lia).
  rewrite Nat.eqb_refl. reflexivity.
Qed.

(** C4: for the constant weighting and the representations ``cont''
    and ``sem'', decomposing a vector of [l * v] values (under any
    non-empty leading axes) and flattening the result gives exactly
    the vector of the per-slot normalizations scaled by [sqrt(1/l)].
    The equality is one of elements, whatever the arithmetic; it
    holds for every [l], 1, 4 and 16 among them. *)
Theorem project_const_roundtrip
    (self : CLIP F) (x : Tensor F) (lead : list nat) (l v : nat)
    (rep : string) :
  L self = Some l -> model_V self = Some v ->
  rep = "cont" \/ rep = "sem" ->
  sparo_type self = String.append rep ":const" ->
  t_shape x = lead ++ [(l * v)%nat] ->
  numel_of lead <> O ->
  exists out,
    _project_for_sparo self x = Ok out
    /\ flatten_slots out = Ok (spec_const_roundtrip rep l v x).
Proof.
  intros HL HV Hrep Htag Hshape Hlead.
  unfold _project_for_sparo. rewrite HL, HV, Htag.
  rewrite (view_slots_flat lead l v x Hshape). cbn [rbind].
  destruct Hrep as [-> | ->]; cbn [String.append split_tag split_on
    Ascii.eqb Bool.eqb rbind String.eqb].
  all: cbn [rbind].
  all: eexists; split; [reflexivity |].
  all: unfold flatten_slots, bcast_last, const_weights, first_channel,
         smap, spec_const_roundtrip, spec_slot_normalization;
       cbn [s_lead s_rows s_cols s_mats s_dtype String.eqb Ascii.eqb
            Bool.eqb].
  all: destruct (Nat.eqb_spec (numel_of lead) 0) as [H0 | _];
         [contradiction |].
  all: rewrite bcast_dim_first, Hshape, removelast_last.
  all: f_equal; f_equal.
  - rewrite (const_product _ F_normalize) by apply F_normalize_length.
    rewrite <- concat_map, take_chunks_nested. reflexivity.
  - rewrite (const_product _ (fun r => F_normalize (F_softmax r)))
      by (intros r; now rewrite F_normalize_length, F_softmax_length).
    rewrite <- concat_map, take_chunks_nested. reflexivity.
Qed.

(** C10: with the tag ``sem:norm'' the decomposition never returns;
    once the input has passed the view into (L, V) slots, what it
    raises is [NotImplementedError] (a size the view rejects is
    reported by the view itself). *)
Theorem project_sem_norm_not_implemented (self : CLIP F) (x : Tensor F) :
  sparo_type self = "sem:norm" ->
  (exists e, _project_for_sparo self x = Raise e)
  /\ (forall xs, view_slots (L self) (model_V self) x = Ok xs ->
                 _project_for_sparo self x = Raise NotImplementedError).
Proof.
  intros Htag. unfold _project_for_sparo. rewrite Htag.
  destruct (view_slots (L self) (model_V self) x) as [xs | e]; simpl.
  - split; [eexists; reflexivity |]. intros ? _. reflexivity.
  - split; [eexists; reflexivity |]. intros ? [=].
Qed.
End SlotFacts.

(** ** Slot decomposition: the softmax weights *)

Section ColumnFacts.
Context {F : Type} {SF : Scalar F}.

Lemma colsum_column (v : list F) : colsum 1 (column v) = [vsum v].
Proof.
  unfold colsum, column. induction v as [| a v IH]; simpl in *.
  - reflexivity.
  - rewrite IH. reflexivity.
Qed.

Lemma softmax_dim2_column (v : list F) :
  softmax_dim2 1 (column v) = column (F_softmax v).
Proof.
  unfold softmax_dim2, F_softmax.
  replace (map (map fexp) (column v)) with (column (map fexp v))
    by (unfold column; rewrite !map_map; reflexivity).
  rewrite colsum_column. unfold column. rewrite !map_map. reflexivity.
Qed.

Lemma norm_dim2_column (v : list F) : norm_dim2 1 (column v) = [l2norm v].
Proof.
  unfold norm_dim2, l2norm.
  replace (map (map sq) (column v)) with (column (map sq v))
    by (unfold column; rewrite !map_map; reflexivity).
  rewrite colsum_column. reflexivity.
Qed.

Lemma normalize_dim2_column (v : list F) :
  normalize_dim2 1 (column v) = column (F_normalize v).
Proof.
  unfold normalize_dim2, F_normalize. rewrite norm_dim2_column.
  unfold column. rewrite !map_map. reflexivity.
Qed.

(** The first channel of a block whose rows are not empty is the
    column of the leading values. *)
Lemma first_channel_column (m : Mat F) :
  Forall (fun r => r <> []) m ->
  map (firstn 1) m = column (map (fun r => hd f0 r) m).
Proof.
  induction 1 as [| r m Hr _ IH]; simpl; [reflexivity |].
  rewrite IH. destruct r; [contradiction | reflexivity].
Qed.

Lemma take_chunks_rows (count size : nat) (d : list F) :
  (count * size <= length d)%nat ->
  Forall (fun r => length r = size) (take_chunks count size d).
Proof.
  revert d. induction count as [| k IH]; intros d Hd; simpl.
  - constructor.
  - constructor.
    + rewrite length_firstn. simpl in Hd. lia.
    + apply IH. rewrite length_skipn. simpl in Hd. lia.
Qed.
End ColumnFacts.

(** The operations of the interface, read in the reals. *)
Ltac real_ops :=
  cbn [f0 f1 fadd fmul fdiv fsqrt fexp fmax flit fof_nat R_Scalar] in *.

Section RealFacts.
Local Open Scope R_scope.

Lemma vsum_map_div (c : R) (v : list R) :
  vsum (map (fun a => a / c) v) = vsum v / c.
Proof.
  induction v as [| a v IH]; simpl; real_ops.
  - unfold Rdiv. now rewrite Rmult_0_l.
  - rewrite IH. unfold Rdiv. now rewrite Rmult_plus_distr_r.
Qed.

Lemma vsum_sq_div (c : R) (v : list R) :
  vsum (map sq (map (fun a => a / c) v)) = vsum (map sq v) / (c * c).
Proof.
  induction v as [| a v IH]; simpl; real_ops.
  - unfold Rdiv. now rewrite Rmult_0_l.
  - rewrite IH. unfold sq; real_ops.
    destruct (Req_dec c 0) as [-> | Hc].
    + unfold Rdiv. rewrite Rmult_0_l, Rinv_0. ring.
    + field. exact Hc.
Qed.

Lemma vsum_sq_nonneg (v : list R) : 0 <= vsum (map sq v).
Proof.
  induction v as [| a v IH]; simpl; real_ops; [lra |].
  unfold sq in *; real_ops.
  pose proof (Rle_0_sqr a) as Ha. unfold Rsqr in Ha. lra.
Qed.

Lemma vsum_exp_pos (v : list R) : v <> [] -> 0 < vsum (map exp v).
Proof.
  intros Hv.
  assert (Hge : forall w, 0 <= vsum (map exp w)).
  { induction w as [| a w IH]; simpl; real_ops; [lra |].
    pose proof (exp_pos a). lra. }
  destruct v as [| a v]; [contradiction |]. simpl; real_ops.
  pose proof (exp_pos a). pose proof (Hge v). lra.
Qed.

Lemma softmax_sums_to_one (v : list R) : v <> [] -> vsum (F_softmax v) = 1.
Proof.
  intros Hv. unfold F_softmax. real_ops. rewrite vsum_map_div.
  pose proof (vsum_exp_pos v Hv). field. lra.
Qed.

(** Cauchy-Schwarz against the all-ones vector. *)
Lemma vsum_sq_bound (v : list R) :
  vsum v * vsum v <= INR (length v) * vsum (map sq v).
Proof.
  induction v as [| a v IH].
  - simpl; real_ops. lra.
  - change (length (a :: v)) with (S (length v)). rewrite S_INR.
    simpl; real_ops.
    pose proof (pos_INR (length v)) as Hn.
    pose proof (vsum_sq_nonneg v) as Hq.
    set (s := vsum v) in *. set (q := vsum (map sq v)) in *.
    set (n := INR (length v)) in *.
    assert (Hkey : 2 * a * s <= n * (a * a) + q).
    { destruct (Rle_lt_or_eq_dec 0 n Hn) as [Hpos | Hzero].
      - pose proof (Rle_0_sqr (n * a - s)) as Hsq. unfold Rsqr in Hsq.
        apply Rmult_le_reg_l with n; [exact Hpos |]. nra.
      - rewrite <- Hzero in *.
        assert (s = 0) by nra. nra. }
    nra.
Qed.

Lemma eps_value : f_eps (F := R) = / 10 ^ 12.
Proof. unfold f_eps. real_ops. simpl powerRZ. lra. Qed.

(** The renormalized softmax of a non-empty list of at most 10^24
    logits has 2-norm one: the clamp at [eps] of [F.normalize] stays
    below the norm of the softmax. *)
Lemma l2norm_normalize_softmax (v : list R) :
  v <> [] -> INR (length v) <= 10 ^ 24 ->
  l2norm (F_normalize (F_softmax v)) = 1.
Proof.
  intros Hv Hlen.
  pose proof (softmax_sums_to_one v Hv) as Hsum.
  pose proof (vsum_sq_bound (F_softmax v)) as Hcs.
  rewrite Hsum, F_softmax_length in Hcs.
  set (p := F_softmax v) in *. set (q := vsum (map sq p)) in *.
  assert (Hn : 0 < INR (length v)).
  { apply lt_0_INR. destruct v; [contradiction | simpl; lia]. }
  assert (Hq : / 10 ^ 24 <= q).
  { apply Rmult_le_reg_l with (INR (length v)); [exact Hn |].
    apply Rle_trans with 1; [| lra].
    apply Rmult_le_reg_r with (10 ^ 24); [lra |].
    rewrite Rmult_assoc, Rinv_l by lra. lra. }
  assert (Hqpos : 0 < q).
  { apply Rlt_le_trans with (/ 10 ^ 24); [| exact Hq].
    apply Rinv_0_lt_compat. lra. }
  assert (Heps : / 10 ^ 12 <= sqrt q).
  { rewrite <- (sqrt_square (/ 10 ^ 12))
      by (left; apply Rinv_0_lt_compat; lra).
    apply sqrt_le_1_alt.
    replace (/ 10 ^ 12 * / 10 ^ 12) with (/ 10 ^ 24) by (field_simplify; lra).
    exact Hq. }
  unfold F_normalize, l2norm. fold q. rewrite eps_value. real_ops.
  rewrite Rmax_left by exact Heps.
  rewrite vsum_sq_div. fold q.
  rewrite sqrt_sqrt by lra.
  replace (q / q) with 1 by (field; lra).
  apply sqrt_1.
Qed.
End RealFacts.

Section SoftmaxWeights.
Local Open Scope R_scope.

Lemma view_slots_inv {F : Type} {SF : Scalar F} (Lo Vo : option nat)
    (x : Tensor F) (xs : Slotted F) :
  view_slots Lo Vo x = Ok xs ->
  exists l v,
    Lo = Some l /\ Vo = Some v
    /\ (numel_of (removelast (t_shape x)) * (l * v))%nat = numel x
    /\ xs = {| s_dtype := t_dtype x; s_lead := removelast (t_shape x);
               s_rows := l; s_cols := v;
               s_mats := map (take_chunks l v)
                           (take_chunks (numel_of (removelast (t_shape x)))
                                        (l * v) (t_data x)) |}.
Proof.
  unfold view_slots. destruct Lo as [l |], Vo as [v |]; try discriminate.
  destruct (Nat.eqb_spec (numel_of (removelast (t_shape x) ++ [l; v]))
                         (numel x)) as [Heq | _]; [| discriminate].
  intros [= <-]. exists l, v. repeat split.
  rewrite numel_of_app in Heq. simpl in Heq. lia.
Qed.

(** The weights of one block of [l] rows of [v >= 1] values. *)
Lemma softmax_weights_block (l v : nat) (d : list R) :
  (0 < l)%nat -> (0 < v)%nat -> (l * v <= length d)%nat ->
  INR l <= 10 ^ 24 ->
  norm_dim2 1 (normalize_dim2 1 (softmax_dim2 1
                 (map (firstn 1) (take_chunks l v d)))) = [1].
Proof.
  intros Hl Hv Hd Hbound.
  rewrite first_channel_column.
  2:{ eapply Forall_impl; [apply take_chunks_rows; exact Hd |].
      intros r Hr ->. simpl in Hr. lia. }
  rewrite softmax_dim2_column, normalize_dim2_column, norm_dim2_column.
  rewrite l2norm_normalize_softmax; [reflexivity | |].
  - intros Hnil. apply (f_equal (@length R)) in Hnil.
    rewrite length_map, take_chunks_length in Hnil. simpl in Hnil. lia.
  - rewrite length_map, take_chunks_length. exact Hbound.
Qed.

(** C5: for the ``softmax'' weighting the decomposition multiplies the
    transformed values, taken from the input without its first
    channel, by [softmax_weights] of the viewed input: the first
    channel softmaxed and then L2-normalized over the slot axis.  For
    an input that has elements (fewer than 2^63 of them) there is one
    block of weights per leading position, each a single column whose
    2-norm over the slot axis is one. *)
Theorem softmax_weights_unit_norm
    (self : CLIP R) (x : Tensor R) (xs : Slotted R) :
  view_slots (L self) (model_V self) x = Ok xs ->
  tensor_wf x -> (0 < numel x)%nat -> (Z.of_nat (numel x) < 2 ^ 63)%Z ->
  (forall rep, In rep ["cont"; "sqrtsem"; "sem"] ->
     sparo_type self = String.append rep ":softmax" ->
     exists f,
       _project_for_sparo self x
       = Ok (bcast_last fmul
               (smap (s_cols xs - 1) (map f) (drop_channel xs))
               (softmax_weights xs)))
  /\ s_rows (softmax_weights xs) = s_rows xs
  /\ s_cols (softmax_weights xs) = 1%nat
  /\ length (s_mats (softmax_weights xs)) = numel_of (s_lead xs)
  /\ Forall (fun w => norm_dim2 1 w = [1]) (s_mats (softmax_weights xs)).
Proof.
  intros Hview Hwf Hpos Hmax.
  destruct (view_slots_inv _ _ _ _ Hview) as (l & v & HL & HV & Hnum & ->).
  set (lead := removelast (t_shape x)) in *.
  assert (Hl : (0 < l)%nat) by nia.
  assert (Hv : (0 < v)%nat) by nia.
  assert (Hcols : Nat.min 1 v = 1%nat) by lia.
  assert (Hlead : (0 < numel_of lead)%nat) by nia.
  assert (Hle : (l <= numel x)%nat).
  { rewrite <- Hnum.
    apply Nat.le_trans with (1 * (l * 1))%nat; [lia |].
    apply Nat.mul_le_mono; [lia |]. apply Nat.mul_le_mono; lia. }
  split; [| split; [| split; [| split]]].
  - intros rep Hrep Htag. unfold _project_for_sparo.
    rewrite Hview, Htag. cbn [rbind].
    simpl in Hrep.
    destruct Hrep as [<- | [<- | [<- | []]]];
      cbn [String.append split_tag split_on Ascii.eqb Bool.eqb rbind
           String.eqb];
      eexists; reflexivity.
  - reflexivity.
  - unfold softmax_weights, first_channel, smap. cbn [s_cols]. exact Hcols.
  - unfold softmax_weights, first_channel, smap. cbn [s_mats s_lead].
    now rewrite !length_map, take_chunks_length.
  - unfold softmax_weights, first_channel, smap.
    cbn [s_cols s_mats]. rewrite Hcols.
    rewrite !List.Forall_map.
    assert (Hblocks :
      Forall (fun b => length b = (l * v)%nat)
             (take_chunks (numel_of lead) (l * v) (t_data x))).
    { apply take_chunks_rows. unfold tensor_wf in Hwf.
      rewrite Hwf, <- Hnum. apply Nat.le_refl. }
    eapply Forall_impl; [exact Hblocks |].
    intros b Hb. cbv beta in Hb |- *.
    apply softmax_weights_block; try assumption.
    + rewrite Hb. apply Nat.le_refl.
    + apply Rle_trans with (IZR (2 ^ 63)).
      * rewrite INR_IZR_INZ. apply IZR_le. lia.
      * change (2 ^ 63)%Z with 9223372036854775808%Z. lra.
Qed.
End SoftmaxWeights.

(** ** The encoders *)

Section EncoderFacts.
Context {F : Type} {SF : Scalar F} {Tokens : Type} {RT : Runtime (F := F) Tokens}.

(** Swapping the first two of three axes succeeds on every
    three-dimensional tensor and returns one. *)
Lemma permute_102 (t : Tensor F) :
  length (t_shape t) = 3%nat ->
  exists t', permute [1; 0; 2]%nat t = Ok t'
             /\ length (t_shape t') = 3%nat.
Proof.
  intros Hrank. unfold permute. rewrite Hrank.
  eexists. split; [reflexivity | reflexivity].
Qed.

(** C9: a model constructed with [use_sparo] refuses
    [normalize=False] in both encoders, whatever the other flags:
    [encode_image] raises the [AssertionError] of its precondition,
    [encode_text] never returns, and raises that same
    [AssertionError] as soon as the embedded text and the output of
    the transformer are (batch, context, width) tensors, so that the
    two axis swaps before the check go through. *)
Theorem encode_sparo_requires_normalize
    (a : CLIPArgs F) (log log' : Log) (self : CLIP F)
    (image : Tensor F) (text : Tokens) (return_sparo return_attn : bool) :
  CLIP_init a log = (log', Ok self) -> a_use_sparo a = true ->
  encode_image self image false return_sparo return_attn
  = Raise AssertionError
  /\ (exists e,
        encode_text self text false return_sparo return_attn = Raise e)
  /\ (length (t_shape (embed_text self text)) = 3%nat ->
      (forall x, length (t_shape x) = 3%nat ->
                 length (t_shape (transformer (text_tower self) x)) = 3%nat) ->
      encode_text self text false return_sparo return_attn
      = Raise AssertionError).
Proof.
  intros Hinit Hflag.
  destruct (CLIP_init_flags a log log' self Hinit) as [Hs _].
  rewrite Hflag in Hs.
  split; [| split].
  - unfold encode_image. rewrite Hs. reflexivity.
  - unfold encode_text. rewrite Hs. cbn [negb].
    destruct (permute _ (embed_text self text)) as [x1 | e];
      [| eexists; reflexivity]. cbn [rbind].
    destruct (permute _ (transformer (text_tower self) x1)) as [x2 | e];
      [| eexists; reflexivity]. cbn [rbind py_assert].
    eexists; reflexivity.
  - intros Hrank Htrans. unfold encode_text. rewrite Hs. cbn [negb].
    destruct (permute_102 _ Hrank) as (x1 & -> & Hx1). cbn [rbind].
    destruct (permute_102 _ (Htrans x1 Hx1)) as (x2 & -> & _).
    reflexivity.
Qed.
End EncoderFacts.

(** ** Position-embedding resize *)

Section ResizeFacts.
Context {F : Type} {SF : Scalar F} {Tokens : Type} {RT : Runtime (F := F) Tokens}.

Lemma infer_dim_exact (known d : nat) (t : Tensor F) :
  known <> O -> numel t = (known * d)%nat -> infer_dim known t = Ok d.
Proof.
  intros Hk Hn. unfold infer_dim.
  destruct (Nat.eqb_spec known 0) as [| _]; [contradiction |].
  rewrite Hn, Nat.mul_comm, Nat.Div0.mod_mul, Nat.div_mul by exact Hk.
  reflexivity.
Qed.

(** The no-op cases. *)
Lemma resize_pos_embed_missing (model : CLIP F) interpolation antialias
    (state_dict : gmap string (Tensor F)) :
  state_dict !! "visual.positional_embedding" = None ->
  resize_pos_embed model interpolation antialias state_dict
  = (state_dict, Ok tt).
Proof.
  intros Hk. unfold resize_pos_embed, bind, get_state. rewrite Hk.
  reflexivity.
Qed.

Lemma resize_pos_embed_same_size (model : CLIP F) interpolation antialias
    (state_dict : gmap string (Tensor F)) old g :
  state_dict !! "visual.positional_embedding" = Some old ->
  grid_size_attr (visual model) = Some g ->
  shape_at old 0 = Ok (fst (to_2tuple g) * snd (to_2tuple g) + 1)%nat ->
  resize_pos_embed model interpolation antialias state_dict
  = (state_dict, Ok tt).
Proof.
  intros Hk Hg Hrows. unfold resize_pos_embed, bind, get_state, lift.
  rewrite Hk, Hg, Hrows, Nat.eqb_refl. reflexivity.
Qed.

Lemma permute_0312 (t : Tensor F) (a b c d : nat) :
  t_shape t = [a; b; c; d] ->
  exists t', permute [0; 3; 1; 2]%nat t = Ok t'
             /\ t_shape t' = [a; d; b; c].
Proof.
  intros Hs. unfold permute. rewrite Hs.
  eexists. split; reflexivity.
Qed.

Lemma permute_0231 (t : Tensor F) (a b c d : nat) :
  t_shape t = [a; b; c; d] ->
  exists t', permute [0; 2; 3; 1]%nat t = Ok t'
             /\ t_shape t' = [a; c; d; b].
Proof.
  intros Hs. unfold permute. rewrite Hs.
  eexists. split; reflexivity.
Qed.

Lemma reshape_infer_last (pre : list nat) (d : nat) (t : Tensor F) :
  numel_of pre <> O -> numel t = (numel_of pre * d)%nat ->
  reshape_infer pre [] t
  = Ok {| t_dtype := t_dtype t; t_shape := pre ++ [d];
          t_data := t_data t |}.
Proof.
  intros Hpre Hn. unfold reshape_infer.
  rewrite app_nil_r, (infer_dim_exact _ d) by assumption. reflexivity.
Qed.

(** The resize proper, for a stored table of one class-token row and
    a square grid. *)
Lemma resize_pos_embed_square (model : CLIP F) interpolation antialias
    (state_dict : gmap string (Tensor F)) old g (side gh gw D : nat) :
  state_dict !! "visual.positional_embedding" = Some old ->
  grid_size_attr (visual model) = Some g -> to_2tuple g = (gh, gw) ->
  t_shape old = [S (side * side); D] ->
  (D <= length (t_data old))%nat ->
  (0 < side)%nat -> (0 < gh * gw)%nat -> (gh * gw <> side * side)%nat ->
  (forall t n c h w, t_shape t = [n; c; h; w] ->
     t_shape (F_interpolate t (gh, gw) interpolation antialias false)
     = [n; c; gh; gw]) ->
  exists new,
    resize_pos_embed model interpolation antialias state_dict
    = (<["visual.positional_embedding" := new]> state_dict, Ok tt)
    /\ t_shape new = [(gh * gw + 1)%nat; D]
    /\ select0 0 new = select0 0 old.
Proof.
  intros Hk Hg Hpair Hshape Hdata Hside Hgrid Hne Hinterp.
  unfold resize_pos_embed, bind, get_state, lift.
  rewrite Hk, Hg, Hpair. cbn [fst snd].
  unfold shape_at. rewrite Hshape. cbn [nth_error].
  destruct (Nat.eqb_spec (gh * gw + 1) (S (side * side))) as [Heq | _];
    [lia |].
  unfold slice_to, slice_from, tensor_len. rewrite Hshape.
  cbn [t_shape to_2tuple fst snd].
  replace (S (side * side) - 1)%nat with (side * side)%nat by lia.
  rewrite Nat.sqrt_square.
  rewrite (reshape_infer_last [1; side; side]%nat D);
    [| simpl; nia | unfold numel; simpl; nia].
  cbn [app].
  match goal with
  | |- context [permute [0; 3; 1; 2]%nat ?t] =>
      destruct (permute_0312 t 1 side side D eq_refl) as (p1 & -> & Hp1)
  end.
  pose proof (Hinterp p1 _ _ _ _ Hp1) as Hs1.
  destruct (permute_0231 _ _ _ _ _ Hs1) as (p2 & -> & Hp2).
  rewrite (reshape_infer_last [1; gh * gw]%nat D);
    [| simpl; nia | unfold numel; rewrite Hp2; simpl; nia].
  cbn [app]. unfold select0. cbn [t_shape Nat.ltb Nat.leb].
  unfold cat0. cbn [t_shape].
  destruct (decide ([D] = [D])) as [_ | Hbad]; [| contradiction].
  eexists. split; [reflexivity |].
  cbn [t_shape t_dtype t_data]. split.
  - f_equal. lia.
  - rewrite Hshape. cbn [Nat.ltb Nat.leb Nat.min].
    f_equal. unfold numel_of; simpl.
    rewrite !Nat.add_0_r, !Nat.mul_1_r.
    rewrite !skipn_O. f_equal.
    rewrite firstn_app, firstn_firstn, Nat.min_id.
    rewrite length_firstn, Nat.min_l by exact Hdata.
    rewrite Nat.sub_diag. simpl. rewrite app_nil_r. reflexivity.
Qed.

(** C7, as the code has it: for a grid-based target model, the dict is
    left as it is when it has no visual position-embedding table or
    when the table already has [grid[0] * grid[1] + 1] rows;
    otherwise, when the stored table is one class-token row followed
    by the rows of a square grid of positive side and the
    interpolation returns the size it is asked for, the key is
    rewritten to a table of exactly [grid[0] * grid[1] + 1] rows
    whose first row is the stored first row. *)
Theorem resize_pos_embed_cases (model : CLIP F) interpolation antialias
    (state_dict : gmap string (Tensor F)) g (gh gw : nat) :
  grid_size_attr (visual model) = Some g -> to_2tuple g = (gh, gw) ->
  (state_dict !! "visual.positional_embedding" = None ->
   resize_pos_embed model interpolation antialias state_dict
   = (state_dict, Ok tt))
  /\ (forall old,
        state_dict !! "visual.positional_embedding" = Some old ->
        shape_at old 0 = Ok (gh * gw + 1)%nat ->
        resize_pos_embed model interpolation antialias state_dict
        = (state_dict, Ok tt))
  /\ (forall old side D,
        state_dict !! "visual.positional_embedding" = Some old ->
        t_shape old = [S (side * side); D] ->
        (D <= length (t_data old))%nat ->
        (0 < side)%nat -> (0 < gh * gw)%nat ->
        (gh * gw <> side * side)%nat ->
        (forall t n c h w, t_shape t = [n; c; h; w] ->
           t_shape (F_interpolate t (gh, gw) interpolation antialias false)
           = [n; c; gh; gw]) ->
        exists new,
          resize_pos_embed model interpolation antialias state_dict
          = (<["visual.positional_embedding" := new]> state_dict, Ok tt)
          /\ t_shape new = [(gh * gw + 1)%nat; D]
          /\ select0 0 new = select0 0 old).
Proof.
  intros Hg Hpair. split; [| split].
  - apply resize_pos_embed_missing.
  - intros old Hk Hrows.
    apply (resize_pos_embed_same_size _ _ _ _ old g Hk Hg).
    rewrite Hpair. exact Hrows.
  - intros old side D Hk Hshape Hdata Hside Hgrid Hne Hinterp.
    exact (resize_pos_embed_square model interpolation antialias
             state_dict old g side gh gw D Hk Hg Hpair Hshape Hdata
             Hside Hgrid Hne Hinterp).
Qed.
End ResizeFacts.

(** ** The legacy-checkpoint adapter *)

Section LogFacts.
Context {F : Type} {SF : Scalar F}.

Lemma appends_lift {A} (r : Result A) : appends (F := F) (lift r).
Proof. intros l l' r' [= <- _]. exists []. now rewrite app_nil_r. Qed.

Lemma appends_ret {A} (a : A) : appends (F := F) (ret a).
Proof. intros l l' r' [= <- _]. exists []. now rewrite app_nil_r. Qed.

Lemma appends_emit e : appends (F := F) (emit e).
Proof. intros l l' r' [= <- _]. exists [e]. reflexivity. Qed.

Lemma appends_bind {A B} (m : M (Log (F := F)) A)
    (k : A -> M (Log (F := F)) B) :
  appends (F := F) m -> (forall a, appends (F := F) (k a)) ->
  appends (F := F) (bind m k).
Proof.
  intros Hm Hk l l' r. unfold bind.
  destruct (m l) as [l1 [a | e]] eqn:Em.
  - intros Hka. destruct (Hm _ _ _ Em) as [p1 ->].
    destruct (Hk a _ _ _ Hka) as [p2 ->].
    exists (p1 ++ p2). now rewrite app_assoc.
  - intros [= <- _]. exact (Hm _ _ _ Em).
Qed.

Ltac appends_tac :=
  repeat first
    [ apply appends_bind; [| intros ?]
    | apply appends_lift | apply appends_ret | apply appends_emit
    | assumption
    | match goal with
      | |- appends (if ?c then _ else _) => destruct c
      | |- appends (match ?x with _ => _ end) => destruct x
      end ].

Lemma appends_build_vision_tower embed_dim (cfg : CLIPVisionCfg F) o :
  appends (_build_vision_tower embed_dim cfg o).
Proof. unfold _build_vision_tower. appends_tac. Qed.

Lemma appends_build_text_tower embed_dim (cfg : CLIPTextCfg F) o :
  appends (_build_text_tower embed_dim cfg o).
Proof. unfold _build_text_tower. appends_tac. Qed.

Lemma appends_CLIP_init (a : CLIPArgs F) : appends (CLIP_init a).
Proof.
  unfold CLIP_init.
  pose proof appends_build_vision_tower as Hv.
  pose proof appends_build_text_tower as Ht.
  repeat first
    [ apply Hv | apply Ht
    | apply appends_bind; [| intros ?]
    | apply appends_lift | apply appends_ret | apply appends_emit
    | match goal with
      | |- appends (if ?c then _ else _) => destruct c
      | |- appends (match ?x with _ => _ end) => destruct x
      end ].
Qed.
End LogFacts.

Section CheckpointFacts.
Context {F : Type} {SF : Scalar F} {Tokens : Type} {RT : Runtime (F := F) Tokens}.

Lemma on_log_ok {A} (m : M (Log (F := F)) A) (w w' : World F) a :
  on_log m w = (w', Ok a) ->
  exists l', m (w_log w) = (l', Ok a)
             /\ w' = {| w_dict := w_dict w; w_params := w_params w;
                        w_log := l' |}.
Proof.
  unfold on_log. destruct (m (w_log w)) as [l' r].
  intros [= <- ->]. eauto.
Qed.

Lemma on_params_ok {A} (m : M (ParamStore F) A) (w w' : World F) a :
  on_params m w = (w', Ok a) ->
  exists p', m (w_params w) = (p', Ok a)
             /\ w' = {| w_dict := w_dict w; w_params := p';
                        w_log := w_log w |}.
Proof.
  unfold on_params. destruct (m (w_params w)) as [p' r].
  intros [= <- ->]. eauto.
Qed.

Lemma on_dict_get (w w' : World F) d :
  on_dict get_state w = (w', Ok d) -> d = w_dict w /\ w' = w.
Proof.
  unfold on_dict, get_state. intros [= <- <-]. destruct w; auto.
Qed.

Lemma emit_event (e : Event (F := F)) (w w' : World F) u :
  on_log (emit e) w = (w', Ok u) ->
  w' = {| w_dict := w_dict w; w_params := w_params w;
          w_log := w_log w ++ [e] |}.
Proof. unfold on_log, emit, modify. intros [= <-]. reflexivity. Qed.

Lemma pop_metadata (w : World F) :
  for_each dict_pop metadata_keys w
  = ({| w_dict := delete "vocab_size"
                    (delete "context_length"
                       (delete "input_resolution" (w_dict w)));
        w_params := w_params w;
        w_log := w_log w ++ map EvDictPop metadata_keys |}, Ok tt).
Proof.
  unfold for_each, metadata_keys, dict_pop, bind, on_log, on_dict, emit,
    modify, ret. simpl. rewrite <- !app_assoc. reflexivity.
Qed.

(** C1, as the code has it: a load that returns has removed exactly
    the three keys [input_resolution], [context_length] and
    [vocab_size] from the caller's dict (each when present, every
    other entry being kept), and it has done so before the precision
    conversion and before the load into the model, which is given the
    dict without them. *)
Theorem build_model_strips_metadata
    (quick_gelu : bool) (cast_dtype : option DType) (w w' : World F)
    (model : CLIP F) :
  build_model_from_openai_state_dict quick_gelu cast_dtype w
  = (w', Ok model) ->
  w_dict w' = delete "vocab_size"
                (delete "context_length"
                   (delete "input_resolution" (w_dict w)))
  /\ (forall k, w_dict w' !! k
                = if bool_decide (k ∈ metadata_keys) then None
                  else w_dict w !! k)
  /\ exists pre,
       w_log w' = w_log w ++ pre
                  ++ [EvDictPop "input_resolution";
                      EvDictPop "context_length";
                      EvDictPop "vocab_size";
                      EvConvertWeights float16;
                      EvLoadStateDict (dom (w_dict w'));
                      EvEval].
Proof.
  unfold build_model_from_openai_state_dict. intros Hrun.
  apply bind_ok in Hrun. destruct Hrun as (w0 & sd & Hget & Hrun).
  apply on_dict_get in Hget. destruct Hget as [-> ->].
  apply bind_ok in Hrun. destruct Hrun as (w1 & vis & Hvis & Hrun).
  apply lift_ok in Hvis. destruct Hvis as [Hvis ->].
  destruct vis as [[[vl vw] vp] vi].
  apply bind_ok in Hrun. destruct Hrun as (w1 & txt & Htxt & Hrun).
  apply lift_ok in Htxt. destruct Htxt as [Htxt ->].
  destruct txt as [[[[[ed ctx] vocab] tw] th] tl].
  apply bind_ok in Hrun. destruct Hrun as (w1 & m0 & Hinit & Hrun).
  apply on_log_ok in Hinit. destruct Hinit as (l1 & Hinit & ->).
  destruct (appends_CLIP_init _ _ _ _ Hinit) as [pre ->].
  apply bind_ok in Hrun. destruct Hrun as (w2 & u & Hpop & Hrun).
  rewrite pop_metadata in Hpop. injection Hpop as <- _.
  apply bind_ok in Hrun. destruct Hrun as (w3 & u1 & He1 & Hrun).
  apply emit_event in He1. subst w3.
  apply bind_ok in Hrun. destruct Hrun as (w4 & u2 & Hconv & Hrun).
  apply on_params_ok in Hconv. destruct Hconv as (p1 & _ & ->).
  apply bind_ok in Hrun. destruct Hrun as (w5 & sd' & Hget & Hrun).
  apply on_dict_get in Hget. destruct Hget as [-> ->].
  apply bind_ok in Hrun. destruct Hrun as (w6 & u3 & He2 & Hrun).
  apply emit_event in He2. subst w6.
  apply bind_ok in Hrun. destruct Hrun as (w7 & u4 & Hload & Hrun).
  apply on_params_ok in Hload. destruct Hload as (p2 & _ & ->).
  apply bind_ok in Hrun. destruct Hrun as (w8 & u5 & He3 & Hrun).
  apply emit_event in He3. subst w8.
  apply ret_ok in Hrun. destruct Hrun as [-> ->].
  cbn [w_dict w_log w_params]. split; [reflexivity |]. split.
  - intros k. unfold metadata_keys.
    destruct (bool_decide_reflect (k ∈ ["input_resolution";
                "context_length"; "vocab_size"])) as [Hin | Hnin].
    + rewrite !elem_of_cons in Hin.
      destruct Hin as [-> | [-> | [-> | Hin]]];
        [| | | inversion Hin]; now simplify_map_eq.
    + rewrite !lookup_delete_ne; [reflexivity | | |];
        intros <-; apply Hnin; rewrite !elem_of_cons; auto.
  - exists pre. simpl. rewrite <- !app_assoc. reflexivity.
Qed.

(** Counting keys in the order of iteration or as a set is the same. *)
Lemma keys_filter_count (state_dict : gmap string (Tensor F))
    (f : string -> bool) :
  length (List.filter f (keys state_dict))
  = size (filter (fun k => f k = true) (dom state_dict)).
Proof.
  unfold size, set_size. cbn [compose].
  apply Permutation_length, NoDup_Permutation.
  - apply NoDup_ListNoDup, List.NoDup_filter, NoDup_ListNoDup,
      NoDup_fst_map_to_list.
  - apply NoDup_elements.
  - intros k. rewrite list_elem_of_In, filter_In, <- list_elem_of_In.
    rewrite elem_of_elements, elem_of_filter.
    rewrite elem_of_dom. unfold keys.
    rewrite list_elem_of_fmap. split.
    + intros [([k' t] & -> & Hin) Hf]. split; [exact Hf |].
      apply elem_of_map_to_list in Hin. simpl. eauto.
    + intros [Hf [t Hk]]. split; [| exact Hf].
      exists (k, t). split; [reflexivity |].
      now apply elem_of_map_to_list.
Qed.

(** The vision tower of a model built from a dict carries the sizes
    inferred from it. *)
Lemma build_model_vision_args (quick_gelu : bool)
    (cast_dtype : option DType) (w w' : World F) (model : CLIP F)
    (n wd p im : Z) :
  infer_vision (w_dict w) = Ok (LInt n, wd, Some p, im) ->
  build_model_from_openai_state_dict quick_gelu cast_dtype w
  = (w', Ok model) ->
  exists a, visual model = VisionTransformer a false
            /\ vt_width a = wd /\ vt_layers a = (n - 0)%Z
            /\ vt_patch_size a = Some p /\ vt_image_size a = ISInt im.
Proof.
  intros Hinfer. unfold build_model_from_openai_state_dict. intros Hrun.
  apply bind_ok in Hrun. destruct Hrun as (w0 & sd & Hget & Hrun).
  apply on_dict_get in Hget. destruct Hget as [-> ->].
  rewrite Hinfer in Hrun.
  apply bind_ok in Hrun. destruct Hrun as (w1 & vis & Hvis & Hrun).
  apply lift_ok in Hvis. destruct Hvis as [[= <-] ->].
  apply bind_ok in Hrun. destruct Hrun as (w1 & txt & Htxt & Hrun).
  apply lift_ok in Htxt. destruct Htxt as [Htxt ->].
  destruct txt as [[[[[ed ctx] vocab] tw] th] tl].
  apply bind_ok in Hrun. destruct Hrun as (w1 & m0 & Hinit & Hrun).
  apply on_log_ok in Hinit. destruct Hinit as (l1 & Hinit & ->).
  assert (Hvisual : exists a, visual m0 = VisionTransformer a false
            /\ vt_width a = wd /\ vt_layers a = (n - 0)%Z
            /\ vt_patch_size a = Some p /\ vt_image_size a = ISInt im).
  { unfold CLIP_init in Hinit. cbn [CLIPArgs_default a_use_sparo
      a_use_codebook a_V a_bottleneck_dim a_embed_dim a_vision_cfg
      a_text_cfg andb negb orb] in Hinit.
    minv. cbn [mk_CLIP visual].
    match goal with
    | Hb : _build_vision_tower _ _ _ _ = (_, Ok ?v) |- _ =>
        unfold _build_vision_tower in Hb;
        cbn [vision_cfg_of CLIPVisionCfg_default timm_model_name
             str_truthy layers head_width width] in Hb;
        minv
    end.
    cbn [tower_opts o_use_sparo o_use_codebook CLIPArgs_default
         a_use_sparo a_use_codebook].
    eexists. split; [reflexivity |].
    cbn [vit_args vt_width vt_layers vt_patch_size vt_image_size
         vision_cfg_of width patch_size image_size].
    match goal with
    | Hd : sub_depth _ _ = Ok _ |- _ =>
        cbn [tower_opts o_reduce_depth CLIPArgs_default a_reduce_depth
             sub_depth] in Hd; injection Hd as <-
    end.
    repeat split. }
  destruct Hvisual as (a & Ha & Hrest).
  repeat match type of Hrun with
         | bind _ _ _ = (_, Ok _) =>
             let s := fresh "s" in let u := fresh "u" in
             let Hm := fresh "Hm" in
             apply bind_ok in Hrun; destruct Hrun as (s & u & Hm & Hrun)
         end.
  apply ret_ok in Hrun. destruct Hrun as [-> _].
  exists a. split; [exact Ha | exact Hrest].
Qed.

(** C6: on a dict exported from a transformer backbone, with a
    [visual.conv1.weight] whose first size is 768 and last size 16,
    twelve keys of attention in-projections under [visual.], and a
    visual position-embedding table of 14 * 14 + 1 rows, the
    inference gives layers 12, width 768, patch size 16 and image
    size 224, and these are the sizes of the vision tower of the
    model built from the dict. *)
Theorem infer_vision_vit_base (state_dict : gmap string (Tensor F))
    (conv1 pos : Tensor F) :
  is_Some (state_dict !! "visual.proj") ->
  state_dict !! "visual.conv1.weight" = Some conv1 ->
  shape_at conv1 0 = Ok 768%nat -> shape_last conv1 = Ok 16%nat ->
  size (filter (fun k => is_vit_attn_key k = true) (dom state_dict))
  = 12%nat ->
  state_dict !! "visual.positional_embedding" = Some pos ->
  shape_at pos 0 = Ok (14 * 14 + 1)%nat ->
  infer_vision state_dict = Ok (LInt 12, 768%Z, Some 16%Z, 224%Z)
  /\ (forall quick_gelu cast_dtype (w w' : World F) model,
        w_dict w = state_dict ->
        build_model_from_openai_state_dict quick_gelu cast_dtype w
        = (w', Ok model) ->
        exists a, visual model = VisionTransformer a false
                  /\ vt_width a = 768%Z /\ vt_layers a = 12%Z
                  /\ vt_patch_size a = Some 16%Z
                  /\ vt_image_size a = ISInt 224).
Proof.
  intros Hproj Hconv Hw Hp Hcount Hpos Hrows.
  assert (Hinfer :
    infer_vision state_dict = Ok (LInt 12, 768%Z, Some 16%Z, 224%Z)).
  { unfold infer_vision. rewrite bool_decide_true by exact Hproj.
    unfold sd_get. rewrite Hconv, Hpos. cbn [rbind].
    rewrite Hw, Hp, Hrows. cbn [rbind].
    rewrite keys_filter_count, Hcount. reflexivity. }
  split; [exact Hinfer |].
  intros quick_gelu cast_dtype w w' model Hw0 Hrun.
  rewrite <- Hw0 in Hinfer.
  destruct (build_model_vision_args _ _ _ _ _ _ _ _ _ Hinfer Hrun)
    as (a & Ha & Hwd & Hl & Hps & Him).
  exists a. repeat split; assumption.
Qed.
End CheckpointFacts.

(** ** The statements at concrete inputs *)

(** C2 as stated fails: a width of 100 with the default head width of
    64 is not a multiple, and the factory returns a transformer with one
    head; a residual backbone of width 65 gets 32 heads (65 * 32 = 2080
    is not a multiple of 64 either). *)
Lemma build_vision_tower_rounds_silently :
  let cfg := vision_cfg_of (F := R) (LInt 12) 100 (Some 16%Z) 224 in
  let v := VisionTransformer (vit_args 512 cfg 12 1 example_opts) false in
  let rcfg := vision_cfg_of (F := R) (LTuple [3; 4; 6; 3]%Z) 65 None 224 in
  let rv := ModifiedResNet
              {| rn_layers := (3, 4, 6, 3)%Z; rn_output_dim := 512;
                 rn_heads := 32; rn_image_size := ISInt 224;
                 rn_width := 65 |} in
  (width cfg mod head_width cfg <> 0)%Z
  /\ _build_vision_tower 512 cfg example_opts [] = ([EvVisual v], Ok v)
  /\ ((width rcfg * 32) mod head_width rcfg <> 0)%Z
  /\ _build_vision_tower 512 rcfg example_opts [] = ([EvVisual rv], Ok rv).
Proof.
  cbv zeta. split; [| split; [| split]].
  - simpl. discriminate.
  - reflexivity.
  - simpl. discriminate.
  - reflexivity.
Qed.

Lemma build_vision_tower_floor_heads_witness :
  exists v a,
    _build_vision_tower 512 (CLIPVisionCfg_default (F := R)) example_opts []
    = ([] ++ [EvVisual v], Ok v)
    /\ tower_vit_args v = Some a
    /\ vt_heads a = (768 / 64)%Z
    /\ (64 * vt_heads a + 768 mod 64 = 768)%Z.
Proof.
  apply (proj1 (build_vision_tower_floor_heads 512
                  (CLIPVisionCfg_default (F := R)) example_opts []
                  eq_refl) 12%Z 0%Z); [reflexivity | reflexivity |].
  simpl. discriminate.
Defined.

Lemma CLIP_init_sparo_codebook_exclusive_witness :
  CLIP_init (example_conflict_args (F := R)) []
  = ([], Raise (ValueError
                  "SPARO and codebook cannot be used together yet.")).
Proof.
  apply CLIP_init_sparo_codebook_exclusive; reflexivity.
Defined.

Lemma project_const_roundtrip_witness :
  exists out,
    _project_for_sparo (example_sparo_model (F := R) "cont:const" 4 2)
                       example_vector = Ok out
    /\ flatten_slots out
       = Ok (spec_const_roundtrip "cont" 4 2 example_vector).
Proof.
  apply (project_const_roundtrip
           (example_sparo_model (F := R) "cont:const" 4 2)
           example_vector [] 4 2 "cont").
  - reflexivity.
  - reflexivity.
  - left. reflexivity.
  - reflexivity.
  - reflexivity.
  - simpl. lia.
Defined.

Lemma project_sem_norm_not_implemented_witness :
  _project_for_sparo (example_sparo_model (F := R) "sem:norm" 4 2)
                     example_vector
  = Raise NotImplementedError.
Proof.
  eapply (proj2 (project_sem_norm_not_implemented
                   (example_sparo_model (F := R) "sem:norm" 4 2)
                   example_vector eq_refl)).
  reflexivity.
Defined.

Lemma softmax_weights_unit_norm_witness :
  let xs := {| s_dtype := float32; s_lead := []; s_rows := 4; s_cols := 2;
               s_mats := [[[INR 1; INR 2]; [INR 3; INR 4];
                           [INR 5; INR 6]; [INR 7; INR 8]]] |} in
  (exists f,
     _project_for_sparo (example_sparo_model (F := R) "cont:softmax" 4 1)
                        example_vector
     = Ok (bcast_last fmul
             (smap (s_cols xs - 1) (map f) (drop_channel xs))
             (softmax_weights xs)))
  /\ Forall (fun w => norm_dim2 1 w = [1%R]) (s_mats (softmax_weights xs)).
Proof.
  cbv zeta.
  pose proof (softmax_weights_unit_norm
                (example_sparo_model (F := R) "cont:softmax" 4 1)
                example_vector _ eq_refl eq_refl) as Hw.
  destruct Hw as (Hproj & _ & _ & _ & Hnorm).
  - unfold numel. simpl. lia.
  - unfold numel. simpl. lia.
  - split; [| exact Hnorm].
    apply (Hproj "cont"); [left; reflexivity | reflexivity].
Defined.

Lemma encode_sparo_requires_normalize_witness :
  encode_image (RT := shape_runtime)
               (example_sparo_model (F := R) "cont:const" 4 2)
               (meta_tensor [1; 3; 224; 224]%nat) false false false
  = Raise AssertionError
  /\ encode_text (RT := shape_runtime)
                 (example_sparo_model (F := R) "cont:const" 4 2)
                 [[49406; 320; 49407]%Z] false false false
     = Raise AssertionError.
Proof.
  pose proof (encode_sparo_requires_normalize (RT := shape_runtime)
                (example_sparo_args "cont:const" 4 2) [] _
                (example_sparo_model (F := R) "cont:const" 4 2)
                (meta_tensor [1; 3; 224; 224]%nat)
                [[49406; 320; 49407]%Z] false false eq_refl eq_refl)
    as (Himg & _ & Htxt).
  split; [exact Himg |].
  apply Htxt; [reflexivity |]. intros x Hx. exact Hx.
Defined.

(** C7 as stated fails past the no-op cases: a stored table of one
    class-token row and five grid rows, to be resized for a 3 x 3 grid,
    is neither left alone (6 is not 3 * 3 + 1) nor rewritten: the five
    rows do not fill the 2 x 2 grid the code takes them for, the
    reshape raises and the dict keeps the table it had. *)
Lemma resize_pos_embed_rejects_odd_grid :
  let model := example_vit_model (F := R) 48 16 in
  let state_dict : gmap string (Tensor R) :=
    {["visual.positional_embedding" := example_odd_table]} in
  grid_size_attr (Runtime := shape_runtime) (visual model) = Some (GPair 3 3)
  /\ shape_at example_odd_table 0 = Ok 6%nat
  /\ resize_pos_embed (RT := shape_runtime) model "bicubic" true state_dict
     = (state_dict, Raise (RuntimeError "shape is invalid for input size")).
Proof.
  cbv zeta. split; [reflexivity |]. split; [reflexivity |].
  unfold resize_pos_embed, bind, get_state.
  rewrite lookup_singleton_eq. reflexivity.
Qed.

Lemma resize_pos_embed_cases_witness :
  let model := example_vit_model (F := R) 48 16 in
  let state_dict : gmap string (Tensor R) :=
    {["visual.positional_embedding" := example_table]} in
  exists new,
    resize_pos_embed (RT := shape_runtime) model "bicubic" true state_dict
    = (<["visual.positional_embedding" := new]> state_dict, Ok tt)
    /\ t_shape new = [(3 * 3 + 1)%nat; 2%nat]
    /\ select0 0 new = select0 0 example_table.
Proof.
  cbv zeta.
  apply (proj2 (proj2 (resize_pos_embed_cases (RT := shape_runtime)
                         (example_vit_model (F := R) 48 16) "bicubic" true
                         {["visual.positional_embedding" := example_table]}
                         (GPair 3 3) 3 3 eq_refl eq_refl))
           example_table 2%nat 2%nat).
  - apply lookup_singleton_eq.
  - reflexivity.
  - simpl. lia.
  - lia.
  - lia.
  - lia.
  - intros t n c h w Hs. simpl. rewrite Hs. reflexivity.
Defined.

Section Runs.
Context {F : Type} {SF : Scalar F} {Tokens : Type}
        {RT : Runtime (F := F) Tokens}.

(** The adapter returns whenever its steps do. *)
Lemma build_model_runs (quick_gelu : bool) (cast_dtype : option DType)
    (w : World F) vl vw vp vi ed ctx vocab tw th tl
    (l1 : Log) (model : CLIP F) (p1 p2 : ParamStore F) :
  let stripped := delete "vocab_size"
                    (delete "context_length"
                       (delete "input_resolution" (w_dict w))) in
  infer_vision (w_dict w) = Ok (vl, vw, vp, vi) ->
  infer_text (w_dict w) = Ok (ed, ctx, vocab, tw, th, tl) ->
  CLIP_init (CLIPArgs_default ed (vision_cfg_of vl vw vp vi)
               (text_cfg_of ctx vocab tw th tl) quick_gelu cast_dtype)
            (w_log w) = (l1, Ok model) ->
  convert_weights_to_fp16 (modules model) (w_params w) = (p1, Ok tt) ->
  load_state_dict model stripped p1 = (p2, Ok tt) ->
  build_model_from_openai_state_dict quick_gelu cast_dtype w
  = ({| w_dict := stripped; w_params := p2;
        w_log := l1 ++ map EvDictPop metadata_keys
                 ++ [EvConvertWeights float16;
                     EvLoadStateDict (dom stripped); EvEval] |},
     Ok (eval model)).
Proof.
  intros stripped Hv Ht Hinit Hconv Hload.
  unfold build_model_from_openai_state_dict.
  rewrite (bind_run _ _ w w (w_dict w)) by (destruct w; reflexivity).
  rewrite Hv, Ht.
  rewrite (bind_run _ _ w w (vl, vw, vp, vi)) by reflexivity.
  rewrite (bind_run _ _ w w (ed, ctx, vocab, tw, th, tl)) by reflexivity.
  erewrite bind_run by (unfold on_log; rewrite Hinit; reflexivity).
  erewrite bind_run by apply pop_metadata.
  erewrite bind_run by reflexivity.
  erewrite bind_run
    by (unfold on_params; cbn [w_params]; rewrite Hconv; reflexivity).
  erewrite bind_run by reflexivity.
  erewrite bind_run by reflexivity.
  erewrite bind_run
    by (unfold on_params; cbn [w_params w_dict]; fold stripped;
        rewrite Hload; reflexivity).
  erewrite bind_run by reflexivity.
  unfold ret. cbn [w_dict w_params w_log].
  rewrite <- !app_assoc. reflexivity.
Qed.
End Runs.

(** The adapter on the example export: it returns the model the shapes
    describe, in evaluation mode, and leaves the dict without its
    metadata entries. *)
Lemma example_build_runs :
  build_model_from_openai_state_dict (RT := shape_runtime)
    true (Some float16) (example_world (F := R))
  = ({| w_dict := delete "vocab_size"
                    (delete "context_length"
                       (delete "input_resolution" example_state_dict));
        w_params := ∅;
        w_log := [EvVisual (visual example_built_model);
                  EvText (text_tower example_built_model)]
                 ++ map EvDictPop metadata_keys
                 ++ [EvConvertWeights float16;
                     EvLoadStateDict
                       (dom (delete "vocab_size"
                               (delete "context_length"
                                  (delete "input_resolution"
                                     (example_state_dict (F := R))))));
                     EvEval] |},
     Ok (eval example_built_model)).
Proof.
  apply (build_model_runs (RT := shape_runtime) true (Some float16)
           (example_world (F := R))
           (LInt 12) 768%Z (Some 16%Z) 224%Z 512%Z 77%Z 49408%Z 512%Z 8%Z 1%Z
           [EvVisual (visual example_built_model);
            EvText (text_tower example_built_model)]
           example_built_model ∅ ∅).
  - vm_compute. reflexivity.
  - vm_compute. reflexivity.
  - reflexivity.
  - reflexivity.
  - reflexivity.
Qed.

(** C1 as stated fails: on the export of the base model, which carries
    the three metadata entries, the load removes all three of them, not
    two. *)
Lemma build_model_strips_three_keys :
  exists w' model,
    build_model_from_openai_state_dict (RT := shape_runtime)
      true (Some float16) (example_world (F := R)) = (w', Ok model)
    /\ Forall (fun k => is_Some (w_dict (example_world (F := R)) !! k)
                        /\ w_dict w' !! k = None)
              ["input_resolution"; "context_length"; "vocab_size"]
    /\ size (dom (w_dict (example_world (F := R))) ∖ dom (w_dict w'))
       = 3%nat.
Proof.
  eexists. eexists. split; [apply example_build_runs |].
  cbn [w_dict example_world]. split.
  - repeat constructor; try (vm_compute; eexists; reflexivity);
      vm_compute; reflexivity.
  - vm_compute. reflexivity.
Qed.

Lemma build_model_strips_metadata_witness :
  let w' := fst (build_model_from_openai_state_dict (RT := shape_runtime)
                   true (Some float16) (example_world (F := R))) in
  w_dict w' = delete "vocab_size"
                (delete "context_length"
                   (delete "input_resolution" example_state_dict))
  /\ (forall k, w_dict w' !! k
                = if bool_decide (k ∈ metadata_keys) then None
                  else example_state_dict !! k)
  /\ exists pre,
       w_log w' = [] ++ pre
                  ++ [EvDictPop "input_resolution";
                      EvDictPop "context_length";
                      EvDictPop "vocab_size";
                      EvConvertWeights float16;
                      EvLoadStateDict (dom (w_dict w'));
                      EvEval].
Proof.
  cbv zeta.
  apply (build_model_strips_metadata (RT := shape_runtime)
           true (Some float16) (example_world (F := R)) _
           (eval example_built_model)).
  rewrite example_build_runs. reflexivity.
Defined.

Lemma infer_vision_vit_base_witness :
  infer_vision (example_state_dict (F := R))
  = Ok (LInt 12, 768%Z, Some 16%Z, 224%Z).
Proof.
  apply (infer_vision_vit_base (RT := shape_runtime)
           (example_state_dict (F := R))
           (meta_tensor [768; 3; 16; 16]%nat)
           (meta_tensor [197; 768]%nat)).
  - exists (meta_tensor [768; 512]%nat). vm_compute. reflexivity.
  - vm_compute. reflexivity.
  - reflexivity.
  - reflexivity.
  - vm_compute. reflexivity.
  - vm_compute. reflexivity.
  - reflexivity.
Defined.


(** * Further properties of the code *)

(** ** Precision names *)

(** X1: the input dtype of a precision is its cast dtype whenever it has
    one; the two ``pure'' precisions have an input dtype and no cast
    dtype, and every other name has neither. *)
Theorem input_dtype_extends_cast_dtype (precision : string) :
  get_input_dtype precision
  = match get_cast_dtype precision with
    | Some d => Some d
    | None =>
        if String.eqb precision "pure_bf16" then Some bfloat16
        else if String.eqb precision "pure_fp16" then Some float16
        else None
    end.
Proof.
  unfold get_input_dtype, get_cast_dtype.
  destruct (String.eqb_spec precision "bf16") as [-> | _]; [reflexivity |].
  destruct (String.eqb_spec precision "fp16") as [-> | _]; [reflexivity |].
  cbn [orb].
  destruct (String.eqb precision "pure_bf16"); reflexivity.
Qed.

(** ** Construction *)

Section ConstructionFacts.
Context {F : Type} {SF : Scalar F}.

Lemma emit_run (e : Event (F := F)) (l l' : Log) u :
  emit e l = (l', Ok u) -> l' = l ++ [e].
Proof. unfold emit, modify. intros [= <-]. reflexivity. Qed.

(** A tower that has been built is the last entry of the log. *)
Lemma build_vision_tower_log embed_dim (cfg : CLIPVisionCfg F) o
    (l l' : Log) v :
  _build_vision_tower embed_dim cfg o l = (l', Ok v) ->
  l' = l ++ [EvVisual v].
Proof.
  unfold _build_vision_tower. intros Hrun.
  destruct (str_truthy (timm_model_name cfg)).
  - minv. apply emit_run in Hm. exact Hm.
  - destruct (layers cfg) as [n | stages].
    + minv. destruct (o_use_sparo o); apply emit_run in Hm1; exact Hm1.
    + minv. apply emit_run in Hm6. exact Hm6.
Qed.

Lemma build_text_tower_log embed_dim (cfg : CLIPTextCfg F) o
    (l l' : Log) t :
  _build_text_tower embed_dim cfg o l = (l', Ok t) ->
  l' = l ++ [EvText t].
Proof.
  unfold _build_text_tower. intros Hrun.
  destruct (str_truthy (hf_model_name cfg)).
  - minv. apply emit_run in Hm. exact Hm.
  - minv. destruct (o_use_sparo o); apply emit_run in Hm0; exact Hm0.
Qed.

(** X2: a construction that returns has created, in this order, the
    vision tower and the text tower of the model it returns, then the
    two bottleneck projections when a bottleneck is set, then the
    codebook and its two query models when the codebook is on; nothing
    else, and nothing that was in the log before is touched. *)
Theorem CLIP_init_creation_order (a : CLIPArgs F) (log log' : Log)
    (self : CLIP F) :
  CLIP_init a log = (log', Ok self) ->
  log' = log ++ [EvVisual (visual self); EvText (text_tower self)]
             ++ extra_objects a.
Proof.
  unfold CLIP_init. intros Hrun. minv.
  unfold extra_objects. cbn [mk_CLIP visual text_tower].
  destruct (a_bottleneck_dim a) as [b |], (a_use_codebook a); minv;
    repeat match goal with
      | Hx : emit _ _ = (_, Ok _) |- _ => apply emit_run in Hx
      | Hx : _build_vision_tower _ _ _ _ = (_, Ok _) |- _ =>
          apply build_vision_tower_log in Hx
      | Hx : _build_text_tower _ _ _ _ = (_, Ok _) |- _ =>
          apply build_text_tower_log in Hx
      end;
    subst; rewrite <- ?app_assoc; try rewrite app_nil_r; reflexivity.
Qed.

(** X3: a structured model built on the two transformer towers has the
    SPARO variant on both sides, and both are given the same slot
    arguments: the slot count of the request and the value width the
    model stores as [model_V], which is the nominal [V] plus one exactly
    when the mode tag ends in ``softmax'' (also for ``sqrtsoftmax'').
    Both towers emit at the bottleneck width when one is set, else at
    the embedding width. *)
Theorem CLIP_init_sparo_towers (a : CLIPArgs F) (log log' : Log)
    (self : CLIP F) :
  CLIP_init a log = (log', Ok self) -> a_use_sparo a = true ->
  str_truthy (timm_model_name (a_vision_cfg a)) = false ->
  str_truthy (hf_model_name (a_text_cfg a)) = false ->
  exists va ta s,
    visual self = SPAROVisionTransformer va s
    /\ text_tower self = SPAROTextTransformer ta s
    /\ sp_L s = a_L a /\ L self = a_L a
    /\ sp_V s = model_V self
    /\ model_V self = (if endswith (a_sparo_type a) "softmax"
                       then option_map S (a_V a) else a_V a)
    /\ vt_output_dim va = or_else (a_bottleneck_dim a) (a_embed_dim a)
    /\ tt_output_dim ta = or_else (a_bottleneck_dim a) (a_embed_dim a).
Proof.
  unfold CLIP_init. intros Hrun Hs Ht Hh.
  apply bind_ok in Hrun. destruct Hrun as (l0 & u & _ & Hrun).
  apply bind_ok in Hrun. destruct Hrun as (l1 & mV & HmV & Hrun).
  apply lift_ok in HmV. destruct HmV as [HmV ->].
  apply bind_ok in Hrun. destruct Hrun as (l2 & vis & Hvis & Hrun).
  apply bind_ok in Hrun. destruct Hrun as (l3 & txt & Htxt & Hrun).
  minv. cbn [mk_CLIP visual text_tower model_V L].
  rewrite Hs in HmV. cbn [negb orb] in HmV.
  assert (HmV' : mV = if endswith (a_sparo_type a) "softmax"
                      then option_map S (a_V a) else a_V a).
  { destruct (endswith (a_sparo_type a) "softmax"); cbn [negb] in HmV.
    - destruct (a_V a); simpl in HmV; [| discriminate HmV].
      now injection HmV as <-.
    - now injection HmV as <-. }
  unfold _build_vision_tower in Hvis. rewrite Ht in Hvis.
  unfold _build_text_tower in Htxt. rewrite Hh in Htxt.
  destruct (layers (a_vision_cfg a)) as [n | stages].
  - minv. cbn [tower_opts o_use_sparo] in *. rewrite Hs in *.
    minv. eexists _, _, _. repeat split; reflexivity.
  - minv. cbn [tower_opts o_use_sparo] in *. rewrite Hs in *.
    discriminate.
Qed.

(** X4: the residual backbone does not take the structured mode: with
    a tuple of layer counts, no named backbone and [use_sparo] set, the
    construction raises the factory's [AssertionError] before anything
    is created (the request being otherwise admissible: no codebook, and
    a value width when the tag needs one more). *)
Theorem CLIP_init_residual_rejects_sparo (a : CLIPArgs F) (log : Log)
    (stages : list Z) :
  str_truthy (timm_model_name (a_vision_cfg a)) = false ->
  layers (a_vision_cfg a) = LTuple stages ->
  a_use_sparo a = true -> a_use_codebook a = false ->
  is_Some (a_V a) ->
  CLIP_init a log = (log, Raise AssertionError).
Proof.
  intros Ht Hl Hs Hc [v Hv]. unfold CLIP_init, bind, lift.
  rewrite Hs, Hc, Hv. cbn [andb negb orb succ_opt].
  destruct (endswith (a_sparo_type a) "softmax"); cbn [negb];
    unfold _build_vision_tower; rewrite Ht, Hl;
    unfold bind, lift; cbn [tower_opts o_use_sparo]; rewrite Hs;
    reflexivity.
Qed.

(** X5: a timm backbone takes precedence over the structured mode, on
    the vision side only.  A construction with a timm model name, a
    text transformer of its own and [use_sparo] that returns holds the
    timm adapter, which has been told nothing about slots, beside the
    SPARO text transformer with the slot count and value width of the
    model, and keeps [use_sparo] set. *)
Theorem CLIP_init_timm_keeps_text_sparo (a : CLIPArgs F) (log log' : Log)
    (self : CLIP F) :
  CLIP_init a log = (log', Ok self) ->
  str_truthy (timm_model_name (a_vision_cfg a)) = true ->
  str_truthy (hf_model_name (a_text_cfg a)) = false ->
  a_use_sparo a = true ->
  exists ta tta s,
    visual self = TimmModel ta
    /\ tm_name ta = timm_model_name (a_vision_cfg a)
    /\ text_tower self = SPAROTextTransformer tta s
    /\ sp_L s = a_L a /\ sp_V s = model_V self
    /\ use_sparo self = true.
Proof.
  unfold CLIP_init. intros Hrun Ht Hh Hs.
  apply bind_ok in Hrun. destruct Hrun as (l0 & u & _ & Hrun).
  apply bind_ok in Hrun. destruct Hrun as (l1 & mV & _ & Hrun).
  apply bind_ok in Hrun. destruct Hrun as (l2 & vis & Hvis & Hrun).
  apply bind_ok in Hrun. destruct Hrun as (l3 & txt & Htxt & Hrun).
  minv. cbn [mk_CLIP visual text_tower model_V use_sparo].
  unfold _build_vision_tower in Hvis. rewrite Ht in Hvis.
  unfold _build_text_tower in Htxt. rewrite Hh in Htxt.
  minv. cbn [tower_opts o_use_sparo] in *. rewrite Hs.
  eexists _, _, _. repeat split; reflexivity.
Qed.

(** X6: [CustomTextCLIP] builds its towers exactly as [CLIP] does when
    [CLIP] is given none of its optional flags and the text tower is a
    transformer of its own: the same objects are created in the same
    order, the same error is raised if one is, and the models that come
    back hold the same two towers. *)
Theorem CustomTextCLIP_same_towers (embed_dim : Z)
    (vision_cfg : CLIPVisionCfg F) (text_cfg : CLIPTextCfg F)
    (quick_gelu : bool) (cast_dtype : option DType) (output_dict : bool)
    (log : Log) :
  str_truthy (hf_model_name text_cfg) = false ->
  let plain := CLIP_init (CLIPArgs_default embed_dim vision_cfg text_cfg
                            quick_gelu cast_dtype) log in
  let custom := CustomTextCLIP_init embed_dim vision_cfg text_cfg
                  quick_gelu cast_dtype output_dict log in
  fst plain = fst custom
  /\ match snd plain, snd custom with
     | Ok m, Ok c => visual m = cc_visual c /\ text_tower m = cc_text c
     | Raise e, Raise e' => e = e'
     | _, _ => False
     end.
Proof.
  intros _. cbv zeta.
  assert (Hopts : tower_opts (CLIPArgs_default embed_dim vision_cfg
                                text_cfg quick_gelu cast_dtype) None
                  = factory_defaults quick_gelu cast_dtype)
    by reflexivity.
  unfold CLIP_init, CustomTextCLIP_init, bind, lift, ret.
  cbn -[_build_vision_tower _build_text_tower tower_opts factory_defaults
        mk_CLIP].
  rewrite !Hopts.
  destruct (_build_vision_tower _ _ _ log) as [l1 [v | e]]; cbn [fst snd].
  - destruct (_build_text_tower _ _ _ l1) as [l2 [t | e]]; cbn; auto.
  - auto.
Qed.
End ConstructionFacts.

(** *** At concrete requests *)

Lemma CLIP_init_creation_order_witness :
  let a := example_sparo_args (F := R) "cont:const" 4 2 in
  let m := example_sparo_model (F := R) "cont:const" 4 2 in
  fst (CLIP_init a []) = [] ++ [EvVisual (visual m); EvText (text_tower m)]
                            ++ extra_objects a.
Proof.
  cbv zeta.
  apply (CLIP_init_creation_order _ [] _
           (example_sparo_model (F := R) "cont:const" 4 2)).
  reflexivity.
Defined.

Lemma CLIP_init_sparo_towers_witness :
  let m := example_sparo_model (F := R) "cont:softmax" 4 2 in
  exists va ta s,
    visual m = SPAROVisionTransformer va s
    /\ text_tower m = SPAROTextTransformer ta s
    /\ sp_L s = Some 4%nat /\ L m = Some 4%nat
    /\ sp_V s = model_V m
    /\ model_V m = Some 3%nat
    /\ vt_output_dim va = 512%Z /\ tt_output_dim ta = 512%Z.
Proof.
  cbv zeta.
  apply (CLIP_init_sparo_towers
           (example_sparo_args (F := R) "cont:softmax" 4 2) []
           (fst (CLIP_init (example_sparo_args (F := R) "cont:softmax" 4 2)
                           []))
           (example_sparo_model (F := R) "cont:softmax" 4 2));
    reflexivity.
Defined.

Lemma CLIP_init_residual_rejects_sparo_witness :
  CLIP_init (example_residual_sparo_args (F := R)) []
  = ([], Raise AssertionError).
Proof.
  apply (CLIP_init_residual_rejects_sparo
           (example_residual_sparo_args (F := R)) [] [3; 4; 6; 3]%Z);
    try reflexivity.
  eexists; reflexivity.
Defined.

Lemma CLIP_init_timm_keeps_text_sparo_witness :
  let a := example_timm_args (F := R) in
  let self := match snd (CLIP_init a []) with
              | Ok m => m
              | Raise _ => example_sparo_model "cont:const" 4 2
              end in
  exists ta tta s,
    visual self = TimmModel ta
    /\ tm_name ta = Some "vit_base_patch16_224"
    /\ text_tower self = SPAROTextTransformer tta s
    /\ sp_L s = Some 4%nat /\ sp_V s = model_V self
    /\ use_sparo self = true.
Proof.
  cbv zeta.
  apply (CLIP_init_timm_keeps_text_sparo (example_timm_args (F := R)) []
           (fst (CLIP_init (example_timm_args (F := R)) [])));
    reflexivity.
Defined.

Lemma CustomTextCLIP_same_towers_witness :
  let plain := CLIP_init (CLIPArgs_default (F := R) 512 CLIPVisionCfg_default
                            CLIPTextCfg_default false None) [] in
  let custom := CustomTextCLIP_init (F := R) 512 CLIPVisionCfg_default
                  CLIPTextCfg_default false None false [] in
  fst plain = fst custom
  /\ match snd plain, snd custom with
     | Ok m, Ok c => visual m = cc_visual c /\ text_tower m = cc_text c
     | Raise e, Raise e' => e = e'
     | _, _ => False
     end.
Proof.
  apply (CustomTextCLIP_same_towers (F := R) 512 CLIPVisionCfg_default
           CLIPTextCfg_default false None false []).
  reflexivity.
Defined.

(** ** Slot decomposition: which tags, what shape *)

Section TagFacts.
Context {F : Type} {SF : Scalar F}.

(** X7: once the input has been viewed as slots and the tag split at
    its colon, the decomposition returns exactly for the supported
    pairs: an unsupported pair raises [NotImplementedError] (``sem''
    under ``norm'' included), a supported one returns, the ``norm''
    weighting needing in addition that no leading axis is empty (its
    full norm is taken on a view with an inferred size). *)
Theorem project_supported_tags (self : CLIP F) (x : Tensor F)
    (xs : Slotted F) (rep norm_type : string) :
  view_slots (L self) (model_V self) x = Ok xs ->
  split_tag (sparo_type self) = Ok (rep, norm_type) ->
  (tag_supported rep norm_type = false ->
   _project_for_sparo self x = Raise NotImplementedError)
  /\ (tag_supported rep norm_type = true ->
      (norm_type = "norm" -> numel_of (s_lead xs) <> O) ->
      exists out, _project_for_sparo self x = Ok out)
  /\ (tag_supported rep norm_type = true -> norm_type = "norm" ->
      numel_of (s_lead xs) = O ->
      exists msg, _project_for_sparo self x = Raise (RuntimeError msg)).
Proof.
  intros Hview Hsplit.
  destruct (view_slots_inv _ _ _ _ Hview) as (l & v & HL & HV & _ & Hxs).
  unfold _project_for_sparo, tag_supported, drops_channel, rep_known.
  rewrite Hview, Hsplit. cbn [rbind].
  rewrite HL.
  destruct (String.eqb_spec norm_type "sqrtsoftmax") as [-> | N1];
    [| destruct (String.eqb_spec norm_type "softmax") as [-> | N2];
       [| destruct (String.eqb_spec norm_type "norm") as [-> | N3];
          [| destruct (String.eqb_spec norm_type "const") as [-> | N4]]]];
    cbn [orb andb rbind String.eqb Ascii.eqb Bool.eqb];
    destruct (String.eqb rep "cont"), (String.eqb rep "sqrtsem"),
      (String.eqb rep "sem");
    cbn [orb andb rbind];
    try (repeat split; intros; try discriminate; try congruence;
         try (eexists; reflexivity); fail).
  all: unfold flatten_slots; cbn [smap s_lead];
    destruct (Nat.eqb_spec (numel_of (s_lead xs)) 0) as [H0 | H0];
    cbn [rbind];
    repeat split; intros; try discriminate; try congruence;
    try (eexists; reflexivity);
    try (exfalso;
         match goal with
         | Hn : _ = _ -> _ <> _ |- _ => apply (Hn eq_refl); assumption
         end).
Qed.
End TagFacts.

Section ShapeFacts.
Context {F : Type} {SF : Scalar F}.

Lemma view_slots_wf (Lo Vo : option nat) (x : Tensor F) (xs : Slotted F) :
  view_slots Lo Vo x = Ok xs -> tensor_wf x -> slotted_wf xs.
Proof.
  intros Hview Hwf.
  destruct (view_slots_inv _ _ _ _ Hview) as (l & v & _ & _ & Hnum & ->).
  unfold slotted_wf. cbn [s_mats s_lead s_rows s_cols].
  rewrite length_map, take_chunks_length. split; [reflexivity |].
  rewrite List.Forall_map.
  eapply Forall_impl;
    [apply take_chunks_rows; unfold tensor_wf in Hwf;
     rewrite Hwf, <- Hnum; apply Nat.le_refl |].
  intros b Hb. cbv beta in Hb |- *.
  rewrite take_chunks_length. split; [reflexivity |].
  apply take_chunks_rows. rewrite Hb. apply Nat.le_refl.
Qed.

(** A row-wise map keeps the shape when it maps rows of [c] values to
    rows of [c'] values. *)
Lemma smap_rows_wf (c c' : nat) (g : list F -> list F) (x : Slotted F) :
  slotted_wf x -> s_cols x = c ->
  (forall r, length r = c -> length (g r) = c') ->
  slotted_wf (smap c' (map g) x).
Proof.
  intros [Hn Hm] Hc Hg. unfold slotted_wf, smap.
  cbn [s_mats s_lead s_rows s_cols]. rewrite length_map.
  split; [exact Hn |]. rewrite List.Forall_map.
  eapply Forall_impl; [exact Hm |].
  intros m [Hrows Hcols]. cbv beta. rewrite length_map.
  split; [exact Hrows |]. rewrite List.Forall_map.
  eapply Forall_impl; [exact Hcols |].
  intros r Hr. cbv beta. apply Hg. now rewrite Hr.
Qed.

Lemma colsum_length (k : nat) (m : Mat F) :
  Forall (fun r => length r = k) m -> length (colsum k m) = k.
Proof.
  unfold colsum. induction 1 as [| r m Hr _ IH]; simpl.
  - apply repeat_length.
  - rewrite length_zip_with, Hr, IH. apply Nat.min_id.
Qed.

(** A block-wise map that scales every row by one list of [k] column
    factors keeps the shape. *)
Lemma zip_rows_length (k : nat) (op : F -> F -> F) (s : list F) (m : Mat F) :
  length s = k -> Forall (fun r => length r = k) m ->
  Forall (fun r => length r = k) (map (fun r => zip_with op r s) m).
Proof.
  intros Hs Hm. rewrite List.Forall_map.
  eapply Forall_impl; [exact Hm |]. intros r Hr. cbv beta.
  rewrite length_zip_with, Hr, Hs. apply Nat.min_id.
Qed.

Lemma softmax_dim2_rows (k : nat) (m : Mat F) :
  Forall (fun r => length r = k) m ->
  length (softmax_dim2 k m) = length m
  /\ Forall (fun r => length r = k) (softmax_dim2 k m).
Proof.
  intros Hm. unfold softmax_dim2.
  assert (He : Forall (fun r => length r = k) (map (map fexp) m)).
  { rewrite List.Forall_map. eapply Forall_impl; [exact Hm |].
    intros r Hr. cbv beta. now rewrite length_map. }
  split; [now rewrite !length_map |].
  apply zip_rows_length; [apply colsum_length; exact He | exact He].
Qed.

Lemma normalize_dim2_rows (k : nat) (m : Mat F) :
  Forall (fun r => length r = k) m ->
  length (normalize_dim2 k m) = length m
  /\ Forall (fun r => length r = k) (normalize_dim2 k m).
Proof.
  intros Hm. unfold normalize_dim2, norm_dim2.
  split; [now rewrite !length_map |].
  apply zip_rows_length; [| exact Hm].
  rewrite !length_map. apply colsum_length.
  rewrite List.Forall_map. eapply Forall_impl; [exact Hm |].
  intros r Hr. cbv beta. now rewrite length_map.
Qed.

(** Block-wise maps that keep the number of rows and produce rows of
    [c'] values. *)
Lemma smap_blocks_wf (c' : nat) (g : Mat F -> Mat F) (x : Slotted F) :
  slotted_wf x ->
  (forall m, length m = s_rows x ->
             Forall (fun r => length r = s_cols x) m ->
             length (g m) = s_rows x
             /\ Forall (fun r => length r = c') (g m)) ->
  slotted_wf (smap c' g x).
Proof.
  intros [Hn Hm] Hg. unfold slotted_wf, smap.
  cbn [s_mats s_lead s_rows s_cols]. rewrite length_map.
  split; [exact Hn |]. rewrite List.Forall_map.
  eapply Forall_impl; [exact Hm |].
  intros m [Hrows Hcols]. cbv beta. apply Hg; assumption.
Qed.

Lemma first_channel_wf (x : Slotted F) :
  slotted_wf x -> slotted_wf (first_channel x).
Proof.
  intros Hx. unfold first_channel.
  apply (smap_rows_wf (s_cols x)); [exact Hx | reflexivity |].
  intros r Hr. rewrite length_firstn, Hr. reflexivity.
Qed.

Lemma drop_channel_wf (x : Slotted F) :
  slotted_wf x -> slotted_wf (drop_channel x).
Proof.
  intros Hx. unfold drop_channel.
  apply (smap_rows_wf (s_cols x)); [exact Hx | reflexivity |].
  intros r Hr. rewrite length_skipn, Hr. reflexivity.
Qed.

Lemma bcast_row_length (op : F -> F -> F) (r w : list F) (a b : nat) :
  length r = a -> length w = b -> b = 1%nat \/ a = b ->
  length (bcast_row op r w) = bcast_dim a b.
Proof.
  intros Hr Hw Hab. unfold bcast_row, bcast_dim.
  destruct w as [| c [| c' w]]; simpl in Hw; subst b.
  - destruct Hab as [Hab | Hab]; [discriminate |].
    destruct r; [subst a; reflexivity | simpl in *; lia].
  - simpl. now rewrite length_map.
  - destruct Hab as [Hab | Hab]; [discriminate |].
    destruct r as [| x [| x' r]]; simpl in *; try lia.
    subst a. injection Hab as Hab.
    rewrite length_zip_with, Hab, Nat.min_id. reflexivity.
Qed.

(** The product with broadcasting of two values of equal leading and
    slot sizes. *)
Lemma bcast_last_wf (op : F -> F -> F) (a b : Slotted F) :
  slotted_wf a -> slotted_wf b ->
  s_lead b = s_lead a -> s_rows b = s_rows a ->
  s_cols b = 1%nat \/ s_cols a = s_cols b ->
  slotted_wf (bcast_last op a b).
Proof.
  intros [Hna Hma] [Hnb Hmb] Hlead Hrows Hcols.
  unfold slotted_wf, bcast_last. cbn [s_mats s_lead s_rows s_cols].
  assert (Hlen : length (s_mats a) = length (s_mats b)).
  { etransitivity; [exact Hna |]. rewrite <- Hlead. symmetry. exact Hnb. }
  split.
  { rewrite length_zip_with. etransitivity; [| exact Hna].
    apply Nat.min_l, Nat.eq_le_incl, Hlen. }
  revert Hma Hmb Hlen. generalize (s_mats a) (s_mats b).
  induction l as [| ma la IH]; intros [| mb lb] Hma Hmb Hlen;
    simpl in *; try constructor; try discriminate.
  - inversion Hma as [| ? ? [Hra Hca] Hma']; subst.
    inversion Hmb as [| ? ? [Hrb Hcb] Hmb']; subst.
    assert (Hl2 : length ma = length mb) by congruence.
    split.
    { rewrite length_zip_with. etransitivity; [| exact Hra].
      apply Nat.min_l, Nat.eq_le_incl, Hl2. }
    clear - Hca Hcb Hl2 Hcols.
    revert mb Hcb Hl2. induction Hca as [| r ma Hr _ IHr];
      intros [| w mb] Hcb Hl2; simpl in *; try constructor;
      try discriminate.
    + inversion Hcb; subst. apply bcast_row_length; assumption.
    + inversion Hcb; subst. apply IHr; [assumption | congruence].
  - inversion Hma; inversion Hmb; subst. apply IH; try assumption.
    congruence.
Qed.

Lemma bcast_dim_keep (a b : nat) :
  b = 1%nat \/ a = b -> bcast_dim a b = a.
Proof.
  unfold bcast_dim. intros [-> | <-]; [reflexivity |].
  destruct (Nat.eqb_spec a 1); [congruence | now destruct (a =? 1)%nat].
Qed.

Lemma sqrtsoftmax_weights_wf (x : Slotted F) :
  slotted_wf x -> slotted_wf (sqrtsoftmax_weights x).
Proof.
  intros Hx. unfold sqrtsoftmax_weights. cbv zeta.
  apply smap_blocks_wf; [apply first_channel_wf, Hx |].
  intros m Hrows Hcols.
  destruct (softmax_dim2_rows _ _ Hcols) as [Hl Hr].
  rewrite length_map, Hl. split; [exact Hrows |].
  rewrite List.Forall_map. eapply Forall_impl; [exact Hr |].
  intros r Hlen. cbv beta. now rewrite length_map.
Qed.

Lemma softmax_weights_wf (x : Slotted F) :
  slotted_wf x -> slotted_wf (softmax_weights x).
Proof.
  intros Hx. unfold softmax_weights. cbv zeta.
  apply smap_blocks_wf; [apply first_channel_wf, Hx |].
  intros m Hrows Hcols.
  destruct (softmax_dim2_rows _ _ Hcols) as [Hl Hr].
  destruct (normalize_dim2_rows _ _ Hr) as [Hl' Hr'].
  rewrite Hl', Hl. split; [exact Hrows | exact Hr'].
Qed.

Lemma norm_weights_wf (x : Slotted F) :
  slotted_wf x -> slotted_wf (norm_weights x).
Proof.
  intros Hx. unfold norm_weights.
  apply smap_blocks_wf; [exact Hx |].
  intros m Hrows Hcols. rewrite length_map. split; [exact Hrows |].
  rewrite List.Forall_map. apply List.Forall_forall. reflexivity.
Qed.

Lemma const_weights_wf (l : nat) (x : Slotted F) :
  slotted_wf x -> slotted_wf (const_weights l x).
Proof.
  intros Hx. unfold const_weights. cbv zeta.
  apply (smap_rows_wf (s_cols (first_channel x)));
    [apply first_channel_wf, Hx | reflexivity |].
  intros r Hr. now rewrite length_map.
Qed.

(** The shape of a representation, computed row by row without
    changing any row's length, times weights of one column. *)
Lemma weighted_rep_shape (x w : Slotted F) (g : list F -> list F) :
  slotted_wf x -> slotted_wf w ->
  s_lead w = s_lead x -> s_rows w = s_rows x ->
  s_cols w = 1%nat \/ s_cols x = s_cols w ->
  (forall r, length (g r) = length r) ->
  let out := bcast_last fmul (smap (s_cols x) (map g) x) w in
  slotted_wf out /\ s_dtype out = s_dtype x /\ s_lead out = s_lead x
  /\ s_rows out = s_rows x /\ s_cols out = s_cols x.
Proof.
  intros Hx Hw Hlead Hrows Hcols Hg out. subst out.
  split; [| repeat split; cbn [bcast_last smap s_cols];
            apply bcast_dim_keep, Hcols].
  apply bcast_last_wf; try assumption.
  apply (smap_rows_wf (s_cols x)); [exact Hx | reflexivity |].
  intros r Hr. now rewrite Hg.
Qed.

(** The shape of a result, in terms of the viewed input. *)
Lemma project_shape_of_view (self : CLIP F) (x : Tensor F)
    (xs out : Slotted F) (rep norm_type : string) :
  view_slots (L self) (model_V self) x = Ok xs -> slotted_wf xs ->
  split_tag (sparo_type self) = Ok (rep, norm_type) ->
  _project_for_sparo self x = Ok out ->
  tag_supported rep norm_type = true
  /\ slotted_wf out
  /\ s_dtype out = s_dtype xs
  /\ s_lead out = s_lead xs
  /\ s_rows out = s_rows xs
  /\ s_cols out = (if drops_channel norm_type
                   then s_cols xs - 1 else s_cols xs)%nat.
Proof.
  intros Hview Hxs Hsplit.
  unfold _project_for_sparo, tag_supported, rep_known, drops_channel.
  rewrite Hview, Hsplit. cbn [rbind].
  destruct (String.eqb_spec norm_type "sqrtsoftmax") as [-> | N1];
    [| destruct (String.eqb_spec norm_type "softmax") as [-> | N2];
       [| destruct (String.eqb_spec norm_type "norm") as [-> | N3];
          [| destruct (String.eqb_spec norm_type "const") as [-> | N4]]]];
    cbn [orb andb rbind String.eqb Ascii.eqb Bool.eqb];
    destruct (String.eqb rep "cont"), (String.eqb rep "sqrtsem"),
      (String.eqb rep "sem");
    cbn [orb andb rbind]; try discriminate;
    try (unfold flatten_slots; cbn [smap s_lead];
         destruct (numel_of (s_lead xs) =? 0)%nat; cbn [rbind];
         try discriminate);
    try (destruct (L self) as [l |]; cbn [rbind]; [| discriminate]);
    intros [= <-].
  all: split; [reflexivity |].
  all: match goal with
       | |- context [bcast_last fmul (smap _ (map ?g) ?x') ?w] =>
           destruct (weighted_rep_shape x' w g) as (W & D & A & B & C);
           [ first [exact Hxs | apply drop_channel_wf, Hxs]
           | first [ apply sqrtsoftmax_weights_wf, Hxs
                   | apply softmax_weights_wf, Hxs
                   | apply const_weights_wf, Hxs
                   | apply norm_weights_wf;
                     first [ exact Hxs
                           | apply (smap_rows_wf (s_cols xs));
                             [exact Hxs | reflexivity
                             | intros r Hlen; now rewrite length_map]]]
           | reflexivity
           | reflexivity
           | unfold sqrtsoftmax_weights, softmax_weights, const_weights,
               norm_weights, first_channel, drop_channel;
             cbn [s_cols smap]; lia
           | intros r; rewrite ?length_map, ?F_normalize_length,
               ?F_softmax_length; reflexivity
           | split; [exact W | split; [exact D | split; [exact A |
               split; [exact B | exact C]]]] ]
       end.
Qed.

(** X8.  What [_project_for_sparo] returns has the leading sizes of its
    input, [L] slots, and [V] values per slot under the ``norm'' and
    ``const'' weightings, one less under the two softmax weightings
    (the first channel is consumed by the weights); its data has
    exactly that many blocks, rows and columns. *)
Theorem project_output_shape (self : CLIP F) (x : Tensor F)
    (l v : nat) (rep norm_type : string) (out : Slotted F) :
  L self = Some l -> model_V self = Some v ->
  split_tag (sparo_type self) = Ok (rep, norm_type) ->
  tensor_wf x ->
  _project_for_sparo self x = Ok out ->
  slotted_wf out
  /\ s_dtype out = t_dtype x
  /\ s_lead out = removelast (t_shape x)
  /\ s_rows out = l
  /\ s_cols out = (if drops_channel norm_type then v - 1 else v)%nat.
Proof.
  intros HL HV Hsplit Hwf Hout.
  destruct (view_slots (L self) (model_V self) x) as [xs | e] eqn:Hview;
    [| unfold _project_for_sparo in Hout; rewrite Hview in Hout;
       discriminate Hout].
  pose proof (view_slots_wf _ _ _ _ Hview Hwf) as Hxs.
  destruct (project_shape_of_view _ _ _ _ _ _ Hview Hxs Hsplit Hout)
    as (_ & W & D & A & B & C).
  destruct (view_slots_inv _ _ _ _ Hview) as (l' & v' & HL' & HV' & _ & Hshape).
  assert (l' = l) by congruence. assert (v' = v) by congruence.
  subst l' v' xs. cbn [s_dtype s_lead s_rows s_cols] in *.
  split; [exact W | split; [exact D | split; [exact A |
    split; [exact B | exact C]]]].
Qed.
End ShapeFacts.

Lemma project_supported_tags_witness :
  (exists out,
     _project_for_sparo (example_sparo_model (F := R) "sem:softmax" 4 1)
                        example_vector = Ok out)
  /\ _project_for_sparo (example_sparo_model (F := R) "raw:softmax" 4 1)
                        example_vector = Raise NotImplementedError.
Proof.
  split.
  - eapply (proj1 (proj2 (project_supported_tags
                     (example_sparo_model (F := R) "sem:softmax" 4 1)
                     example_vector _ "sem" "softmax" eq_refl eq_refl)));
      [reflexivity | discriminate].
  - eapply (proj1 (project_supported_tags
                     (example_sparo_model (F := R) "raw:softmax" 4 1)
                     example_vector _ "raw" "softmax" eq_refl eq_refl)).
    reflexivity.
Defined.

Lemma project_output_shape_witness :
  exists out,
    _project_for_sparo (example_sparo_model (F := R) "sem:softmax" 4 1)
                       example_vector = Ok out
    /\ slotted_wf out /\ s_dtype out = float32 /\ s_lead out = []
    /\ s_rows out = 4%nat /\ s_cols out = 1%nat.
Proof.
  eexists. split; [reflexivity |].
  apply (project_output_shape
           (example_sparo_model (F := R) "sem:softmax" 4 1)
           example_vector 4 2 "sem" "softmax" _
           eq_refl eq_refl eq_refl eq_refl eq_refl).
Defined.

(** ** The decomposition returns unit vectors *)

Section UnitNorm.
Local Open Scope R_scope.

Lemma vsum_cons (a : R) (v : list R) : vsum (a :: v) = a + vsum v.
Proof. reflexivity. Qed.

Lemma vsum_app (a b : list R) : vsum (a ++ b) = vsum a + vsum b.
Proof.
  induction a as [| c a IH]; simpl; real_ops; [lra | rewrite IH; lra].
Qed.

Lemma vsum_sq_scale (c : R) (r : list R) :
  vsum (map sq (map (fun a => a * c) r)) = c * c * vsum (map sq r).
Proof.
  induction r as [| a r IH]; simpl; real_ops; [lra |].
  rewrite IH. unfold sq; real_ops. ring.
Qed.

Lemma sqrt_one_inv (q : R) : 0 <= q -> sqrt q = 1 -> q = 1.
Proof.
  intros Hq Hs. rewrite <- (sqrt_sqrt q Hq), Hs. lra.
Qed.

(** Rows of unit norm, each scaled by its weight: the squares of the
    block add up to the squares of the weights. *)
Lemma weighted_block_sq (rs : Mat R) (wv : list R) :
  length rs = length wv ->
  Forall (fun r => vsum (map sq r) = 1) rs ->
  vsum (map sq (concat (zip_with (bcast_row fmul) rs (column wv))))
  = vsum (map sq wv).
Proof.
  revert wv. induction rs as [| r rs IH]; intros [| w wv] Hlen Hrs;
    try discriminate; [reflexivity |].
  inversion Hrs as [| ? ? Hr Hrs']; subst.
  change (column (w :: wv)) with ([w] :: column wv).
  cbn [zip_with concat bcast_row]. real_ops.
  rewrite map_app, vsum_app, vsum_sq_scale, Hr.
  rewrite IH by (try assumption; simpl in Hlen; congruence).
  simpl; real_ops. unfold sq; real_ops. ring.
Qed.

Lemma block_unit (rs : Mat R) (wv : list R) :
  length rs = length wv ->
  Forall (fun r => vsum (map sq r) = 1) rs ->
  vsum (map sq wv) = 1 ->
  l2norm (concat (zip_with (bcast_row fmul) rs (column wv))) = 1.
Proof.
  intros Hlen Hrs Hw. unfold l2norm. real_ops.
  rewrite weighted_block_sq, Hw by assumption. apply sqrt_1.
Qed.

(** *** The three representations *)

Lemma normalize_unit (r : list R) :
  f_eps <= l2norm r -> vsum (map sq (F_normalize r)) = 1.
Proof.
  intros Heps. unfold F_normalize. real_ops.
  rewrite Rmax_left by exact Heps. rewrite vsum_sq_div.
  rewrite eps_value in Heps. unfold l2norm in *. real_ops.
  pose proof (vsum_sq_nonneg r) as Hq.
  set (q := vsum (map sq r)) in *.
  assert (Hpos : 0 < sqrt q).
  { apply Rlt_le_trans with (/ 10 ^ 12); [| exact Heps].
    apply Rinv_0_lt_compat. lra. }
  rewrite sqrt_sqrt by exact Hq.
  assert (q <> 0) by (intros ->; rewrite sqrt_0 in Hpos; lra).
  now field.
Qed.

Lemma softmax_nonneg (v : list R) : Forall (fun p => 0 <= p) (F_softmax v).
Proof.
  destruct v as [| a v]; [constructor |].
  pose proof (vsum_exp_pos (a :: v) ltac:(discriminate)) as Hs.
  unfold F_softmax. real_ops. rewrite !List.Forall_map.
  apply List.Forall_forall. intros b _.
  apply Rlt_le, Rdiv_lt_0_compat; [apply exp_pos | exact Hs].
Qed.

Lemma vsum_sq_sqrt (p : list R) :
  Forall (fun a => 0 <= a) p -> vsum (map sq (map sqrt p)) = vsum p.
Proof.
  induction 1 as [| a p Ha _ IH]; simpl; real_ops; [reflexivity |].
  rewrite IH. unfold sq; real_ops. now rewrite sqrt_sqrt.
Qed.

Lemma sqrt_softmax_unit (r : list R) :
  r <> [] -> vsum (map sq (map sqrt (F_softmax r))) = 1.
Proof.
  intros Hr. rewrite vsum_sq_sqrt by apply softmax_nonneg.
  apply softmax_sums_to_one, Hr.
Qed.

Lemma normalize_softmax_unit (r : list R) :
  r <> [] -> INR (length r) <= 10 ^ 24 ->
  vsum (map sq (F_normalize (F_softmax r))) = 1.
Proof.
  intros Hr Hlen. apply sqrt_one_inv; [apply vsum_sq_nonneg |].
  apply (l2norm_normalize_softmax r Hr Hlen).
Qed.

(** *** The four weightings *)

Lemma vsum_sq_const (c : R) {A} (v : list A) :
  vsum (map sq (map (fun _ => c) v)) = INR (length v) * (c * c).
Proof.
  induction v as [| a v IH].
  - simpl; real_ops. lra.
  - change (length (a :: v)) with (S (length v)). rewrite S_INR.
    simpl; real_ops. rewrite IH. unfold sq; real_ops. ring.
Qed.

Lemma const_weights_unit (l : nat) {A} (v : list A) :
  length v = l -> (0 < l)%nat ->
  vsum (map sq (map (fun _ => sqrt (1 / INR l)) v)) = 1.
Proof.
  intros Hlen Hl. rewrite vsum_sq_const, Hlen.
  assert (Hpos : 0 < INR l) by (apply lt_0_INR; exact Hl).
  rewrite sqrt_sqrt.
  - field. lra.
  - apply Rlt_le, Rdiv_lt_0_compat; lra.
Qed.

Lemma vsum_sq_concat (m : Mat R) :
  vsum (map sq (concat m)) = vsum (map (fun r => vsum (map sq r)) m).
Proof.
  induction m as [| r m IH]; simpl; [reflexivity |].
  rewrite map_app, vsum_app, IH. real_ops. reflexivity.
Qed.

Lemma vsum_norm_ratio (n : R) (m : Mat R) :
  vsum (map sq (map (fun r => l2norm r / n) m))
  = vsum (map (fun r => vsum (map sq r)) m) / (n * n).
Proof.
  induction m as [| r m IH].
  - simpl; real_ops. unfold Rdiv. now rewrite Rmult_0_l.
  - rewrite !map_cons, !vsum_cons, IH. unfold sq at 1, l2norm; real_ops.
    pose proof (vsum_sq_nonneg r) as Hq.
    set (q := vsum (map sq r)) in *.
    destruct (Req_dec n 0) as [-> | Hn].
    + unfold Rdiv. rewrite Rmult_0_l, Rinv_0. ring.
    + replace (sqrt q / n * (sqrt q / n)) with (sqrt q * sqrt q / (n * n))
        by (field; exact Hn).
      rewrite sqrt_sqrt by exact Hq. field. exact Hn.
Qed.

Lemma norm_weights_unit (m : Mat R) :
  0 < vsum (map sq (concat m)) ->
  vsum (map sq (map (fun r => l2norm r / l2norm (concat m)) m)) = 1.
Proof.
  intros Hpos. rewrite vsum_norm_ratio. unfold l2norm at 1 2. real_ops.
  rewrite sqrt_sqrt by lra. rewrite <- vsum_sq_concat. field. lra.
Qed.

Lemma column_length (v : list R) : length (column v) = length v.
Proof. unfold column. apply length_map. Qed.

Lemma map_column (f : R -> R) (v : list R) :
  map (map f) (column v) = column (map f v).
Proof. unfold column. rewrite !map_map. reflexivity. Qed.

Lemma sqrtsoftmax_block (m : Mat R) :
  m <> [] -> Forall (fun r => r <> []) m ->
  exists wv,
    map (map sqrt) (softmax_dim2 1 (map (firstn 1) m)) = column wv
    /\ length wv = length m /\ vsum (map sq wv) = 1.
Proof.
  intros Hm Hrows. rewrite (first_channel_column m Hrows).
  rewrite softmax_dim2_column, map_column.
  eexists. split; [reflexivity |]. split.
  - now rewrite length_map, F_softmax_length, length_map.
  - apply sqrt_softmax_unit. destruct m; [contradiction | discriminate].
Qed.

Lemma softmax_block (m : Mat R) :
  m <> [] -> INR (length m) <= 10 ^ 24 -> Forall (fun r => r <> []) m ->
  exists wv,
    normalize_dim2 1 (softmax_dim2 1 (map (firstn 1) m)) = column wv
    /\ length wv = length m /\ vsum (map sq wv) = 1.
Proof.
  intros Hm Hlen Hrows. rewrite (first_channel_column m Hrows).
  rewrite softmax_dim2_column, normalize_dim2_column.
  eexists. split; [reflexivity |]. split.
  - now rewrite F_normalize_length, F_softmax_length, length_map.
  - apply normalize_softmax_unit.
    + destruct m; [contradiction | discriminate].
    + now rewrite length_map.
Qed.

Lemma const_block (l : nat) (m : Mat R) :
  length m = l -> (0 < l)%nat -> Forall (fun r => r <> []) m ->
  exists wv,
    map (map (fun _ => sqrt (1 / INR l))) (map (firstn 1) m) = column wv
    /\ length wv = length m /\ vsum (map sq wv) = 1.
Proof.
  intros Hlen Hl Hrows. rewrite (first_channel_column m Hrows).
  rewrite map_column.
  eexists. split; [reflexivity |]. split.
  - now rewrite !length_map.
  - apply const_weights_unit; [now rewrite length_map | exact Hl].
Qed.

Lemma norm_block (n : Mat R) :
  0 < vsum (map sq (concat n)) ->
  exists wv,
    map (fun r => [l2norm r / l2norm (concat n)]) n = column wv
    /\ length wv = length n /\ vsum (map sq wv) = 1.
Proof.
  intros Hpos.
  exists (map (fun r => l2norm r / l2norm (concat n)) n).
  split; [| split].
  - unfold column. rewrite map_map. reflexivity.
  - apply length_map.
  - apply norm_weights_unit, Hpos.
Qed.

Lemma vsum_sq_pos_block (m : Mat R) :
  m <> [] -> Forall (fun r => 0 < vsum (map sq r)) m ->
  0 < vsum (map sq (concat m)).
Proof.
  intros Hm Hrows. rewrite vsum_sq_concat.
  destruct Hrows as [| r m Hr Hrest]; [contradiction |].
  rewrite map_cons, vsum_cons.
  assert (0 <= vsum (map (fun r => vsum (map sq r)) m)).
  { clear Hm. induction Hrest as [| r' m' Hr' _ IH]; simpl; real_ops;
      [lra | lra]. }
  lra.
Qed.

Lemma vsum_sq_pos_of_norm (r : list R) :
  f_eps <= l2norm r -> 0 < vsum (map sq r).
Proof.
  rewrite eps_value. unfold l2norm. real_ops. intros Heps.
  pose proof (vsum_sq_nonneg r) as Hq.
  destruct (Rle_lt_or_eq_dec _ _ Hq) as [Hpos | Hzero]; [exact Hpos |].
  rewrite <- Hzero, sqrt_0 in Heps.
  assert (0 < / 10 ^ 12) by (apply Rinv_0_lt_compat; lra). lra.
Qed.

Lemma vsum_sq_pos_exp (f : R -> R) (r : list R) :
  r <> [] -> 0 < vsum (map sq (map (fun a => exp (f a)) r)).
Proof.
  intros Hr. destruct r as [| a r]; [contradiction |].
  rewrite !map_cons, vsum_cons.
  pose proof (vsum_sq_nonneg (map (fun a => exp (f a)) r)).
  pose proof (exp_pos (f a)). unfold sq at 1; real_ops. nra.
Qed.

(** The blocks of a product of a representation [G] and weights [W],
    both computed block by block from the same input. *)
Lemma weighted_blocks (G W : Mat R -> Mat R) (ms : list (Mat R)) :
  Forall (fun m => exists wv,
            W m = column wv /\ length (G m) = length wv
            /\ Forall (fun r => vsum (map sq r) = 1) (G m)
            /\ vsum (map sq wv) = 1) ms ->
  Forall (fun m => l2norm (concat m) = 1)
         (zip_with (zip_with (bcast_row fmul)) (map G ms) (map W ms)).
Proof.
  intros Hms. rewrite zip_with_same, List.Forall_map.
  eapply Forall_impl; [exact Hms |].
  intros m (wv & -> & Hlen & Hrows & Hw). cbv beta.
  apply block_unit; assumption.
Qed.

Lemma cont_rows (rs : Mat R) :
  Forall (fun r => f_eps <= l2norm r) rs ->
  Forall (fun r => vsum (map sq r) = 1) (map F_normalize rs).
Proof.
  intros Hrs. rewrite List.Forall_map.
  eapply Forall_impl; [exact Hrs |]. intros r. apply normalize_unit.
Qed.

Lemma sqrtsem_rows (rs : Mat R) :
  Forall (fun r => r <> [] /\ INR (length r) <= 10 ^ 24) rs ->
  Forall (fun r => vsum (map sq r) = 1)
         (map (fun r => map sqrt (F_softmax r)) rs).
Proof.
  intros Hrs. rewrite List.Forall_map.
  eapply Forall_impl; [exact Hrs |]. intros r [Hr _].
  apply sqrt_softmax_unit, Hr.
Qed.

Lemma sem_rows (rs : Mat R) :
  Forall (fun r => r <> [] /\ INR (length r) <= 10 ^ 24) rs ->
  Forall (fun r => vsum (map sq r) = 1)
         (map (fun r => F_normalize (F_softmax r)) rs).
Proof.
  intros Hrs. rewrite List.Forall_map.
  eapply Forall_impl; [exact Hrs |]. intros r [Hr Hlen].
  apply normalize_softmax_unit; assumption.
Qed.

Lemma rows_bounded (v k : nat) (rs : Mat R) :
  (0 < v)%nat -> INR k <= 10 ^ 24 -> (v <= k)%nat ->
  Forall (fun r => length r = v) rs ->
  Forall (fun r => r <> [] /\ INR (length r) <= 10 ^ 24) rs.
Proof.
  intros Hv Hk Hvk Hrs. eapply Forall_impl; [exact Hrs |].
  intros r Hr. split.
  - intros ->. simpl in Hr. lia.
  - rewrite Hr. apply Rle_trans with (INR k); [apply le_INR, Hvk | exact Hk].
Qed.

Lemma rows_dropped (v : nat) (rs : Mat R) :
  Forall (fun r => length r = v) rs ->
  Forall (fun r => length r = (v - 1)%nat) (map (skipn 1) rs).
Proof.
  intros Hrs. rewrite List.Forall_map.
  eapply Forall_impl; [exact Hrs |]. intros r Hr.
  now rewrite length_skipn, Hr.
Qed.

Lemma l2norm_ge_eps (r : list R) :
  1 <= vsum (map sq r) -> f_eps <= l2norm r.
Proof.
  intros Hq. rewrite eps_value. unfold l2norm. real_ops.
  apply Rle_trans with 1.
  - apply Rle_trans with (/ 1); [| rewrite Rinv_1; lra].
    apply Rinv_le_contravar; lra.
  - rewrite <- sqrt_1. apply sqrt_le_1_alt, Hq.
Qed.

(** X9.  The decomposition returns unit vectors: for every supported
    mode tag, the L rows of every block of the result, read as one
    vector (the [L * V] features of one leading position), have 2-norm
    one.  The input has elements (fewer than 2^63), every slot has at
    least one value, and under the ``cont'' representation, which
    divides each slot's values by their norm clamped at [eps], no
    slot's values have a norm below [eps]. *)
Theorem project_unit_norm (self : CLIP R) (x : Tensor R)
    (xs out : Slotted R) (rep norm_type : string) :
  view_slots (L self) (model_V self) x = Ok xs ->
  split_tag (sparo_type self) = Ok (rep, norm_type) ->
  tensor_wf x -> (0 < numel x)%nat -> (Z.of_nat (numel x) < 2 ^ 63)%Z ->
  (0 < s_cols (slot_values norm_type xs))%nat ->
  (rep = "cont" ->
   Forall (Forall (fun r => f_eps <= l2norm r))
          (s_mats (slot_values norm_type xs))) ->
  _project_for_sparo self x = Ok out ->
  Forall (fun m => l2norm (concat m) = 1) (s_mats out).
Proof.
  intros Hview Hsplit Hwf Hpos Hmax Hvals Hcont.
  pose proof (view_slots_wf _ _ _ _ Hview Hwf) as [_ Hblocks].
  destruct (view_slots_inv _ _ _ _ Hview) as (l & v & HL & HV & Hnum & Hshape).
  assert (Hr : s_rows xs = l) by now subst xs.
  assert (Hc : s_cols xs = v) by now subst xs.
  assert (Hlead : s_lead xs = removelast (t_shape x)) by now subst xs.
  clear Hshape. rewrite Hr, Hc in Hblocks.
  assert (Hl : (0 < l)%nat) by nia.
  assert (Hv : (0 < v)%nat) by nia.
  assert (Hle : (l <= numel x)%nat /\ (v <= numel x)%nat).
  { rewrite <- Hnum. split.
    - apply Nat.le_trans with (1 * (l * 1))%nat; [lia |].
      apply Nat.mul_le_mono; [nia |]. apply Nat.mul_le_mono; lia.
    - apply Nat.le_trans with (1 * (1 * v))%nat; [lia |].
      apply Nat.mul_le_mono; [nia |]. apply Nat.mul_le_mono; lia. }
  assert (Hbound : forall n, (n <= numel x)%nat -> INR n <= 10 ^ 24).
  { intros n Hn. apply Rle_trans with (IZR (2 ^ 63)).
    - rewrite INR_IZR_INZ. apply IZR_le. lia.
    - change (2 ^ 63)%Z with 9223372036854775808%Z. lra. }
  unfold _project_for_sparo.
  rewrite Hview, Hsplit. cbn [rbind]. rewrite HL.
  unfold slot_values, drops_channel in Hvals, Hcont.
  destruct (String.eqb_spec norm_type "sqrtsoftmax") as [-> | N1];
    [| destruct (String.eqb_spec norm_type "softmax") as [-> | N2];
       [| destruct (String.eqb_spec norm_type "norm") as [-> | N3];
          [| destruct (String.eqb_spec norm_type "const") as [-> | N4]]]];
    cbn [orb andb rbind String.eqb Ascii.eqb Bool.eqb] in Hvals, Hcont |- *.
  all: (destruct (String.eqb_spec rep "cont") as [-> | R1];
    [| destruct (String.eqb_spec rep "sqrtsem") as [-> | R2];
       [| destruct (String.eqb_spec rep "sem") as [-> | R3]]]).
  all: cbn [orb andb rbind String.eqb Ascii.eqb Bool.eqb]; try discriminate.
  all: try match goal with
           | |- context [flatten_slots] =>
               unfold flatten_slots; cbn [smap s_lead];
               destruct (numel_of (s_lead xs) =? 0)%nat; cbn [rbind];
               try discriminate
           end.
  all: intros [= <-].
  all: cbn [s_mats bcast_last smap drop_channel sqrtsoftmax_weights
            softmax_weights const_weights norm_weights first_channel s_cols].
  all: rewrite ?Hc, ?(Nat.min_l 1 v) by lia.
  all: rewrite ?map_map.
  all: real_ops; apply weighted_blocks.
  all: apply List.Forall_forall; intros m Hm.
  all: destruct (proj1 (List.Forall_forall _ _) Hblocks m Hm) as [Hlen Hrows].
  all: assert (Hne : m <> []) by (intros ->; simpl in Hlen; lia).
  all: assert (Hrne : Forall (fun r => r <> []) m)
         by (eapply Forall_impl; [exact Hrows |];
             intros r Hlr ->; simpl in Hlr; lia).
  all: try (specialize (Hcont eq_refl);
            cbn [s_mats drop_channel smap] in Hcont;
            rewrite ?List.Forall_map in Hcont;
            pose proof (proj1 (List.Forall_forall _ _) Hcont m Hm) as Hmc).
  all: try (cbv beta in Hmc).
  all: cbn [s_cols drop_channel smap] in Hvals; rewrite ?Hc in Hvals.
  all: match goal with
       | |- exists wv, map (map sqrt) (softmax_dim2 1 _) = _ /\ _ =>
           destruct (sqrtsoftmax_block m Hne Hrne) as (wv & Hw & Hlw & Hu)
       | |- exists wv, normalize_dim2 1 _ = _ /\ _ =>
           assert (Hml : INR (length m) <= 10 ^ 24)
             by (rewrite Hlen; apply Hbound, Hle);
           destruct (softmax_block m Hne Hml Hrne) as (wv & Hw & Hlw & Hu)
       | |- exists wv, map (map (fun _ => _)) (map (firstn 1) _) = _ /\ _ =>
           destruct (const_block l m Hlen Hl Hrne) as (wv & Hw & Hlw & Hu)
       | |- exists wv, map (fun r => [_]) ?n = _ /\ _ =>
           assert (Hnp : 0 < vsum (map sq (concat n)))
             by (apply vsum_sq_pos_block;
                 first [ exact Hne
                       | intros E; apply Hne; destruct m;
                         [reflexivity | discriminate E]
                       | eapply Forall_impl; [exact Hmc |];
                         intros r; apply vsum_sq_pos_of_norm
                       | rewrite List.Forall_map;
                         eapply Forall_impl; [exact Hrne |];
                         intros r Hrr;
                         apply (vsum_sq_pos_exp (fun a => a / _)), Hrr ]);
           destruct (norm_block n Hnp) as (wv & Hw & Hlw & Hu)
       end.
  all: exists wv; split; [exact Hw |];
    split; [rewrite Hlw, ?length_map; reflexivity |];
    split; [| exact Hu].
  all: first
         [ apply cont_rows; exact Hmc
         | first [apply sqrtsem_rows | apply sem_rows];
           first [ apply (rows_bounded (v - 1) (numel x));
                   [lia | apply Hbound; lia | lia | apply rows_dropped, Hrows]
                 | apply (rows_bounded v (numel x));
                   [lia | apply Hbound; lia | lia | exact Hrows] ] ].
Qed.
End UnitNorm.

Lemma project_unit_norm_witness :
  exists out,
    _project_for_sparo (example_sparo_model (F := R) "cont:const" 4 2)
                       example_vector = Ok out
    /\ Forall (fun m => l2norm (concat m) = 1%R) (s_mats out).
Proof.
  eexists. split; [reflexivity |].
  eapply (project_unit_norm
            (example_sparo_model (F := R) "cont:const" 4 2)
            example_vector _ _ "cont" "const" eq_refl eq_refl eq_refl).
  - cbv. lia.
  - vm_compute. reflexivity.
  - cbv. lia.
  - intros _. cbn.
    repeat (first [apply List.Forall_nil | apply List.Forall_cons]);
      apply (l2norm_ge_eps [_; _]); cbn; unfold sq; cbn; lra.
  - reflexivity.
Defined.

(** ** The encoders on the structured path *)

Section SplitFacts.
Lemma split_on_nonempty (sep : ascii) (s : string) : split_on sep s <> [].
Proof.
  destruct s as [| c rest]; simpl; [discriminate |].
  destruct (Ascii.eqb c sep); [discriminate |].
  destruct (split_on sep rest); discriminate.
Qed.

Lemma split_on_one (sep : ascii) (s b : string) :
  split_on sep s = [b] -> s = b.
Proof.
  revert b. induction s as [| c rest IH]; intros b; simpl.
  - now intros [= <-].
  - destruct (Ascii.eqb c sep).
    + intros [= _ Hnil]. now apply split_on_nonempty in Hnil.
    + destruct (split_on sep rest) as [| piece pieces] eqn:E.
      * now apply split_on_nonempty in E.
      * intros [= <- ->]. now rewrite (IH piece eq_refl).
Qed.

(** Two pieces come from one occurrence of the separator. *)
Lemma split_on_two (sep : ascii) (s a b : string) :
  split_on sep s = [a; b] ->
  s = String.append a (String sep b).
Proof.
  revert a. induction s as [| c rest IH]; intros a; simpl.
  - discriminate.
  - destruct (Ascii.eqb_spec c sep) as [-> | Hc].
    + intros [= <- Hrest]. simpl. now rewrite (split_on_one _ _ _ Hrest).
    + destruct (split_on sep rest) as [| piece pieces] eqn:E.
      * now apply split_on_nonempty in E.
      * intros [= <- ->]. simpl. now rewrite (IH piece eq_refl).
Qed.

(** On the supported tags, the test of the constructor,
    [sparo_type.endswith('softmax')], agrees with the one of the
    decomposition, [norm_type in ('sqrtsoftmax', 'softmax')]. *)
Lemma supported_tag_softmax (tag rep norm_type : string) :
  split_tag tag = Ok (rep, norm_type) ->
  tag_supported rep norm_type = true ->
  endswith tag "softmax" = drops_channel norm_type.
Proof.
  unfold split_tag. intros Hsplit Hsup.
  destruct (split_on ":" tag) as [| a [| b [| c rest]]] eqn:E;
    try discriminate.
  injection Hsplit as Ha Hb. subst a b.
  rewrite (split_on_two _ _ _ _ E). clear E.
  unfold tag_supported, drops_channel, rep_known in *.
  destruct (String.eqb_spec norm_type "sqrtsoftmax") as [E1 | N1];
    [| destruct (String.eqb_spec norm_type "softmax") as [E1 | N2];
       [| destruct (String.eqb_spec norm_type "norm") as [E1 | N3];
          [| destruct (String.eqb_spec norm_type "const") as [E1 | N4]]]];
    try subst norm_type;
    cbn [orb andb String.eqb Ascii.eqb Bool.eqb] in Hsup |- *;
    try discriminate.
  all: (destruct (String.eqb_spec rep "cont") as [E2 | R1];
    [| destruct (String.eqb_spec rep "sqrtsem") as [E2 | R2];
       [| destruct (String.eqb_spec rep "sem") as [E2 | R3]]]);
    try subst rep;
    cbn [orb andb String.eqb Ascii.eqb Bool.eqb] in Hsup;
    try discriminate; reflexivity.
Qed.
End SplitFacts.

Section EncoderShapes.
Context {F : Type} {SF : Scalar F} {Tokens : Type}
  {RT : Runtime (F := F) Tokens}.

Lemma CLIP_init_sparo_attrs (a : CLIPArgs F) (log log' : Log)
    (self : CLIP F) :
  CLIP_init a log = (log', Ok self) -> a_use_sparo a = true ->
  use_sparo self = true /\ L self = a_L a
  /\ sparo_type self = a_sparo_type a
  /\ model_V self = (if endswith (a_sparo_type a) "softmax"
                     then option_map S (a_V a) else a_V a).
Proof.
  unfold CLIP_init. intros Hrun Hs.
  apply bind_ok in Hrun. destruct Hrun as (l0 & u & _ & Hrun).
  apply bind_ok in Hrun. destruct Hrun as (l1 & mV & HmV & Hrun).
  apply lift_ok in HmV. destruct HmV as [HmV ->].
  minv. cbn [mk_CLIP use_sparo L sparo_type model_V].
  repeat split; [exact Hs |].
  rewrite Hs in HmV. cbn [negb orb] in HmV.
  destruct (endswith (a_sparo_type a) "softmax"); cbn [negb] in HmV.
  - destruct (a_V a); simpl in HmV; [| discriminate HmV].
    now injection HmV as <-.
  - now injection HmV as <-.
Qed.

Lemma length_concat_rows {A} (k : nat) (m : list (list A)) :
  Forall (fun r => length r = k) m ->
  length (concat m) = (length m * k)%nat.
Proof.
  induction 1 as [| r m Hr _ IH]; simpl; [reflexivity |].
  rewrite length_app, Hr, IH. reflexivity.
Qed.

Lemma length_concat_blocks (l v : nat) (ms : list (Mat F)) :
  Forall (fun m => length m = l /\ Forall (fun r => length r = v) m) ms ->
  length (concat (concat ms)) = (length ms * (l * v))%nat.
Proof.
  intros Hms.
  etransitivity; [apply (length_concat_rows v) |].
  - apply Forall_concat. eapply Forall_impl; [exact Hms |].
    now intros m [_ Hm].
  - rewrite Nat.mul_assoc. f_equal. apply (length_concat_rows l).
    eapply Forall_impl; [exact Hms |]. now intros m [Hm _].
Qed.

(** The merged view of a well-formed (..., L, V) value. *)
Lemma flatten_slots_shape (s : Slotted F) (t : Tensor F) :
  slotted_wf s -> flatten_slots s = Ok t ->
  t_dtype t = s_dtype s
  /\ t_shape t = s_lead s ++ [(s_rows s * s_cols s)%nat]
  /\ t_data t = concat (concat (s_mats s))
  /\ tensor_wf t.
Proof.
  intros [Hn Hm]. unfold flatten_slots.
  destruct (numel_of (s_lead s) =? 0)%nat; [discriminate |].
  intros [= <-]. repeat split. unfold tensor_wf, numel.
  cbn [t_data t_shape].
  rewrite (length_concat_blocks _ _ _ Hm), numel_of_app, Hn. simpl. lia.
Qed.

(** In a constructed model the decomposition returns the nominal
    sizes: the extra channel [__init__] asks the towers for under the
    softmax weightings is the one the decomposition consumes. *)
Lemma sparo_project_nominal (a : CLIPArgs F) (log log' : Log)
    (self : CLIP F) (l v : nat) (o : Tensor F) (out : Slotted F) :
  CLIP_init a log = (log', Ok self) -> a_use_sparo a = true ->
  a_L a = Some l -> a_V a = Some v -> tensor_wf o ->
  _project_for_sparo self o = Ok out ->
  slotted_wf out /\ s_dtype out = t_dtype o
  /\ s_lead out = removelast (t_shape o)
  /\ s_rows out = l /\ s_cols out = v.
Proof.
  intros Hinit Hs HL HV Hwf Hout.
  destruct (CLIP_init_sparo_attrs _ _ _ _ Hinit Hs)
    as (_ & HLs & Htag & HmV).
  destruct (view_slots (L self) (model_V self) o) as [xs | e] eqn:Hview;
    [| unfold _project_for_sparo in Hout; rewrite Hview in Hout;
       discriminate Hout].
  destruct (split_tag (sparo_type self)) as [[rep norm_type] | e] eqn:Hsplit;
    [| unfold _project_for_sparo in Hout; rewrite Hview, Hsplit in Hout;
       discriminate Hout].
  pose proof (view_slots_wf _ _ _ _ Hview Hwf) as Hxs.
  destruct (project_shape_of_view _ _ _ _ _ _ Hview Hxs Hsplit Hout)
    as (Hsup & W & D & A & B & C).
  pose proof (supported_tag_softmax _ _ _ Hsplit Hsup) as Hends.
  rewrite Htag in Hends. rewrite Hends, HV in HmV.
  destruct (view_slots_inv _ _ _ _ Hview) as (l' & v' & HL' & HV' & _ & ->).
  cbn [s_dtype s_lead s_rows s_cols] in *.
  assert (El : l' = l) by congruence. rewrite El in B.
  split; [exact W | split; [exact D | split; [exact A | split; [exact B |]]]].
  rewrite C. destruct (drops_channel norm_type); cbn [option_map] in HmV.
  - assert (v' = S v) by congruence. lia.
  - congruence.
Qed.

(** X10.  [encode_image] of a constructed SPARO model, when it returns:
    the pair the vision tower gives is decomposed into [L] slots of
    the nominal [V] values each, over the leading axes of the tower's
    output; with [return_sparo] that (..., L, V) value is returned as
    is, with the attention beside it on request, and without it the
    features are its merged view, of last size [L * V]. *)
Theorem encode_image_sparo_slots (a : CLIPArgs F) (log log' : Log)
    (self : CLIP F) (l v : nat) (image o attn : Tensor F)
    (return_sparo return_attn : bool) (res : Encoded F) :
  CLIP_init a log = (log', Ok self) -> a_use_sparo a = true ->
  a_L a = Some l -> a_V a = Some v ->
  unpack_pair (visual_forward (visual self) image) = Ok (o, attn) ->
  tensor_wf o ->
  encode_image self image true return_sparo return_attn = Ok res ->
  exists out,
    _project_for_sparo self o = Ok out
    /\ slotted_wf out /\ s_lead out = removelast (t_shape o)
    /\ s_rows out = l /\ s_cols out = v
    /\ (return_sparo = true ->
        res = if return_attn then EncSparoAttn out attn else EncSparo out)
    /\ (return_sparo = false ->
        exists t,
          res = EncFeatures (FTensor t) /\ tensor_wf t
          /\ t_shape t = removelast (t_shape o) ++ [(l * v)%nat]
          /\ t_data t = concat (concat (s_mats out))).
Proof.
  intros Hinit Hs HL HV Hpair Hwf.
  destruct (CLIP_init_sparo_attrs _ _ _ _ Hinit Hs) as (Hus & _).
  unfold encode_image. rewrite Hus, Hpair. cbn [negb py_assert rbind].
  destruct (_project_for_sparo self o) as [out | e] eqn:Hout;
    [| discriminate].
  cbn [rbind]. intros Hres. exists out.
  destruct (sparo_project_nominal _ _ _ _ _ _ _ _ Hinit Hs HL HV Hwf Hout)
    as (W & D & A & B & C).
  split; [reflexivity |].
  split; [exact W | split; [exact A | split; [exact B | split; [exact C |]]]].
  unfold return_projected in Hres. split; intros ->.
  - destruct return_attn; now injection Hres as <-.
  - destruct (flatten_slots out) as [t | e] eqn:Hflat; [| discriminate].
    cbn [rbind] in Hres. injection Hres as <-.
    destruct (flatten_slots_shape _ _ W Hflat) as (_ & Hsh & Hdata & Hwt).
    exists t. rewrite Hsh, A, B, C. repeat split; assumption.
Qed.

Lemma view_rows_wf (n : nat) (o o' : Tensor F) :
  view_rows n o = Ok o' -> tensor_wf o ->
  tensor_wf o' /\ exists b, t_shape o' = [b; n].
Proof.
  unfold view_rows, reshape_infer, infer_dim. cbn [app numel_of fold_right].
  rewrite Nat.mul_1_r.
  destruct (Nat.eqb_spec n 0) as [| Hn];
    [destruct (numel o =? 0)%nat; discriminate |].
  destruct (Nat.eqb_spec (numel o mod n) 0) as [Hmod | _]; [| discriminate].
  cbn [rbind]. intros [= <-] Hwf. split; [| eexists; reflexivity].
  unfold tensor_wf, numel in *. cbn [t_data t_shape numel_of fold_right].
  rewrite Hwf, Nat.mul_1_r.
  pose proof (Nat.div_mod_eq (numel_of (t_shape o)) n) as Hdm.
  unfold numel in Hmod. rewrite Hmod in Hdm. lia.
Qed.

(** X11.  [encode_text] of a constructed SPARO model, when it returns:
    what the text tower's SPARO module gives is viewed as rows of
    [L * model_V] values and decomposed into [L] slots of the nominal
    [V] values each, so that the features have the width [L * V] of
    the image side. *)
Theorem encode_text_sparo_slots (a : CLIPArgs F) (log log' : Log)
    (self : CLIP F) (l v : nat) (text : Tokens)
    (return_sparo return_attn : bool) (res : Encoded F) :
  CLIP_init a log = (log', Ok self) -> a_use_sparo a = true ->
  a_L a = Some l -> a_V a = Some v ->
  (forall x idx, tensor_wf (fst (text_sparo (text_tower self) x idx))) ->
  encode_text self text true return_sparo return_attn = Ok res ->
  exists out attn b,
    slotted_wf out /\ s_lead out = [b]
    /\ s_rows out = l /\ s_cols out = v
    /\ (return_sparo = true ->
        res = if return_attn then EncSparoAttn out attn else EncSparo out)
    /\ (return_sparo = false ->
        exists t,
          res = EncFeatures (FTensor t) /\ tensor_wf t
          /\ t_shape t = [b; (l * v)%nat]
          /\ t_data t = concat (concat (s_mats out))).
Proof.
  intros Hinit Hs HL HV Hsparo.
  destruct (CLIP_init_sparo_attrs _ _ _ _ Hinit Hs) as (Hus & _).
  unfold encode_text. rewrite Hus. cbn [negb].
  destruct (permute _ (embed_text self text)) as [x1 | e]; [| discriminate].
  cbn [rbind].
  destruct (permute _ (transformer (text_tower self) x1)) as [x2 | e];
    [| discriminate].
  cbn [rbind py_assert].
  match goal with
  | |- context [text_sparo ?tw ?x ?idx] =>
      pose proof (Hsparo x idx) as Hwf;
      destruct (text_sparo tw x idx) as [o attn]
  end.
  cbn [fst] in Hwf.
  destruct (slots_times_values self) as [n | e]; [| discriminate].
  cbn [rbind].
  destruct (view_rows n o) as [o' | e] eqn:Hview; [| discriminate].
  cbn [rbind].
  destruct (view_rows_wf _ _ _ Hview Hwf) as (Hwf' & b & Hshape).
  destruct (_project_for_sparo self o') as [out | e] eqn:Hout;
    [| discriminate].
  cbn [rbind]. intros Hres. exists out, attn, b.
  destruct (sparo_project_nominal _ _ _ _ _ _ _ _ Hinit Hs HL HV Hwf' Hout)
    as (W & D & A & B & C).
  rewrite Hshape in A. cbn [removelast] in A.
  split; [exact W | split; [exact A | split; [exact B | split; [exact C |]]]].
  unfold return_projected in Hres. split; intros ->.
  - destruct return_attn; now injection Hres as <-.
  - destruct (flatten_slots out) as [t | e] eqn:Hflat; [| discriminate].
    cbn [rbind] in Hres. injection Hres as <-.
    destruct (flatten_slots_shape _ _ W Hflat) as (_ & Hsh & Hdata & Hwt).
    exists t. rewrite Hsh, A, B, C. repeat split; assumption.
Qed.
End EncoderShapes.

Lemma encode_image_sparo_slots_witness :
  exists res out,
    encode_image (RT := sparo_shape_runtime)
                 (example_sparo_model (F := R) "sem:softmax" 4 1)
                 (meta_tensor [1; 3; 224; 224]%nat) true false false
    = Ok res
    /\ slotted_wf out /\ s_lead out = [1%nat]
    /\ s_rows out = 4%nat /\ s_cols out = 1%nat
    /\ exists t,
         res = EncFeatures (FTensor t) /\ tensor_wf t
         /\ t_shape t = [1; 4]%nat
         /\ t_data t = concat (concat (s_mats out)).
Proof.
  assert (Hrun : exists res,
            encode_image (RT := sparo_shape_runtime)
              (example_sparo_model (F := R) "sem:softmax" 4 1)
              (meta_tensor [1; 3; 224; 224]%nat) true false false = Ok res)
    by (eexists; reflexivity).
  destruct Hrun as [res Hrun].
  destruct (encode_image_sparo_slots (RT := sparo_shape_runtime)
              (example_sparo_args "sem:softmax" 4 1) [] _
              (example_sparo_model (F := R) "sem:softmax" 4 1) 4 1
              (meta_tensor [1; 3; 224; 224]%nat) _ _ false false res
              eq_refl eq_refl eq_refl eq_refl eq_refl eq_refl Hrun)
    as (out & _ & W & A & B & C & _ & Hres).
  exists res, out. split; [exact Hrun |].
  split; [exact W | split; [exact A | split; [exact B | split; [exact C |]]]].
  exact (Hres eq_refl).
Defined.

Lemma encode_text_sparo_slots_witness :
  exists res out b,
    encode_text (RT := sparo_shape_runtime)
                (example_sparo_model (F := R) "sem:softmax" 4 1)
                [[49406; 320; 49407]%Z] true false false
    = Ok res
    /\ slotted_wf out /\ s_lead out = [b]
    /\ s_rows out = 4%nat /\ s_cols out = 1%nat
    /\ exists t,
         res = EncFeatures (FTensor t) /\ tensor_wf t
         /\ t_shape t = [b; 4]%nat
         /\ t_data t = concat (concat (s_mats out)).
Proof.
  assert (Hrun : exists res,
            encode_text (RT := sparo_shape_runtime)
              (example_sparo_model (F := R) "sem:softmax" 4 1)
              [[49406; 320; 49407]%Z] true false false = Ok res)
    by (eexists; reflexivity).
  destruct Hrun as [res Hrun].
  destruct (encode_text_sparo_slots (RT := sparo_shape_runtime)
              (example_sparo_args "sem:softmax" 4 1) [] _
              (example_sparo_model (F := R) "sem:softmax" 4 1) 4 1
              [[49406; 320; 49407]%Z] false false res
              eq_refl eq_refl eq_refl eq_refl)
    as (out & attn & b & W & A & B & C & _ & Hres).
  - intros x idx. unfold tensor_wf, numel. cbn. apply repeat_length.
  - exact Hrun.
  - exists res, out, b. split; [exact Hrun |].
    split; [exact W | split; [exact A | split; [exact B | split; [exact C |]]]].
    exact (Hres eq_refl).
Defined.

(** ** Precision conversion: what is reached *)

Section ConverterReach.
Context {F : Type} {SF : Scalar F}.

Lemma covers_ret d : covers (F := F) d (ret tt) [].
Proof.
  exists [], (Ok tt).
  split; [reflexivity | split; [intros p Hp | intros _ p Hp]; exact Hp].
Qed.

Lemma covers_raise d (m : M (ParamStore F) unit) e T :
  (forall s, m s = (s, Raise e)) -> covers d m T.
Proof.
  intros Hm. exists [], (Raise e). split; [exact Hm |]. split.
  - intros p Hp. now apply elem_of_nil in Hp.
  - discriminate.
Qed.

Lemma covers_bind d (m1 : M (ParamStore F) unit)
    (m2 : M (ParamStore F) unit) T1 T2 :
  covers d m1 T1 -> covers d m2 T2 ->
  covers d (bind m1 (fun _ => m2)) (T1 ++ T2).
Proof.
  intros (ps & r & Hm & Hin & Hall) (qs & r' & Hm' & Hin' & Hall').
  destruct r as [[] | e].
  - exists (ps ++ qs), r'. split; [| split].
    + intros s. unfold bind. rewrite Hm, Hm', convert_at_app. reflexivity.
    + intros p [Hp | Hp]%elem_of_app; apply elem_of_app; auto.
    + intros Hr p [Hp | Hp]%elem_of_app; apply elem_of_app; auto.
  - exists ps, (Raise e). split; [| split].
    + intros s. unfold bind. rewrite Hm. reflexivity.
    + intros p Hp. apply elem_of_app; auto.
    + discriminate.
Qed.

Lemma covers_ext d (m m' : M (ParamStore F) unit) T :
  (forall s, m s = m' s) -> covers d m T -> covers d m' T.
Proof.
  intros Hext (ps & r & Hm & Hrest). exists ps, r.
  split; [| exact Hrest]. intros s. now rewrite <- Hext.
Qed.

Lemma covers_if d (c : bool) (m : M (ParamStore F) unit) T :
  covers d m T -> covers d (if c then m else ret tt) (if c then T else []).
Proof. destruct c; [trivial | intros _; apply covers_ret]. Qed.

(** The two ways an attribute is converted. *)
Lemma covers_getattr_data d (l : NNModule) (attr : string) :
  covers d (w <- lift (getattr l attr) ; convert_data d w)
         (attr_param l attr).
Proof.
  unfold getattr, attr_param.
  destruct (mod_attrs l !! attr) as [[| p |] |].
  - apply (covers_raise _ _ (AttributeError "data")). reflexivity.
  - exists [p], (Ok tt).
    split; [reflexivity | split; [intros q Hq | intros _ q Hq]; exact Hq].
  - apply (covers_raise _ _ (AttributeError "data")). reflexivity.
  - apply (covers_raise _ _ (AttributeError attr)). reflexivity.
Qed.

Lemma covers_getattr_if_set d (l : NNModule) (attr : string) :
  covers d (b <- lift (getattr l attr) ; convert_if_set d b)
         (attr_param l attr).
Proof.
  unfold getattr, attr_param.
  destruct (mod_attrs l !! attr) as [[| p |] |].
  - apply covers_ret.
  - exists [p], (Ok tt).
    split; [reflexivity | split; [intros q Hq | intros _ q Hq]; exact Hq].
  - apply (covers_raise _ _ (AttributeError "data")). reflexivity.
  - apply (covers_raise _ _ (AttributeError attr)). reflexivity.
Qed.

Lemma covers_default_if_set d (l : NNModule) (attr : string) :
  covers d (convert_if_set d (getattr_default l attr))
         (attr_param l attr ++ []).
Proof.
  rewrite app_nil_r. unfold getattr_default, attr_param.
  destruct (mod_attrs l !! attr) as [[| p |] |].
  - apply covers_ret.
  - exists [p], (Ok tt).
    split; [reflexivity | split; [intros q Hq | intros _ q Hq]; exact Hq].
  - apply (covers_raise _ _ (AttributeError "data")). reflexivity.
  - apply covers_ret.
Qed.

Lemma covers_for_each d {A} (f : A -> M (ParamStore F) unit)
    (g : A -> list nat) (l : list A) :
  (forall a, covers d (f a) (g a)) ->
  covers d (for_each f l) (flat_map g l).
Proof.
  intros Hf. induction l as [| a l IH]; simpl.
  - apply covers_ret.
  - apply covers_bind; [apply Hf | exact IH].
Qed.

Lemma flat_map_if {A B} (c : bool) (g : A -> list B) (l : list A) :
  flat_map g (if c then l else []) = if c then flat_map g l else [].
Proof. now destruct c. Qed.

Lemma covers_convert_weights d (l : NNModule) :
  covers d (_convert_weights d l) (module_params l).
Proof.
  unfold _convert_weights, module_params, lp_attrs.
  rewrite !flat_map_app, !flat_map_if.
  apply covers_bind; [| apply covers_bind; [| apply covers_bind]].
  - apply covers_if. cbn [flat_map]. rewrite app_nil_r.
    apply (covers_ext d
             (_ <- (w <- lift (getattr l "weight") ; convert_data d w) ;
              b <- lift (getattr l "bias") ; convert_if_set d b)).
    + intros s. unfold bind, lift.
      destruct (getattr l "weight"); reflexivity.
    + apply covers_bind;
        [apply covers_getattr_data | apply covers_getattr_if_set].
  - apply covers_if. apply covers_for_each. intros attr.
    apply covers_getattr_if_set.
  - apply covers_if. cbn [flat_map]. apply covers_default_if_set.
  - apply covers_if. cbn [flat_map]. apply covers_default_if_set.
Qed.

Lemma covers_apply_convert d (m : NNModule) :
  covers d (apply_fn (_convert_weights d) m) (lp_params m).
Proof.
  revert m. fix IH 1. intros [classes attrs children].
  unfold lp_params. cbn [all_modules apply_fn].
  rewrite flat_map_app. cbn [flat_map]. rewrite app_nil_r.
  apply covers_bind; [| apply covers_convert_weights].
  induction children as [| c rest IHrest].
  - apply covers_ret.
  - cbn [flat_map]. rewrite flat_map_app.
    apply covers_bind; [apply IH | exact IHrest].
Qed.

(** X12.  What [convert_weights_to_lp] reaches.  Whatever the outcome,
    a parameter is either left as it was or converted with [.to(dtype)],
    and only parameters held by the attributes the function names can
    be converted: ``weight'' and ``bias'' of the convolutions and
    linear layers, the seven projection and bias attributes of the
    attention modules, ``text_projection'' of a [CLIP] or
    [TextTransformer], ``proj'' of a [VisionTransformer], on every
    module of the tree.  When the call returns, every such parameter
    has been converted. *)
Theorem convert_weights_to_lp_reach
    (model : NNModule) (dtype : DType) (s : ParamStore F) :
  let run := convert_weights_to_lp model dtype s in
  (forall k, k ∉ lp_params model -> fst run !! k = s !! k)
  /\ (forall k, fst run !! k = s !! k
                \/ fst run !! k = to dtype <$> s !! k)
  /\ (snd run = Ok tt ->
      forall k, k ∈ lp_params model -> fst run !! k = to dtype <$> s !! k).
Proof.
  cbv zeta. unfold convert_weights_to_lp.
  destruct (covers_apply_convert dtype model) as (ps & r & Hm & Hin & Hall).
  rewrite Hm. cbn [fst snd].
  split; [| split].
  - intros k Hk. rewrite lookup_convert_at.
    rewrite bool_decide_false; [reflexivity |]. intros Hps. apply Hk, Hin, Hps.
  - intros k. rewrite lookup_convert_at.
    destruct (bool_decide (k ∈ ps)); [right | left]; reflexivity.
  - intros Hr k Hk. rewrite lookup_convert_at.
    rewrite bool_decide_true; [reflexivity |]. apply Hall; assumption.
Qed.
End ConverterReach.

(** ** Old-format state dicts *)

Section OldCheckpointFacts.
Context {A : Type}.

Lemma odict_mem_set (k k' : string) (v : A) (d : ODict A) :
  odict_mem k (odict_set k' v d) = String.eqb k k' || odict_mem k d.
Proof.
  unfold odict_mem. induction d as [| [k0 v0] d IH]; simpl.
  - reflexivity.
  - destruct (String.eqb_spec k' k0) as [-> | Hne]; simpl.
    + now rewrite orb_assoc, orb_diag.
    + rewrite IH. destruct (String.eqb k k'), (String.eqb k k0); reflexivity.
Qed.

Lemma odict_set_new (k : string) (v : A) (d : ODict A) :
  odict_mem k d = false -> odict_set k v d = d ++ [(k, v)].
Proof.
  unfold odict_mem. induction d as [| [k0 v0] d IH]; simpl; [reflexivity |].
  intros [Hk Hd]%orb_false_elim. rewrite Hk, (IH Hd). reflexivity.
Qed.

(** The loop of the conversion, from any dict built so far. *)
Lemma rename_loop_mem (k : string) (l acc : ODict A) :
  odict_mem k
    (fold_left (fun new_state_dict kv =>
                  odict_set (custom_text_key (fst kv)) (snd kv)
                            new_state_dict) l acc)
  = existsb (fun kv => String.eqb k (custom_text_key (fst kv))) l
    || odict_mem k acc.
Proof.
  revert acc. induction l as [| kv l IH]; intros acc; simpl; [reflexivity |].
  rewrite IH, odict_mem_set.
  destruct (String.eqb k (custom_text_key (fst kv))),
    (existsb (fun kv => String.eqb k (custom_text_key (fst kv))) l);
    reflexivity.
Qed.

Lemma custom_text_key_moved (k : string) :
  custom_text_key k <> "text_projection".
Proof.
  unfold custom_text_key.
  destruct (existsb (startswith k) text_tower_prefixes) eqn:E.
  - simpl. intros [= H].
  - intros ->. vm_compute in E. discriminate E.
Qed.

(** X13.  [convert_to_custom_text_state_dict] does its work once: what
    it returns has no key ``text_projection'' (the key itself has
    moved under ``text.''), so that a second call returns its argument
    unchanged. *)
Theorem convert_to_custom_text_state_dict_idempotent (state_dict : ODict A) :
  odict_mem "text_projection"
            (convert_to_custom_text_state_dict state_dict) = false
  /\ convert_to_custom_text_state_dict
       (convert_to_custom_text_state_dict state_dict)
     = convert_to_custom_text_state_dict state_dict.
Proof.
  assert (Hmem : odict_mem "text_projection"
                   (convert_to_custom_text_state_dict state_dict) = false).
  { unfold convert_to_custom_text_state_dict.
    destruct (odict_mem "text_projection" state_dict) eqn:E; [| exact E].
    rewrite rename_loop_mem, orb_false_r.
    apply not_true_is_false. intros Hex.
    apply existsb_exists in Hex. destruct Hex as (kv & _ & Hk).
    apply String.eqb_eq in Hk.
    now apply (custom_text_key_moved (fst kv)). }
  split; [exact Hmem |].
  unfold convert_to_custom_text_state_dict at 1. now rewrite Hmem.
Qed.

Lemma rename_loop_fresh (l acc : ODict A) :
  NoDup (map fst acc ++ map (fun kv => custom_text_key (fst kv)) l) ->
  fold_left (fun new_state_dict kv =>
               odict_set (custom_text_key (fst kv)) (snd kv) new_state_dict)
            l acc
  = acc ++ map (fun kv => (custom_text_key (fst kv), snd kv)) l.
Proof.
  revert acc. induction l as [| kv l IH]; intros acc Hnd; simpl.
  - now rewrite app_nil_r.
  - assert (Hfresh : odict_mem (custom_text_key (fst kv)) acc = false).
    { apply not_true_is_false. intros Hmem. unfold odict_mem in Hmem.
      apply existsb_exists in Hmem. destruct Hmem as (kv' & Hin & Hk).
      apply String.eqb_eq in Hk.
      apply NoDup_app in Hnd. destruct Hnd as (_ & Hdisj & _).
      apply (Hdisj (fst kv')).
      - apply list_elem_of_fmap. exists kv'. split; [reflexivity |].
        now apply list_elem_of_In.
      - simpl. rewrite <- Hk. apply elem_of_cons. now left. }
    rewrite (odict_set_new _ _ _ Hfresh), IH.
    + now rewrite <- app_assoc.
    + rewrite map_app. simpl. rewrite <- app_assoc. exact Hnd.
Qed.

(** X14.  On an old-format dict (one with a key ``text_projection'')
    whose keys stay distinct once renamed, the conversion keeps every
    item in its place with its value, under its own key or, for the
    keys of the text tower, under ``text.'' followed by the key. *)
Theorem convert_to_custom_text_state_dict_renames (state_dict : ODict A) :
  odict_mem "text_projection" state_dict = true ->
  NoDup (map (fun kv => custom_text_key (fst kv)) state_dict) ->
  convert_to_custom_text_state_dict state_dict
  = map (fun kv => (custom_text_key (fst kv), snd kv)) state_dict.
Proof.
  intros Hold Hnd. unfold convert_to_custom_text_state_dict.
  rewrite Hold. apply (rename_loop_fresh state_dict []). exact Hnd.
Qed.
End OldCheckpointFacts.

Lemma convert_to_custom_text_state_dict_renames_witness :
  convert_to_custom_text_state_dict
    [("visual.proj", 1%nat); ("text_projection", 2%nat);
     ("transformer.resblocks.0.ln_1.weight", 3%nat); ("logit_scale", 4%nat)]
  = [("visual.proj", 1%nat); ("text.text_projection", 2%nat);
     ("text.transformer.resblocks.0.ln_1.weight", 3%nat);
     ("logit_scale", 4%nat)].
Proof.
  apply (convert_to_custom_text_state_dict_renames
           [("visual.proj", 1%nat); ("text_projection", 2%nat);
            ("transformer.resblocks.0.ln_1.weight", 3%nat);
            ("logit_scale", 4%nat)]).
  - reflexivity.
  - apply (bool_decide_unpack _). vm_compute. reflexivity.
Defined.

(** ** Shape inference on exported dicts *)

Lemma round_sqrt_square (g : Z) : (0 <= g)%Z -> round_sqrt (g * g) = Ok g.
Proof.
  intros Hg. unfold round_sqrt.
  destruct (Z.ltb_spec (g * g) 0) as [Hneg | _]; [nia |].
  rewrite Z.sqrt_square by exact Hg.
  rewrite Z.sub_diag.
  destruct (Z.leb_spec 0 g) as [_ | Hlt]; [reflexivity | lia].
Qed.

Lemma round_sqrt_nonneg (n r : Z) : round_sqrt n = Ok r -> (0 <= r)%Z.
Proof.
  unfold round_sqrt. destruct (n <? 0)%Z; [discriminate |].
  intros [= <-]. pose proof (Z.sqrt_nonneg n).
  destruct (n - Z.sqrt n * Z.sqrt n <=? Z.sqrt n)%Z; lia.
Qed.

Section InferFacts.
Context {F : Type} {SF : Scalar F}.

Lemma collect_length {A B} (f : A -> Result B) (l : list A) (bs : list B) :
  collect f l = Ok bs -> length bs = length l.
Proof.
  revert bs. induction l as [| a l IH]; intros bs; simpl.
  - now intros [= <-].
  - destruct (f a) as [b | e]; [| discriminate]. cbn [rbind].
    destruct (collect f l) as [bs' | e]; [| discriminate]. cbn [rbind].
    intros [= <-]. simpl. now rewrite (IH bs' eq_refl).
Qed.

(** X15.  On a transformer export (a dict with the key [visual.proj])
    whose position table has one row more than a square number
    [g * g], the inferred image size is the patch size times [g]; the
    width and the patch size are the first and the last size of the
    patch-embedding weight, and the depth is the number of keys of
    attention in-projections under [visual.]. *)
Theorem infer_vision_vit_grid (state_dict : gmap string (Tensor F))
    (conv1 pos : Tensor F) (w p g : nat) :
  is_Some (state_dict !! "visual.proj") ->
  state_dict !! "visual.conv1.weight" = Some conv1 ->
  shape_at conv1 0 = Ok w -> shape_last conv1 = Ok p ->
  state_dict !! "visual.positional_embedding" = Some pos ->
  shape_at pos 0 = Ok (g * g + 1)%nat ->
  infer_vision state_dict
  = Ok (LInt (Z.of_nat
                (size (filter (fun k => is_vit_attn_key k = true)
                              (dom state_dict)))),
        Z.of_nat w, Some (Z.of_nat p), (Z.of_nat p * Z.of_nat g)%Z).
Proof.
  intros Hproj Hconv Hw Hp Hpos Hrows.
  unfold infer_vision. rewrite bool_decide_true by exact Hproj.
  unfold sd_get. rewrite Hconv, Hpos. cbn [rbind].
  rewrite Hw, Hp, Hrows. cbn [rbind].
  replace (Z.of_nat (g * g + 1) - 1)%Z with (Z.of_nat g * Z.of_nat g)%Z
    by lia.
  rewrite round_sqrt_square by lia. cbn [rbind].
  rewrite keys_filter_count. reflexivity.
Qed.

(** X16.  On any other dict the residual backbone is inferred, and the
    inference checks what the transformer branch does not: it returns
    only when the position table of the attention pool has one row
    more than a perfect square [ow * ow], and then the layers are the
    four stage counts, there is no patch size, and the image size is
    [32 * ow]. *)
Theorem infer_vision_resnet (state_dict : gmap string (Tensor F))
    (vl : Layers) (vw : Z) (vp : option Z) (im : Z) :
  state_dict !! "visual.proj" = None ->
  infer_vision state_dict = Ok (vl, vw, vp, im) ->
  vp = None
  /\ (exists c1 c2 c3 c4, vl = LTuple [c1; c2; c3; c4])
  /\ exists pos (ow : nat),
       state_dict !! "visual.attnpool.positional_embedding" = Some pos
       /\ shape_at pos 0 = Ok (ow * ow + 1)%nat
       /\ im = (Z.of_nat ow * 32)%Z.
Proof.
  intros Hproj. unfold infer_vision.
  rewrite bool_decide_false by (rewrite Hproj; apply is_Some_None).
  destruct (collect (count_blocks state_dict) _) as [counts | e] eqn:Hc;
    [| discriminate].
  cbn [rbind]. apply collect_length in Hc.
  destruct (sd_get state_dict "visual.layer1.0.conv1.weight")
    as [conv1 | e]; [| discriminate].
  cbn [rbind].
  destruct (shape_at conv1 0) as [w | e]; [| discriminate]. cbn [rbind].
  unfold sd_get.
  destruct (state_dict !! "visual.attnpool.positional_embedding")
    as [pos |] eqn:Hpos; [| discriminate].
  cbn [rbind].
  destruct (shape_at pos 0) as [rows | e] eqn:Hrows; [| discriminate].
  cbn [rbind].
  destruct (round_sqrt (Z.of_nat rows - 1)) as [ow | e] eqn:Hsqrt;
    [| discriminate].
  cbn [rbind]. unfold py_assert.
  destruct (Z.eqb_spec (ow ^ 2 + 1) (Z.of_nat rows)) as [Heq | _];
    [| discriminate].
  cbn [rbind]. intros [= <- <- <- <-].
  pose proof (round_sqrt_nonneg _ _ Hsqrt) as Hnn.
  split; [reflexivity |]. split.
  - destruct counts as [| c1 [| c2 [| c3 [| c4 [| c5 rest]]]]];
      try discriminate Hc.
    now eexists _, _, _, _.
  - exists pos, (Z.to_nat ow). split; [reflexivity |]. split.
    + rewrite Hrows. f_equal. apply Nat2Z.inj.
      rewrite Nat2Z.inj_add, Nat2Z.inj_mul, Z2Nat.id by exact Hnn.
      rewrite Z.pow_2_r in Heq. lia.
    + now rewrite Z2Nat.id.
Qed.
End InferFacts.

Lemma infer_vision_vit_grid_witness :
  infer_vision (example_vit32_dict (F := R))
  = Ok (LInt (Z.of_nat
                (size (filter (fun k => is_vit_attn_key k = true)
                              (dom (example_vit32_dict (F := R)))))),
        Z.of_nat 768, Some (Z.of_nat 32), (Z.of_nat 32 * Z.of_nat 7)%Z).
Proof.
  apply (infer_vision_vit_grid
           (example_vit32_dict (F := R))
           (meta_tensor [768; 3; 32; 32]%nat)
           (meta_tensor [50; 768]%nat) 768 32 7).
  - exists (meta_tensor [768; 512]%nat). vm_compute. reflexivity.
  - vm_compute. reflexivity.
  - reflexivity.
  - reflexivity.
  - vm_compute. reflexivity.
  - reflexivity.
Defined.

Lemma infer_vision_resnet_witness :
  (None : option Z) = None
  /\ (exists c1 c2 c3 c4, LTuple [3; 4; 6; 3]%Z = LTuple [c1; c2; c3; c4])
  /\ exists pos (ow : nat),
       example_resnet_dict (F := R)
         !! "visual.attnpool.positional_embedding" = Some pos
       /\ shape_at pos 0 = Ok (ow * ow + 1)%nat
       /\ 224%Z = (Z.of_nat ow * 32)%Z.
Proof.
  apply (infer_vision_resnet
           (example_resnet_dict (F := R)) (LTuple [3; 4; 6; 3]%Z) 64 None 224).
  - vm_compute. reflexivity.
  - vm_compute. reflexivity.
Defined.

(** ** The adapter for exported dicts: what it builds, how it fails *)

Section BuildFacts.
Context {F : Type} {SF : Scalar F} {Tokens : Type}
  {RT : Runtime (F := F) Tokens}.

Lemma infer_vision_layers (state_dict : gmap string (Tensor F))
    (vl : Layers) (vw : Z) (vp : option Z) (vi : Z) :
  infer_vision state_dict = Ok (vl, vw, vp, vi) ->
  (exists n, vl = LInt n) \/ (exists c1 c2 c3 c4, vl = LTuple [c1; c2; c3; c4]).
Proof.
  unfold infer_vision.
  destruct (bool_decide (is_Some (state_dict !! "visual.proj"))).
  - intros H. minv. injection H as <- _ _ _. left. eauto.
  - destruct (collect (count_blocks state_dict) _) as [counts | e] eqn:Hc;
      [| discriminate].
    cbn [rbind]. apply collect_length in Hc.
    intros H. minv. injection H as <- _ _ _. right.
    destruct counts as [| c1 [| c2 [| c3 [| c4 [| c5 rest]]]]];
      try discriminate Hc.
    now eexists _, _, _, _.
Qed.

Lemma infer_text_heads (state_dict : gmap string (Tensor F))
    (ed ctx vocab tw th tl : Z) :
  infer_text state_dict = Ok (ed, ctx, vocab, tw, th, tl) ->
  th = (tw / 64)%Z.
Proof.
  unfold infer_text. intros H. minv. injection H as _ _ _ <- <- _.
  match goal with
  | Hd : floordiv _ _ = Ok _ |- _ =>
      unfold floordiv in Hd; simpl in Hd; now injection Hd as <-
  end.
Qed.

(** The construction the adapter asks for always returns. *)
Lemma CLIP_init_default_runs (quick_gelu : bool) (cast_dtype : option DType)
    (ed vw vi ctx vocab tw th tl : Z) (vl : Layers) (vp : option Z)
    (log : Log) :
  let a := CLIPArgs_default (F := F) ed (vision_cfg_of vl vw vp vi)
             (text_cfg_of ctx vocab tw th tl) quick_gelu cast_dtype in
  (exists n, vl = LInt n)
  \/ (exists c1 c2 c3 c4, vl = LTuple [c1; c2; c3; c4]) ->
  exists vis ta,
    CLIP_init a log
    = (log ++ [EvVisual vis; EvText (TextTransformer ta false)],
       Ok (mk_CLIP a None vis (TextTransformer ta false)))
    /\ tt_heads ta = th /\ tt_width ta = tw /\ tt_output_dim ta = ed
    /\ ((exists va, vis = VisionTransformer va false
                    /\ vt_heads va = (vw / 64)%Z /\ vt_width va = vw)
        \/ (exists ra, vis = ModifiedResNet ra
                       /\ rn_heads ra = (vw * 32 / 64)%Z
                       /\ rn_width ra = vw)).
Proof.
  intros a Hvl. subst a.
  destruct Hvl as [[n ->] | (c1 & c2 & c3 & c4 & ->)].
  - eexists _, _. split; [| split; [| split; [| split]]].
    + unfold CLIP_init, _build_vision_tower, _build_text_tower, bind, lift,
        ret, emit, modify. cbn. rewrite <- app_assoc. reflexivity.
    + reflexivity.
    + reflexivity.
    + reflexivity.
    + left. eexists. repeat split.
  - eexists _, _. split; [| split; [| split; [| split]]].
    + unfold CLIP_init, _build_vision_tower, _build_text_tower, bind, lift,
        ret, emit, modify. cbn. rewrite <- app_assoc. reflexivity.
    + reflexivity.
    + reflexivity.
    + reflexivity.
    + right. eexists. repeat split.
Qed.

Lemma on_dict_get_run (w : World F) :
  on_dict get_state w = (w, Ok (w_dict w)).
Proof. destruct w; reflexivity. Qed.

(** X17.  What the adapter builds: a model in evaluation mode, without
    the structured mode, the codebook, the bottleneck or dict output,
    whose text tower is the plain transformer with [width // 64] heads
    emitting at the model's embedding width, and whose vision tower is
    the plain transformer with [width // 64] heads or the residual
    network with [width * 32 // 64] heads. *)
Theorem build_model_plain_eval (quick_gelu : bool)
    (cast_dtype : option DType) (w w' : World F) (model : CLIP F) :
  build_model_from_openai_state_dict quick_gelu cast_dtype w
  = (w', Ok model) ->
  training model = false /\ use_sparo model = false
  /\ use_codebook model = false /\ bottleneck_dim model = None
  /\ output_dict model = false
  /\ (exists ta, text_tower model = TextTransformer ta false
                 /\ tt_heads ta = (tt_width ta / 64)%Z
                 /\ tt_output_dim ta = embed_dim model)
  /\ ((exists va, visual model = VisionTransformer va false
                  /\ vt_heads va = (vt_width va / 64)%Z)
      \/ (exists ra, visual model = ModifiedResNet ra
                     /\ rn_heads ra = (rn_width ra * 32 / 64)%Z)).
Proof.
  unfold build_model_from_openai_state_dict. intros Hrun.
  apply bind_ok in Hrun. destruct Hrun as (w0 & sd & Hget & Hrun).
  apply on_dict_get in Hget. destruct Hget as [-> ->].
  apply bind_ok in Hrun. destruct Hrun as (w1 & vis & Hvis & Hrun).
  apply lift_ok in Hvis. destruct Hvis as [Hvis ->].
  destruct vis as [[[vl vw] vp] vi].
  apply bind_ok in Hrun. destruct Hrun as (w1 & txt & Htxt & Hrun).
  apply lift_ok in Htxt. destruct Htxt as [Htxt ->].
  destruct txt as [[[[[ed ctx] vocab] tw] th] tl].
  apply bind_ok in Hrun. destruct Hrun as (w1 & m0 & Hinit & Hrun).
  apply on_log_ok in Hinit. destruct Hinit as (l1 & Hinit & ->).
  destruct (CLIP_init_default_runs quick_gelu cast_dtype ed vw vi ctx vocab
              tw th tl vl vp (w_log w) (infer_vision_layers _ _ _ _ _ Hvis))
    as (v & ta & Hinit' & Hth & Htw & Hed & Hv).
  cbv zeta in Hinit'. rewrite Hinit' in Hinit. injection Hinit as _ <-.
  repeat match type of Hrun with
         | bind _ _ _ = (_, Ok _) =>
             let s := fresh "s" in let u := fresh "u" in
             let Hm := fresh "Hm" in
             apply bind_ok in Hrun; destruct Hrun as (s & u & Hm & Hrun)
         end.
  apply ret_ok in Hrun. destruct Hrun as [-> _].
  cbn [eval mk_CLIP training use_sparo use_codebook bottleneck_dim
       output_dict text_tower visual embed_dim CLIPArgs_default
       a_use_sparo a_use_codebook a_bottleneck_dim a_output_dict a_embed_dim].
  repeat (split; [reflexivity |]). split.
  - exists ta. split; [reflexivity |].
    rewrite Hth, Htw, Hed, (infer_text_heads _ _ _ _ _ _ _ Htxt).
    split; reflexivity.
  - destruct Hv as [(va & -> & Hh & Hw) | (ra & -> & Hh & Hw)].
    + left. exists va. rewrite Hh, Hw. split; reflexivity.
    + right. exists ra. rewrite Hh, Hw. split; reflexivity.
Qed.

(** X18.  How the adapter fails.  Either the shape inference raised
    (a missing key, a size that is not there, the assertion on the
    attention pool's table) and nothing at all has changed; or the
    model was constructed, the three metadata keys have already been
    removed from the caller's dict, and the exception is the one of
    the precision conversion or of the load into the model. *)
Theorem build_model_failure (quick_gelu : bool)
    (cast_dtype : option DType) (w w' : World F) (e : PyErr) :
  build_model_from_openai_state_dict quick_gelu cast_dtype w
  = (w', Raise e) ->
  (w' = w
   /\ (infer_vision (w_dict w) = Raise e
       \/ infer_text (w_dict w) = Raise e))
  \/ (w_dict w' = delete "vocab_size"
                    (delete "context_length"
                       (delete "input_resolution" (w_dict w)))
      /\ exists model p,
           (convert_weights_to_fp16 (modules model) (w_params w)
            = (w_params w', Raise e))
           \/ (convert_weights_to_fp16 (modules model) (w_params w)
               = (p, Ok tt)
               /\ load_state_dict model (w_dict w') p
                  = (w_params w', Raise e))).
Proof.
  unfold build_model_from_openai_state_dict.
  rewrite (bind_run _ _ w w (w_dict w)) by apply on_dict_get_run.
  destruct (infer_vision (w_dict w)) as [[[[vl vw] vp] vi] | e1] eqn:Hv.
  2:{ rewrite (bind_raise _ _ w w e1) by reflexivity.
      intros [= <- <-]. left. auto. }
  rewrite (bind_run _ _ w w (vl, vw, vp, vi)) by reflexivity.
  destruct (infer_text (w_dict w))
    as [[[[[[ed ctx] vocab] tw] th] tl] | e1] eqn:Ht.
  2:{ rewrite (bind_raise _ _ w w e1) by reflexivity.
      intros [= <- <-]. left. auto. }
  rewrite (bind_run _ _ w w (ed, ctx, vocab, tw, th, tl)) by reflexivity.
  destruct (CLIP_init_default_runs quick_gelu cast_dtype ed vw vi ctx vocab
              tw th tl vl vp (w_log w) (infer_vision_layers _ _ _ _ _ Hv))
    as (v & ta & Hinit & _).
  cbv zeta in Hinit.
  erewrite bind_run by (unfold on_log; rewrite Hinit; reflexivity).
  erewrite bind_run by apply pop_metadata.
  erewrite bind_run by reflexivity.
  cbn [w_dict w_params w_log].
  match goal with
  | |- context [convert_weights_to_fp16 (modules ?m)] => set (model := m)
  end.
  destruct (convert_weights_to_fp16 (modules model) (w_params w))
    as [p1 [[] | e1]] eqn:Hconv.
  2:{ erewrite bind_raise
        by (unfold on_params; cbn [w_params]; rewrite Hconv; reflexivity).
      intros [= <- <-]. right. cbn [w_dict w_params].
      split; [reflexivity |]. exists model, p1. left. exact Hconv. }
  erewrite bind_run
    by (unfold on_params; cbn [w_params]; rewrite Hconv; reflexivity).
  erewrite bind_run by reflexivity.
  erewrite bind_run by reflexivity.
  cbn [w_dict w_params w_log].
  match goal with
  | |- context [load_state_dict model ?d] => set (stripped := d)
  end.
  destruct (load_state_dict model stripped p1) as [p2 [[] | e1]] eqn:Hload.
  - erewrite bind_run
      by (unfold on_params; cbn [w_params]; rewrite Hload; reflexivity).
    erewrite bind_run by reflexivity.
    discriminate.
  - erewrite bind_raise
      by (unfold on_params; cbn [w_params]; rewrite Hload; reflexivity).
    intros [= <- <-]. right. cbn [w_dict w_params].
    split; [reflexivity |]. exists model, p1. right.
    split; [exact Hconv | exact Hload].
Qed.
End BuildFacts.

(** The adapter on the residual export. *)
Lemma example_resnet_build_runs :
  build_model_from_openai_state_dict (RT := shape_runtime)
    false None (example_resnet_world (F := R))
  = ({| w_dict := delete "vocab_size"
                    (delete "context_length"
                       (delete "input_resolution" example_resnet_dict));
        w_params := ∅;
        w_log := [EvVisual (visual example_resnet_model);
                  EvText (text_tower example_resnet_model)]
                 ++ map EvDictPop metadata_keys
                 ++ [EvConvertWeights float16;
                     EvLoadStateDict
                       (dom (delete "vocab_size"
                               (delete "context_length"
                                  (delete "input_resolution"
                                     (example_resnet_dict (F := R))))));
                     EvEval] |},
     Ok (eval example_resnet_model)).
Proof.
  apply (build_model_runs (RT := shape_runtime) false None
           (example_resnet_world (F := R))
           (LTuple [3; 4; 6; 3]%Z) 64%Z None 224%Z
           512%Z 77%Z 49408%Z 512%Z 8%Z 1%Z
           [EvVisual (visual example_resnet_model);
            EvText (text_tower example_resnet_model)]
           example_resnet_model ∅ ∅).
  - vm_compute. reflexivity.
  - vm_compute. reflexivity.
  - reflexivity.
  - reflexivity.
  - reflexivity.
Qed.

Lemma build_model_plain_eval_witness :
  let model := eval (example_resnet_model (F := R)) in
  training model = false /\ use_sparo model = false
  /\ use_codebook model = false /\ bottleneck_dim model = None
  /\ output_dict model = false
  /\ (exists ta, text_tower model = TextTransformer ta false
                 /\ tt_heads ta = (tt_width ta / 64)%Z
                 /\ tt_output_dim ta = embed_dim model)
  /\ ((exists va, visual model = VisionTransformer va false
                  /\ vt_heads va = (vt_width va / 64)%Z)
      \/ (exists ra, visual model = ModifiedResNet ra
                     /\ rn_heads ra = (rn_width ra * 32 / 64)%Z)).
Proof.
  cbv zeta.
  apply (build_model_plain_eval (RT := shape_runtime) false None
           (example_resnet_world (F := R))
           (fst (build_model_from_openai_state_dict (RT := shape_runtime)
                   false None (example_resnet_world (F := R))))
           (eval example_resnet_model)).
  rewrite example_resnet_build_runs. reflexivity.
Defined.

Lemma build_model_failure_witness :
  let w := empty_world (F := R) in
  let e := KeyError "visual.layer1.0.conv1.weight" in
  (w = w
   /\ (infer_vision (w_dict w) = Raise e
       \/ infer_text (w_dict w) = Raise e))
  \/ (w_dict w = delete "vocab_size"
                   (delete "context_length"
                      (delete "input_resolution" (w_dict w)))
      /\ exists model p,
           (convert_weights_to_fp16 (modules (Runtime := shape_runtime) model)
              (w_params w) = (w_params w, Raise e))
           \/ (convert_weights_to_fp16
                 (modules (Runtime := shape_runtime) model) (w_params w)
               = (p, Ok tt)
               /\ load_state_dict (Runtime := shape_runtime) model
                    (w_dict w) p = (w_params w, Raise e))).
Proof.
  cbv zeta.
  apply (build_model_failure (RT := shape_runtime) false None
           (empty_world (F := R)) (empty_world (F := R))
           (KeyError "visual.layer1.0.conv1.weight")).
  vm_compute. reflexivity.
Defined.

(** ** Resizing the position table: what is left alone *)

Section ResizeFrame.
Context {F : Type} {SF : Scalar F} {Tokens : Type}
  {RT : Runtime (F := F) Tokens}.

(** X19.  [resize_pos_embed] touches one key at most.  Whatever the
    outcome, every other entry of the dict and the set of its keys are
    as before; the dict is unchanged altogether when an exception is
    raised (every step that can fail comes before the assignment) and
    when the model's vision tower has no [grid_size], in which case
    the call returns. *)
Theorem resize_pos_embed_frame (model : CLIP F) (interpolation : string)
    (antialias : bool) (state_dict : gmap string (Tensor F)) :
  let run := resize_pos_embed model interpolation antialias state_dict in
  (forall k, k <> "visual.positional_embedding" ->
             fst run !! k = state_dict !! k)
  /\ dom (fst run) = dom state_dict
  /\ (snd run <> Ok tt -> fst run = state_dict)
  /\ (grid_size_attr (visual model) = None -> run = (state_dict, Ok tt)).
Proof.
  cbv zeta. unfold resize_pos_embed.
  rewrite (bind_run _ _ state_dict state_dict state_dict) by reflexivity.
  destruct (state_dict !! "visual.positional_embedding") as [old |] eqn:Hold;
    [| cbn; repeat split; congruence].
  destruct (grid_size_attr (visual model)) as [g |];
    [| cbn; repeat split; congruence].
  assert (Hkeep : forall r : Result unit,
            (forall k, k <> "visual.positional_embedding" ->
                       fst (state_dict, r) !! k = state_dict !! k)
            /\ dom (fst (state_dict, r)) = dom state_dict
            /\ (snd (state_dict, r) <> Ok tt ->
                fst (state_dict, r) = state_dict)
            /\ (Some g = None -> (state_dict, r) = (state_dict, Ok tt))).
  { intros r. cbn. repeat split; congruence. }
  unfold bind, lift, ret, modify.
  repeat match goal with
         | |- context [match ?r with Ok _ => _ | Raise _ => _ end] =>
             destruct r; try apply Hkeep
         | |- context [if ?c then _ else _] =>
             destruct c; try apply Hkeep
         end.
  cbn [fst snd]. split; [| split; [| split]].
  - intros k Hk. now rewrite lookup_insert_ne by congruence.
  - apply dom_insert_lookup_L. eauto.
  - intros Hr. now contradiction Hr.
  - discriminate.
Qed.
End ResizeFrame.

(** ** The text encoder off the structured path *)

Section PlainText.
Context {F : Type} {SF : Scalar F} {Tokens : Type}
  {RT : Runtime (F := F) Tokens}.

(** X20.  [encode_text] of a model without the structured mode, on a
    (batch, context, width) embedding that the transformer maps to a
    tensor of three axes: with neither a codebook nor an attentional
    pool, global average pooling is not implemented, and the call
    raises [NotImplementedError] whatever [normalize] is; in every
    other configuration the call without normalization returns a
    tensor. *)
Theorem encode_text_plain (self : CLIP F) (text : Tokens)
    (normalize return_sparo return_attn : bool) :
  use_sparo self = false ->
  length (t_shape (embed_text self text)) = 3%nat ->
  (forall x, length (t_shape x) = 3%nat ->
             length (t_shape (transformer (text_tower self) x)) = 3%nat) ->
  let unpooled_average :=
    negb (use_codebook self)
    && negb (bool_decide (is_Some (text_attn_pool (text_tower self))))
    && text_global_average_pool (text_tower self) in
  (unpooled_average = true ->
   encode_text self text normalize return_sparo return_attn
   = Raise NotImplementedError)
  /\ (unpooled_average = false ->
      exists t,
        encode_text self text false return_sparo return_attn
        = Ok (EncFeatures (FTensor t))).
Proof.
  intros Hs Hrank Htrans. cbv zeta. unfold encode_text. rewrite Hs.
  cbn [negb].
  destruct (permute_102 _ Hrank) as (x1 & -> & Hx1). cbn [rbind].
  destruct (permute_102 _ (Htrans x1 Hx1)) as (x2 & -> & _). cbn [rbind].
  destruct (use_codebook self); cbn [negb andb].
  - split; [discriminate |]. intros _.
    destruct (bottleneck_dim self); eexists; reflexivity.
  - destruct (text_attn_pool (text_tower self)) as [pool |].
    + rewrite bool_decide_true by eauto. cbn [negb andb].
      split; [discriminate |]. intros _.
      destruct (text_global_average_pool (text_tower self));
        cbn [rbind]; destruct (bottleneck_dim self); eexists; reflexivity.
    + rewrite bool_decide_false by (apply is_Some_None). cbn [negb andb].
      destruct (text_global_average_pool (text_tower self)).
      * split; [reflexivity | discriminate].
      * split; [discriminate |]. intros _. cbn [rbind].
        destruct (bottleneck_dim self); eexists; reflexivity.
Qed.
End PlainText.

Lemma encode_text_plain_witness :
  exists t,
    encode_text (RT := shape_runtime) (example_vit_model (F := R) 224 16)
                [[49406; 320; 49407]%Z] false false false
    = Ok (EncFeatures (FTensor t)).
Proof.
  apply (proj2 (encode_text_plain (RT := shape_runtime)
                  (example_vit_model (F := R) 224 16)
                  [[49406; 320; 49407]%Z] false false false
                  eq_refl eq_refl (fun x Hx => Hx))).
  reflexivity.
Defined.

(** ** The forward pass of a new model *)

Section ForwardFacts.
Context {Tokens : Type} {RT : Runtime (F := R) Tokens}.
Local Open Scope R_scope.

Lemma CLIP_init_scale (a : CLIPArgs R) (log log' : Log) (self : CLIP R) :
  CLIP_init a log = (log', Ok self) ->
  output_dict self = a_output_dict a
  /\ logit_scale self = 1 * ln (1 / (7 * powerRZ 10 (-2))).
Proof.
  unfold CLIP_init. intros Hrun. minv. split; reflexivity.
Qed.

(** X21.  The forward pass of a newly constructed model, when it
    returns: the scale of the logits is [exp(log(1 / 0.07))], that is
    100/7; the result is a dict exactly when the model was constructed
    with [output_dict]; and an input that is not given has no
    features, one that is given has. *)
Theorem forward_new_model (a : CLIPArgs R) (log log' : Log)
    (self : CLIP R) (image : option (Tensor R)) (text : option Tokens)
    (out : ForwardOut R) :
  CLIP_init a log = (log', Ok self) ->
  forward self image text = Ok out ->
  fwd_scale out = 100 / 7
  /\ fwd_is_dict out = a_output_dict a
  /\ (fwd_image_features out = None <-> image = None)
  /\ (fwd_text_features out = None <-> text = None).
Proof.
  intros Hinit. destruct (CLIP_init_scale _ _ _ _ Hinit) as [Hod Hls].
  unfold forward. rewrite Hod, Hls. real_ops.
  assert (Hscale : exp (1 * ln (1 / (7 * powerRZ 10 (-2)))) = 100 / 7).
  { rewrite Rmult_1_l, exp_ln.
    - simpl powerRZ. field.
    - simpl powerRZ. apply Rdiv_lt_0_compat; [lra |].
      apply Rmult_lt_0_compat; [lra |]. apply Rinv_0_lt_compat. lra. }
  rewrite Hscale.
  destruct image as [i |], text as [t |]; cbn [rbind];
    repeat match goal with
           | |- context [encode_image ?s ?i ?n ?rs ?ra] =>
               destruct (encode_image s i n rs ra); cbn [rbind];
               [| discriminate]
           | |- context [encode_text ?s ?i ?n ?rs ?ra] =>
               destruct (encode_text s i n rs ra); cbn [rbind];
               [| discriminate]
           end;
    destruct (a_output_dict a); intros [= <-]; cbn;
    repeat split; try reflexivity; try discriminate.
Qed.
End ForwardFacts.

Lemma forward_new_model_witness :
  let image := Some (meta_tensor (F := R) [1; 3; 224; 224]%nat) in
  let text := Some [[49406; 320; 49407]%Z] in
  exists out,
    forward (RT := shape_runtime) (example_vit_model (F := R) 224 16)
            image text = Ok out
    /\ fwd_scale out = (100 / 7)%R
    /\ fwd_is_dict out = false
    /\ (fwd_image_features out = None <-> image = None)
    /\ (fwd_text_features out = None <-> text = None).
Proof.
  cbv zeta.
  assert (Hrun : exists out,
            forward (RT := shape_runtime) (example_vit_model (F := R) 224 16)
              (Some (meta_tensor (F := R) [1; 3; 224; 224]%nat))
              (Some [[49406; 320; 49407]%Z]) = Ok out)
    by (eexists; reflexivity).
  destruct Hrun as [out Hrun]. exists out. split; [exact Hrun |].
  apply (forward_new_model (RT := shape_runtime)
           (CLIPArgs_default 512
              (vision_cfg_of (LInt 12) 768 (Some 16%Z) 224)
              CLIPTextCfg_default false None)
           []
           (fst (CLIP_init
                   (CLIPArgs_default 512
                      (vision_cfg_of (LInt 12) 768 (Some 16%Z) 224)
                      CLIPTextCfg_default false None) []))
           (example_vit_model (F := R) 224 16) _ _ out);
    [reflexivity | exact Hrun].
Defined.

(** ** Depth reduction *)

Section DepthFacts.
Context {F : Type} {SF : Scalar F}.

(** X22.  [reduce_depth] shortens both towers a construction builds
    itself: the text transformer and the vision transformer lose that
    many layers, the residual network loses them in its third stage
    only.  Declared optional, the argument is in fact required: with
    [None] no construction with a text transformer of its own
    returns. *)
Theorem CLIP_init_reduce_depth (a : CLIPArgs F) (log : Log) :
  str_truthy (hf_model_name (a_text_cfg a)) = false ->
  (a_reduce_depth a = None ->
   exists log' e, CLIP_init a log = (log', Raise e))
  /\ (forall log' self d,
        CLIP_init a log = (log', Ok self) -> a_reduce_depth a = Some d ->
        (exists ta, tower_text_args (text_tower self) = Some ta
                    /\ tt_layers ta = (t_layers (a_text_cfg a) - d)%Z)
        /\ (str_truthy (timm_model_name (a_vision_cfg a)) = false ->
            match layers (a_vision_cfg a) with
            | LInt n =>
                exists va, tower_vit_args (visual self) = Some va
                           /\ vt_layers va = (n - d)%Z
            | LTuple stages =>
                exists ra l0 l1 l2 l3,
                  visual self = ModifiedResNet ra
                  /\ firstn 4 stages = [l0; l1; l2; l3]
                  /\ rn_layers ra = (l0, l1, l2 - d, l3)%Z
            end)).
Proof.
  intros Hhf. split.
  - intros Hnone.
    destruct (CLIP_init a log) as [log' [self | e]] eqn:Hrun;
      [| eauto].
    exfalso. unfold CLIP_init in Hrun.
    apply bind_ok in Hrun. destruct Hrun as (l0 & u & _ & Hrun).
    apply bind_ok in Hrun. destruct Hrun as (l1 & mV & _ & Hrun).
    apply bind_ok in Hrun. destruct Hrun as (l2 & vis & _ & Hrun).
    apply bind_ok in Hrun. destruct Hrun as (l3 & txt & Htxt & _).
    unfold _build_text_tower in Htxt. rewrite Hhf in Htxt.
    apply bind_ok in Htxt. destruct Htxt as (l4 & depth & Hd & _).
    apply lift_ok in Hd. destruct Hd as [Hd _].
    cbn [tower_opts o_reduce_depth] in Hd. rewrite Hnone in Hd.
    discriminate Hd.
  - intros log' self d Hrun Hd. unfold CLIP_init in Hrun.
    apply bind_ok in Hrun. destruct Hrun as (l0 & u & _ & Hrun).
    apply bind_ok in Hrun. destruct Hrun as (l1 & mV & _ & Hrun).
    apply bind_ok in Hrun. destruct Hrun as (l2 & vis & Hvis & Hrun).
    apply bind_ok in Hrun. destruct Hrun as (l3 & txt & Htxt & Hrun).
    assert (Hself : visual self = vis /\ text_tower self = txt).
    { minv. split; reflexivity. }
    destruct Hself as [-> ->]. clear Hrun. split.
    + unfold _build_text_tower in Htxt. rewrite Hhf in Htxt.
      apply bind_ok in Htxt. destruct Htxt as (l4 & depth & Hdep & Htxt).
      apply lift_ok in Hdep. destruct Hdep as [Hdep ->].
      cbn [tower_opts o_reduce_depth] in Hdep. rewrite Hd in Hdep.
      injection Hdep as <-. minv.
      destruct (o_use_sparo _); eexists; split; reflexivity.
    + intros Htimm. unfold _build_vision_tower in Hvis.
      rewrite Htimm in Hvis.
      destruct (layers (a_vision_cfg a)) as [n | stages].
      * apply bind_ok in Hvis. destruct Hvis as (l4 & h & _ & Hvis).
        apply bind_ok in Hvis. destruct Hvis as (l5 & depth & Hdep & Hvis).
        apply lift_ok in Hdep. destruct Hdep as [Hdep ->].
        cbn [tower_opts o_reduce_depth] in Hdep. rewrite Hd in Hdep.
        injection Hdep as <-. minv.
        destruct (o_use_sparo _); eexists; split; reflexivity.
      * minv.
        repeat match goal with
               | Hg : tuple_get _ _ = Ok _ |- _ =>
                   unfold tuple_get in Hg
               end.
        destruct stages as [| s0 [| s1 [| s2 [| s3 rest]]]];
          try discriminate.
        cbn [nth_error] in *.
        repeat match goal with
               | Hg : Ok _ = Ok _ |- _ => injection Hg as <-
               end.
        match goal with
        | Hs : sub_depth _ _ = Ok _ |- _ =>
            cbn [tower_opts o_reduce_depth] in Hs; rewrite Hd in Hs;
            injection Hs as <-
        end.
        eexists _, s0, s1, s2, s3. repeat split.
Qed.
End DepthFacts.

Lemma CLIP_init_reduce_depth_witness :
  let self := example_sparo_model (F := R) "cont:const" 4 2 in
  (exists ta, tower_text_args (text_tower self) = Some ta
              /\ tt_layers ta = (12 - 0)%Z)
  /\ (str_truthy (timm_model_name (CLIPVisionCfg_default (F := R))) = false ->
      exists va, tower_vit_args (visual self) = Some va
                 /\ vt_layers va = (12 - 0)%Z).
Proof.
  cbv zeta.
  apply (proj2 (CLIP_init_reduce_depth
                  (example_sparo_args (F := R) "cont:const" 4 2) [] eq_refl)
           (fst (CLIP_init (example_sparo_args (F := R) "cont:const" 4 2) []))
           (example_sparo_model (F := R) "cont:const" 4 2) 0%Z);
    reflexivity.
Defined.
